(** * schema-client: the document validator (src/validation.ts)

    A shallow embedding of [validateDocument], [validateField], the per-kind
    checkers, [applyValidationRules] and [formatValidationForAgent], together
    with the helper [getValidationRules] of src/helpers.ts.

    The definitions that follow the validator embed [formatValidationIssues]
    and the rest of src/helpers.ts that the schema model can express: the
    introspection helpers, the traversal of a schema ([walkSchemaTypes],
    [getReferencedTypeNames]) and the skeleton generator.

    Modelling conventions.
    - A JavaScript string is the list of its UTF-16 code units ([JsString]).
    - A JavaScript number is an IEEE 754 binary64 value ([spec_float] with
      precision 53 and maximal exponent 1024, finite values in the normal
      form that [binary_normalize] produces).
    - Document data is a [JsValue]: undefined, null, booleans, numbers,
      strings, arrays and plain objects.  A property read [o[k]] is resolved
      against the own string-keyed properties of a plain object (first binding
      of the key); members inherited from a prototype, and the [length] and
      index properties of arrays and strings, are outside the model, so such a
      read yields undefined.  A statement that fixes what is read under a
      field name excludes the names of the members of [Object.prototype]
      ([inheritedKey]).
    - ToString and ToNumber of an object are those of a plain object without
      an own property [toString]; with one (it cannot be a function in
      document data) the code throws a TypeError.  A statement about a step
      that converts an untested value asks for [stringifies] or [plainData].
    - An assignment [o[k] = v] creates or replaces an own property, which
      holds for every key but [__proto__] ([assignable]).
    - A function that may throw returns an [Outcome].  The error is a
      TypeError; the RangeError with which an engine answers a call that
      spreads too long an array, or too deep a recursion, has no counterpart:
      lists and recursion are unbounded in the model.
    - What the JavaScript run time supplies and the validator only calls
      (number formatting and parsing, [Date], [URL], [RegExp] on schema
      supplied patterns, [toLowerCase], [JSON.stringify], [Math.round]) is a
      record [Host] of functions. *)

From Stdlib Require Import List Bool Arith NArith ZArith Lia.
From Stdlib Require Import Ascii String DecimalString.
From Stdlib Require Import Floats.SpecFloat.
Import ListNotations.

Local Open Scope list_scope.

(* ------------------------------------------------------------------ *)
(** ** Strings *)

Definition JsString := list N.

(** The code units of an ASCII literal of the source. *)
Definition js (s : string) : JsString :=
  map N_of_ascii (list_ascii_of_string s).

Fixpoint str_eqb (a b : JsString) : bool :=
  match a, b with
  | [], [] => true
  | x :: a', y :: b' => N.eqb x y && str_eqb a' b'
  | _, _ => false
  end.

(** The double quote that template literals of the source put around a
    value. *)
Definition dq : JsString := [34%N].

(** Decimal rendering of an array index or a length. *)
Definition showNat (n : nat) : JsString :=
  js (NilZero.string_of_uint (Nat.to_uint n)).

Fixpoint startsWith (s prefix : JsString) : bool :=
  match prefix, s with
  | [], _ => true
  | p :: prefix', c :: s' => N.eqb p c && startsWith s' prefix'
  | _ :: _, [] => false
  end.

(** [String.prototype.includes] *)
Fixpoint includes (s sub : JsString) : bool :=
  startsWith s sub ||
  match s with
  | [] => false
  | _ :: s' => includes s' sub
  end.

(** [Array.prototype.join] on strings. *)
Fixpoint join (sep : JsString) (parts : list JsString) : JsString :=
  match parts with
  | [] => []
  | [p] => p
  | p :: rest => p ++ sep ++ join sep rest
  end.

(* ------------------------------------------------------------------ *)
(** ** Regular expressions written as literals in the source

    The two literals with anchors on both sides are matched with
    derivatives; a character class is a predicate on code units.  The two
    literals passed to [replace] are transcribed as functions. *)

Inductive Re : Type :=
| ReVoid
| ReEps
| ReClass (p : N -> bool)
| ReSeq (r1 r2 : Re)
| ReAlt (r1 r2 : Re)
| ReStar (r : Re).

Definition RePlus (r : Re) : Re := ReSeq r (ReStar r).

Fixpoint nullable (r : Re) : bool :=
  match r with
  | ReVoid => false
  | ReEps => true
  | ReClass _ => false
  | ReSeq r1 r2 => nullable r1 && nullable r2
  | ReAlt r1 r2 => nullable r1 || nullable r2
  | ReStar _ => true
  end.

Fixpoint deriv (c : N) (r : Re) : Re :=
  match r with
  | ReVoid => ReVoid
  | ReEps => ReVoid
  | ReClass p => if p c then ReEps else ReVoid
  | ReSeq r1 r2 =>
      if nullable r1
      then ReAlt (ReSeq (deriv c r1) r2) (deriv c r2)
      else ReSeq (deriv c r1) r2
  | ReAlt r1 r2 => ReAlt (deriv c r1) (deriv c r2)
  | ReStar r1 => ReSeq (deriv c r1) (ReStar r1)
  end.

(** [/^r$/.test(s)] *)
Fixpoint matches (r : Re) (s : JsString) : bool :=
  match s with
  | [] => nullable r
  | c :: s' => matches (deriv c r) s'
  end.

Definition code (a : ascii) : N := N_of_ascii a.

Definition inRange (lo hi : ascii) (c : N) : bool :=
  N.leb (code lo) c && N.leb c (code hi).

(** [[a-z0-9]] *)
Definition isSlugAlnum (c : N) : bool :=
  inRange "a" "z" c || inRange "0" "9" c.

Definition isHyphen (c : N) : bool := N.eqb c (code "-").

(** [\s] of ECMAScript: white space and line terminators. *)
Definition isJsSpace (c : N) : bool :=
  existsb (N.eqb c)
    [9; 10; 11; 12; 13; 32; 160; 5760; 8232; 8233; 8239; 8287; 12288; 65279]%N
  || (N.leb 8192 c && N.leb c 8202).

(** [[^\s@]] *)
Definition isEmailAtom (c : N) : bool :=
  negb (isJsSpace c) && negb (N.eqb c (code "@")).

(** [/^[a-z0-9]+(?:-[a-z0-9]+)*$/] *)
Definition slugPattern : Re :=
  ReSeq (RePlus (ReClass isSlugAlnum))
        (ReStar (ReSeq (ReClass isHyphen) (RePlus (ReClass isSlugAlnum)))).

(** [/^[^\s@]+@[^\s@]+\.[^\s@]+$/] *)
Definition emailPattern : Re :=
  ReSeq (RePlus (ReClass isEmailAtom))
    (ReSeq (ReClass (N.eqb (code "@")))
      (ReSeq (RePlus (ReClass isEmailAtom))
        (ReSeq (ReClass (N.eqb (code ".")))
               (RePlus (ReClass isEmailAtom))))).

(** [s.replace(/[^a-z0-9]+/g, '-')]: every maximal run of code units outside
    [[a-z0-9]] becomes one hyphen.  [inRun] tells that the previous code unit
    belonged to the run being replaced. *)
Fixpoint replaceRuns (inRun : bool) (s : JsString) : JsString :=
  match s with
  | [] => []
  | c :: s' =>
      if isSlugAlnum c then c :: replaceRuns false s'
      else if inRun then replaceRuns true s'
      else code "-" :: replaceRuns true s'
  end.

Definition replaceNonAlnumRuns (s : JsString) : JsString := replaceRuns false s.

(** The alternative [-$] of [/^-|-$/g]: a hyphen that ends the string. *)
Fixpoint dropLastHyphen (s : JsString) : JsString :=
  match s with
  | [] => []
  | [c] => if isHyphen c then [] else [c]
  | c :: s' => c :: dropLastHyphen s'
  end.

(** [s.replace(/^-|-$/g, '')]: the alternative [^-] is tried at index 0 and
    consumes the hyphen found there; scanning resumes after it, where only
    [-$] can still match. *)
Definition stripEdgeHyphen (s : JsString) : JsString :=
  match s with
  | c :: s' => if isHyphen c then dropLastHyphen s' else dropLastHyphen s
  | [] => []
  end.

(* ------------------------------------------------------------------ *)
(** ** Numbers *)

Definition JsNumber := spec_float.

Definition prec64 : Z := 53.
Definition emax64 : Z := 1024.

(** The number that an array index or a [length] denotes. *)
Definition ofNat (n : nat) : JsNumber :=
  binary_normalize prec64 emax64 (Z.of_nat n) 0 false.

Definition numZero : JsNumber := S754_zero false.
Definition numOne : JsNumber := ofNat 1.
Definition numNaN : JsNumber := S754_nan.
Definition numInfinity : JsNumber := S754_infinity false.

Definition Number_isNaN (x : JsNumber) : bool :=
  match x with
  | S754_nan => true
  | _ => false
  end.

(** [Number.isInteger]: finite, and the value [m * 2^e] is integral. *)
Definition Number_isInteger (x : JsNumber) : bool :=
  match x with
  | S754_zero _ => true
  | S754_finite _ m e =>
      (0 <=? e)%Z || (Zpos m mod 2 ^ (- e) =? 0)%Z
  | S754_infinity _ | S754_nan => false
  end.

Definition num_lt (a b : JsNumber) : bool := SFltb a b.
Definition num_le (a b : JsNumber) : bool := SFleb a b.
Definition num_gt (a b : JsNumber) : bool := SFltb b a.
Definition num_eq (a b : JsNumber) : bool := SFeqb a b.
Definition num_sub (a b : JsNumber) : JsNumber := SFsub prec64 emax64 a b.

(* ------------------------------------------------------------------ *)
(** ** Values *)

#[local] Unset Elimination Schemes.

Inductive JsValue : Type :=
| JUndefined
| JNull
| JBool (b : bool)
| JNum (n : JsNumber)
| JStr (s : JsString)
| JArr (items : list JsValue)
| JObj (props : list (JsString * JsValue)).

#[local] Set Elimination Schemes.


Definition typeof (v : JsValue) : JsString :=
  match v with
  | JUndefined => js "undefined"
  | JNull => js "object"
  | JBool _ => js "boolean"
  | JNum _ => js "number"
  | JStr _ => js "string"
  | JArr _ => js "object"
  | JObj _ => js "object"
  end.

(** [v === undefined || v === null] *)
Definition isNullish (v : JsValue) : bool :=
  match v with
  | JUndefined | JNull => true
  | _ => false
  end.

Definition isUndefined (v : JsValue) : bool :=
  match v with
  | JUndefined => true
  | _ => false
  end.

(** [typeof v === 'object' && v !== null] *)
Definition isObjectLike (v : JsValue) : bool :=
  match v with
  | JArr _ | JObj _ => true
  | _ => false
  end.

(** ToBoolean *)
Definition truthy (v : JsValue) : bool :=
  match v with
  | JUndefined | JNull => false
  | JBool b => b
  | JNum (S754_zero _) | JNum S754_nan => false
  | JNum _ => true
  | JStr [] => false
  | JStr _ => true
  | JArr _ | JObj _ => true
  end.

(** [v === s] for a string [s] *)
Definition strictEqStr (v : JsValue) (s : JsString) : bool :=
  match v with
  | JStr t => str_eqb t s
  | _ => false
  end.

(** [v === o] for an optional string property [o] (undefined when absent) *)
Definition strictEqOptStr (v : JsValue) (o : option JsString) : bool :=
  match o with
  | Some s => strictEqStr v s
  | None => isUndefined v
  end.

(** [v === 1] *)
Definition strictEqOne (v : JsValue) : bool :=
  match v with
  | JNum n => num_eq n numOne
  | _ => false
  end.

Fixpoint lookup (props : list (JsString * JsValue)) (key : JsString)
  : option JsValue :=
  match props with
  | [] => None
  | (k, v) :: rest => if str_eqb k key then Some v else lookup rest key
  end.

(** [props[key]] of a plain object *)
Definition getProp (props : list (JsString * JsValue)) (key : JsString)
  : JsValue :=
  match lookup props key with
  | Some v => v
  | None => JUndefined
  end.

(** [v[key]] for a [v] that is neither undefined nor null *)
Definition get (v : JsValue) (key : JsString) : JsValue :=
  match v with
  | JObj props => getProp props key
  | _ => JUndefined
  end.

(** [key in v] for an object or an array [v] *)
Definition hasKey (v : JsValue) (key : JsString) : bool :=
  match v with
  | JObj props => existsb (fun kv => str_eqb (fst kv) key) props
  | _ => false
  end.

(** The read [props[key]] with the two outcomes kept apart: [found] receives
    the stored value, [missing] stands for the read that yields undefined. *)
Definition withProp {A : Type} (props : list (JsString * JsValue))
  (key : JsString) (found : JsValue -> A) (missing : A) : A :=
  (fix scan (l : list (JsString * JsValue)) : A :=
     match l with
     | [] => missing
     | (k, v) :: rest => if str_eqb k key then found v else scan rest
     end) props.

(* ------------------------------------------------------------------ *)
(** ** Exceptions *)

Inductive JsError : Type :=
| TypeError.

Inductive Outcome (A : Type) : Type :=
| Returns (a : A)
| Throws (e : JsError).

Arguments Returns {A} a.
Arguments Throws {A} e.

Definition bind {A B : Type} (m : Outcome A) (k : A -> Outcome B) : Outcome B :=
  match m with
  | Returns a => k a
  | Throws e => Throws e
  end.

Notation "x <- m ;; k" := (bind m (fun x => k))
  (at level 61, m at next level, right associativity).

(* ------------------------------------------------------------------ *)
(** ** The run time *)

Record Host : Type := {
  (** Number::toString, as used by template literals *)
  Number_toString : JsNumber -> JsString;
  (** StringToNumber, as used by [<], [>] and [-] on a string operand *)
  String_toNumber : JsString -> JsNumber;
  Math_round : JsNumber -> JsNumber;
  (** [!isNaN(new Date(s).getTime())] *)
  Date_isValid : JsString -> bool;
  (** [new URL(s)] returns instead of throwing *)
  URL_parses : JsString -> bool;
  (** [new RegExp(pattern).test(s)]; [None] when the pattern does not compile *)
  RegExp_test : JsString -> JsString -> option bool;
  String_toLowerCase : JsString -> JsString;
  JSON_stringify : JsValue -> JsString
}.

(* ------------------------------------------------------------------ *)
(** ** Schema model (src/types.ts) *)

Record ManifestValidationRule : Type := {
  flag : JsString;
  constraint : option JsValue
}.

Record ManifestValidationGroup : Type := {
  rules : list ManifestValidationRule;
  group_message : option JsString;
  level : option JsString
}.

#[local] Unset Elimination Schemes.

(** [of_] is the property [of] of the source.  Of a member of [of] or [to]
    the validator reads [type], [name] and
    [fields] only. *)
Inductive ManifestSchemaType : Type := mkSchemaType {
  type : JsString;
  name : JsString;
  title : option JsString;
  fields : option (list ManifestSchemaType);
  of_ : option (list ManifestArrayMember);
  to : option (list ManifestArrayMember);
  validation : option (list ManifestValidationGroup);
  options : option (list (JsString * JsValue))
}
with ManifestArrayMember : Type := mkMember {
  member_type : JsString;
  member_name : option JsString;
  member_fields : option (list ManifestSchemaType)
}.

#[local] Set Elimination Schemes.

Definition ManifestField := ManifestSchemaType.
Definition ManifestReferenceMember := ManifestArrayMember.

(** [new Map(entries)]: a later entry replaces the value of an equal key. *)
Fixpoint Map_set {V : Type} (m : list (JsString * V)) (k : JsString) (v : V)
  : list (JsString * V) :=
  match m with
  | [] => [(k, v)]
  | (k', v') :: rest =>
      if str_eqb k' k then (k', v) :: rest else (k', v') :: Map_set rest k v
  end.

Definition Map_new {V : Type} (entries : list (JsString * V))
  : list (JsString * V) :=
  fold_left (fun m kv => Map_set m (fst kv) (snd kv)) entries [].

Fixpoint Map_get {V : Type} (m : list (JsString * V)) (k : JsString)
  : option V :=
  match m with
  | [] => None
  | (k', v) :: rest => if str_eqb k' k then Some v else Map_get rest k
  end.

Definition TypeMap := list (JsString * ManifestSchemaType).

(** [typeMap.get(key)] for an arbitrary key: only a string can be equal to a
    type name. *)
Definition TypeMap_get (typeMap : TypeMap) (key : JsValue)
  : option ManifestSchemaType :=
  match key with
  | JStr s => Map_get typeMap s
  | _ => None
  end.

(** src/helpers.ts, [getValidationRules] *)
Definition getValidationRules (field : ManifestSchemaType)
  : list ManifestValidationRule :=
  flat_map rules
    (match validation field with
     | Some groups => groups
     | None => []
     end).

(** [rule.constraint], undefined when the property is absent *)
Definition constraintOf (r : ManifestValidationRule) : JsValue :=
  match constraint r with
  | Some v => v
  | None => JUndefined
  end.

(* ------------------------------------------------------------------ *)
(** ** Issues and results (src/validation.ts) *)

(** ['error' | 'warning' | 'info'] *)
Inductive ValidationSeverity : Type :=
| sev_error
| sev_warning
| sev_info.

Definition severity_eqb (a b : ValidationSeverity) : bool :=
  match a, b with
  | sev_error, sev_error | sev_warning, sev_warning | sev_info, sev_info => true
  | _, _ => false
  end.

Record FieldContext : Type := {
  fc_name : JsString;
  fc_type : JsString;
  fc_title : option JsString
}.

(** An optional property is [None] when the object literal omits it. *)
Record ValidationIssue : Type := {
  path : JsString;
  message : JsString;
  severity : ValidationSeverity;
  rule : option ManifestValidationRule;
  value : option JsValue;
  expected : option JsValue;
  field : option FieldContext;
  suggestions : option (list JsString)
}.

Record ValidationResult : Type := {
  valid : bool;
  issues : list ValidationIssue;
  errors : list ValidationIssue;
  warnings : list ValidationIssue;
  info : list ValidationIssue;
  documentType : JsString;
  summary : JsString
}.

(** [resolveReference] is accepted and never called. *)
Record ValidateOptions : Type := {
  includeWarnings : option bool;
  includeInfo : option bool;
  stopOnFirstError : option bool;
  resolveReference : option (JsString -> option JsString)
}.

(** A destructuring default: used when the property is undefined. *)
Definition withDefault (o : option bool) (d : bool) : bool :=
  match o with
  | Some b => b
  | None => d
  end.

Definition isError (i : ValidationIssue) : bool := severity_eqb (severity i) sev_error.
Definition isWarning (i : ValidationIssue) : bool := severity_eqb (severity i) sev_warning.
Definition isInfo (i : ValidationIssue) : bool := severity_eqb (severity i) sev_info.

(** Runs [body] on every element in order and concatenates what it pushes;
    the first exception ends the loop. *)
Definition forEach {A : Type} (xs : list A)
  (body : A -> Outcome (list ValidationIssue)) : Outcome (list ValidationIssue) :=
  (fix loop (l : list A) : Outcome (list ValidationIssue) :=
     match l with
     | [] => Returns []
     | x :: rest =>
         pushed <- body x ;;
         later <- loop rest ;;
         Returns (pushed ++ later)
     end) xs.

(** The same with the index of the element, starting at [i]. *)
Definition forEachIndexed {A : Type} (i : nat) (xs : list A)
  (body : nat -> A -> Outcome (list ValidationIssue))
  : Outcome (list ValidationIssue) :=
  (fix loop (l : list A) (i : nat) : Outcome (list ValidationIssue) :=
     match l with
     | [] => Returns []
     | x :: rest =>
         pushed <- body i x ;;
         later <- loop rest (S i) ;;
         Returns (pushed ++ later)
     end) xs i.

(* ------------------------------------------------------------------ *)
(** ** The validator *)

Section Validator.

Variable h : Host.

(** ToString, as applied by a template literal.  [Array.prototype.join]
    renders undefined and null elements as the empty string. *)
Fixpoint toStr (v : JsValue) : JsString :=
  match v with
  | JUndefined => js "undefined"
  | JNull => js "null"
  | JBool true => js "true"
  | JBool false => js "false"
  | JNum n => Number_toString h n
  | JStr s => s
  | JArr items =>
      join (js ",")
        (map (fun x => if isNullish x then [] else toStr x) items)
  | JObj _ => js "[object Object]"
  end.

(** [values.join(sep)] *)
Definition joinValues (sep : JsString) (values : list JsValue) : JsString :=
  join sep (map (fun x => if isNullish x then [] else toStr x) values).

(** ToNumber; an object or array is first converted to a string. *)
Definition toNumber (v : JsValue) : JsNumber :=
  match v with
  | JUndefined => numNaN
  | JNull => numZero
  | JBool true => numOne
  | JBool false => numZero
  | JNum n => n
  | JStr s => String_toNumber h s
  | JArr _ | JObj _ => String_toNumber h (toStr v)
  end.

Definition validateString (value : JsValue) (field : ManifestField)
  (path : JsString) (rules : list ManifestValidationRule)
  (fieldContext : FieldContext) : Outcome (list ValidationIssue) :=
  match value with
  | JStr s =>
      match
        match options field with
        | Some opts => getProp opts (js "list")
        | None => JUndefined
        end
      with
      | JArr listItems =>
          validValues <-
            (fix each (items : list JsValue) : Outcome (list JsValue) :=
               match items with
               | [] => Returns []
               | item :: rest =>
                   v <- match item with
                        | JNull => Throws TypeError
                        | JArr _ | JObj _ => Returns (get item (js "value"))
                        | _ => Returns item
                        end ;;
                   vs <- each rest ;;
                   Returns (v :: vs)
               end) listItems ;;
          if negb (existsb (fun v => strictEqStr v s) validValues) then
            Returns
              [{| path := path;
                  message := dq ++ s ++ dq ++ js " is not a valid option";
                  severity := sev_error;
                  rule := None;
                  value := Some value;
                  expected :=
                    Some (JStr (js "one of: " ++ joinValues (js ", ") validValues));
                  field := Some fieldContext;
                  suggestions :=
                    Some (map (fun v => js "Use " ++ dq ++ toStr v ++ dq)
                              validValues) |}]
          else Returns []
      | _ => Returns []
      end
  | _ =>
      Returns
        [{| path := path;
            message := js "Expected string, got " ++ typeof value;
            severity := sev_error;
            rule := None;
            value := Some value;
            expected := Some (JStr (js "string"));
            field := Some fieldContext;
            suggestions := Some [js "Convert the value to a string"] |}]
  end.

Definition validateNumber (value : JsValue) (field : ManifestField)
  (path : JsString) (rules : list ManifestValidationRule)
  (fieldContext : FieldContext) : list ValidationIssue :=
  match value with
  | JNum n =>
      if Number_isNaN n then
        [{| path := path;
            message := js "Expected number, got " ++ typeof value;
            severity := sev_error;
            rule := None;
            value := Some value;
            expected := Some (JStr (js "number"));
            field := Some fieldContext;
            suggestions := Some [js "Convert the value to a number"] |}]
      else
        (match find (fun r => str_eqb (flag r) (js "integer")) rules with
         | Some integerRule =>
             if negb (Number_isInteger n) then
               [{| path := path;
                   message := js "Expected integer, got decimal";
                   severity := sev_error;
                   rule := Some integerRule;
                   value := Some value;
                   expected := Some (JStr (js "integer"));
                   field := Some fieldContext;
                   suggestions :=
                     Some [js "Round to " ++ Number_toString h (Math_round h n)] |}]
             else []
         | None => []
         end)
        ++
        (match find (fun r => str_eqb (flag r) (js "positive")) rules with
         | Some positiveRule =>
             if num_le n numZero then
               [{| path := path;
                   message := js "Expected positive number";
                   severity := sev_error;
                   rule := Some positiveRule;
                   value := Some value;
                   expected := Some (JStr (js "positive number"));
                   field := Some fieldContext;
                   suggestions := Some [js "Use a positive value"] |}]
             else []
         | None => []
         end)
  | _ =>
      [{| path := path;
          message := js "Expected number, got " ++ typeof value;
          severity := sev_error;
          rule := None;
          value := Some value;
          expected := Some (JStr (js "number"));
          field := Some fieldContext;
          suggestions := Some [js "Convert the value to a number"] |}]
  end.

Definition validateBoolean (value : JsValue) (path : JsString)
  (fieldContext : FieldContext) : list ValidationIssue :=
  match value with
  | JBool _ => []
  | _ =>
      [{| path := path;
          message := js "Expected boolean, got " ++ typeof value;
          severity := sev_error;
          rule := None;
          value := Some value;
          expected := Some (JStr (js "boolean"));
          field := Some fieldContext;
          suggestions := Some [js "Use true or false"] |}]
  end.

Definition validateDate (value : JsValue) (field : ManifestField)
  (path : JsString) (fieldContext : FieldContext) : list ValidationIssue :=
  let isDatetime := str_eqb (type field) (js "datetime") in
  let expectedFormat :=
    if isDatetime then js "ISO 8601 datetime string"
    else js "YYYY-MM-DD date string" in
  let example :=
    if isDatetime then js "Use format: 2024-01-15T10:30:00Z"
    else js "Use format: 2024-01-15" in
  match value with
  | JStr s =>
      if negb (Date_isValid h s) then
        [{| path := path;
            message := js "Invalid date format: " ++ dq ++ s ++ dq;
            severity := sev_error;
            rule := None;
            value := Some value;
            expected := Some (JStr expectedFormat);
            field := Some fieldContext;
            suggestions := Some [example] |}]
      else []
  | _ =>
      [{| path := path;
          message := js "Expected date string, got " ++ typeof value;
          severity := sev_error;
          rule := None;
          value := Some value;
          expected := Some (JStr expectedFormat);
          field := Some fieldContext;
          suggestions := Some [example] |}]
  end.

(** [!v || typeof v !== 'string'] *)
Definition notNonEmptyString (v : JsValue) : bool :=
  negb (truthy v) || negb (str_eqb (typeof v) (js "string")).

Definition validateReference (value : JsValue) (field : ManifestField)
  (path : JsString) (fieldContext : FieldContext) : list ValidationIssue :=
  if negb (isObjectLike value) then
    [{| path := path;
        message := js "Expected reference object, got " ++ typeof value;
        severity := sev_error;
        rule := None;
        value := Some value;
        expected := Some (JStr (js "reference object with _ref"));
        field := Some fieldContext;
        suggestions :=
          Some [js "Use format: { " ++ dq ++ js "_type" ++ dq ++ js ": "
                  ++ dq ++ js "reference" ++ dq ++ js ", " ++ dq ++ js "_ref"
                  ++ dq ++ js ": " ++ dq ++ js "document-id" ++ dq ++ js " }"] |}]
  else
    let refValue := get value (js "_ref") in
    let refType := get value (js "_type") in
    (if notNonEmptyString refValue then
       [{| path := path ++ js "._ref";
           message := js "Reference is missing _ref property";
           severity := sev_error;
           rule := None;
           value := Some refValue;
           expected := Some (JStr (js "string (document ID)"));
           field := Some fieldContext;
           suggestions :=
             Some [js "Add " ++ dq ++ js "_ref" ++ dq ++ js ": " ++ dq
                     ++ js "document-id" ++ dq ++ js " to the reference"] |}]
     else [])
    ++
    let targets := match to field with Some ts => ts | None => [] end in
    if truthy refType && negb (strictEqStr refType (js "reference")) then
      let allowedTypes :=
        filter (fun t => truthy (JStr t)) (map member_type targets) in
      if (0 <? List.length allowedTypes)
         && negb (existsb (fun t => strictEqStr refType t) allowedTypes) then
        [{| path := path ++ js "._type";
            message := js "Reference to " ++ dq ++ toStr refType ++ dq
                         ++ js " is not allowed";
            severity := sev_error;
            rule := None;
            value := Some refType;
            expected :=
              Some (JStr (js "reference to: " ++ join (js ", ") allowedTypes));
            field := Some fieldContext;
            suggestions :=
              Some [js "Reference a document of type: "
                      ++ join (js ", ") allowedTypes] |}]
      else []
    else [].

(** [slugCurrent.toLowerCase().replace(/[^a-z0-9]+/g, '-').replace(/^-|-$/g, '')] *)
Definition slugSuggestion (slugCurrent : JsString) : JsString :=
  stripEdgeHyphen (replaceNonAlnumRuns (String_toLowerCase h slugCurrent)).

Definition validateSlug (value : JsValue) (field : ManifestField)
  (path : JsString) (rules : list ManifestValidationRule)
  (fieldContext : FieldContext) : list ValidationIssue :=
  if negb (isObjectLike value) then
    [{| path := path;
        message := js "Expected slug object, got " ++ typeof value;
        severity := sev_error;
        rule := None;
        value := Some value;
        expected := Some (JStr (js "slug object with current property"));
        field := Some fieldContext;
        suggestions :=
          Some [js "Use format: { " ++ dq ++ js "current" ++ dq ++ js ": "
                  ++ dq ++ js "my-slug" ++ dq ++ js " }"] |}]
  else
    match get value (js "current") with
    | JStr ((_ :: _) as slugCurrent) =>
        if negb (matches slugPattern slugCurrent) then
          [{| path := path ++ js ".current";
              message := js "Slug contains invalid characters";
              severity := sev_warning;
              rule := None;
              value := Some (JStr slugCurrent);
              expected :=
                Some (JStr (js "lowercase letters, numbers, and hyphens only"));
              field := Some fieldContext;
              suggestions :=
                Some [js "Use: " ++ dq ++ slugSuggestion slugCurrent ++ dq] |}]
        else []
    | slugCurrent =>
        [{| path := path ++ js ".current";
            message := js "Slug is missing current value";
            severity := sev_error;
            rule := None;
            value := Some slugCurrent;
            expected := Some (JStr (js "string"));
            field := Some fieldContext;
            suggestions :=
              Some [js "Add " ++ dq ++ js "current" ++ dq ++ js ": " ++ dq
                      ++ js "url-friendly-slug" ++ dq] |}]
    end.

Definition validateUrl (value : JsValue) (path : JsString)
  (rules : list ManifestValidationRule) (fieldContext : FieldContext)
  : list ValidationIssue :=
  match value with
  | JStr s =>
      if negb (URL_parses h s) then
        [{| path := path;
            message := js "Invalid URL: " ++ dq ++ s ++ dq;
            severity := sev_error;
            rule := None;
            value := Some value;
            expected := Some (JStr (js "valid URL"));
            field := Some fieldContext;
            suggestions := Some [js "Use format: https://example.com/path"] |}]
      else []
  | _ =>
      [{| path := path;
          message := js "Expected URL string, got " ++ typeof value;
          severity := sev_error;
          rule := None;
          value := Some value;
          expected := Some (JStr (js "URL string"));
          field := Some fieldContext;
          suggestions := None |}]
  end.

(** The validator passes [typeMap] and [options] to this checker, which reads
    neither.  Reading [child['_type']] throws when [child] is undefined or
    null. *)
Definition validateBlock (value : JsValue) (field : ManifestField)
  (path : JsString) (typeMap : TypeMap) (options : ValidateOptions)
  (fieldContext : FieldContext) : Outcome (list ValidationIssue) :=
  if negb (isObjectLike value) then
    Returns
      [{| path := path;
          message := js "Expected block object, got " ++ typeof value;
          severity := sev_error;
          rule := None;
          value := Some value;
          expected := Some (JStr (js "portable text block"));
          field := Some fieldContext;
          suggestions := None |}]
  else
    let blockType := get value (js "_type") in
    let blockKey := get value (js "_key") in
    let blockChildren := get value (js "children") in
    let own :=
      (if negb (truthy blockType) then
         [{| path := path ++ js "._type";
             message := js "Block is missing _type";
             severity := sev_error;
             rule := None;
             value := None;
             expected := Some (JStr (js "block type"));
             field := Some fieldContext;
             suggestions := None |}]
       else [])
      ++
      (if negb (truthy blockKey) then
         [{| path := path ++ js "._key";
             message := js "Block is missing _key";
             severity := sev_warning;
             rule := None;
             value := None;
             expected := Some (JStr (js "unique key"));
             field := Some fieldContext;
             suggestions := None |}]
       else []) in
    match blockChildren with
    | JArr children =>
        ofChildren <-
          forEachIndexed 0 children (fun i child =>
            let childPath := path ++ js ".children[" ++ showNat i ++ js "]" in
            if isNullish child then Throws TypeError
            else
              let childType := get child (js "_type") in
              let childKey := get child (js "_key") in
              Returns
                ((if negb (truthy childType) then
                    [{| path := childPath ++ js "._type";
                        message := js "Block child is missing _type";
                        severity := sev_error;
                        rule := None;
                        value := None;
                        expected := Some (JStr (js "span or inline type"));
                        field := Some fieldContext;
                        suggestions := None |}]
                  else [])
                 ++
                 (if negb (truthy childKey) then
                    [{| path := childPath ++ js "._key";
                        message := js "Block child is missing _key";
                        severity := sev_warning;
                        rule := None;
                        value := None;
                        expected := Some (JStr (js "unique key"));
                        field := Some fieldContext;
                        suggestions := None |}]
                  else []))) ;;
        Returns (own ++ ofChildren)
    | _ => Returns own
    end.

(** The plural ending chosen by [n === 1 ? '' : 's'] *)
Definition plural (isOne : bool) : JsString := if isOne then [] else js "s".

(** The body of [case 'min'] *)
Definition applyMin (value : JsValue) (rule : ManifestValidationRule)
  (path : JsString) (fieldContext : FieldContext) : list ValidationIssue :=
  let min := constraintOf rule in
  match value with
  | JStr s =>
      let len := ofNat (List.length s) in
      if num_lt len (toNumber min) then
        let missing := num_sub (toNumber min) len in
        [{| path := path;
            message := js "Must be at least " ++ toStr min ++ js " characters";
            severity := sev_error;
            rule := Some rule;
            value := Some value;
            expected := Some (JStr (js "string with length >= " ++ toStr min));
            field := Some fieldContext;
            suggestions :=
              Some [js "Add " ++ Number_toString h missing ++ js " more character"
                      ++ plural (num_eq missing numOne)] |}]
      else []
  | JNum n =>
      if num_lt n (toNumber min) then
        [{| path := path;
            message := js "Must be at least " ++ toStr min;
            severity := sev_error;
            rule := Some rule;
            value := Some value;
            expected := Some (JStr (js "number >= " ++ toStr min));
            field := Some fieldContext;
            suggestions := None |}]
      else []
  | JArr items =>
      let len := ofNat (List.length items) in
      if num_lt len (toNumber min) then
        [{| path := path;
            message := js "Must have at least " ++ toStr min ++ js " item"
                         ++ plural (strictEqOne min);
            severity := sev_error;
            rule := Some rule;
            value := Some (JNum len);
            expected := Some (JStr (js "array with length >= " ++ toStr min));
            field := Some fieldContext;
            suggestions := None |}]
      else []
  | _ => []
  end.

(** The body of [case 'max'] *)
Definition applyMax (value : JsValue) (rule : ManifestValidationRule)
  (path : JsString) (fieldContext : FieldContext) : list ValidationIssue :=
  let max := constraintOf rule in
  match value with
  | JStr s =>
      let len := ofNat (List.length s) in
      if num_gt len (toNumber max) then
        let excess := num_sub len (toNumber max) in
        [{| path := path;
            message := js "Must be at most " ++ toStr max
                         ++ js " characters (currently "
                         ++ showNat (List.length s) ++ js ")";
            severity := sev_error;
            rule := Some rule;
            value := Some value;
            expected := Some (JStr (js "string with length <= " ++ toStr max));
            field := Some fieldContext;
            suggestions :=
              Some [js "Remove " ++ Number_toString h excess ++ js " character"
                      ++ plural (num_eq excess numOne)] |}]
      else []
  | JNum n =>
      if num_gt n (toNumber max) then
        [{| path := path;
            message := js "Must be at most " ++ toStr max;
            severity := sev_error;
            rule := Some rule;
            value := Some value;
            expected := Some (JStr (js "number <= " ++ toStr max));
            field := Some fieldContext;
            suggestions := None |}]
      else []
  | JArr items =>
      let len := ofNat (List.length items) in
      if num_gt len (toNumber max) then
        [{| path := path;
            message := js "Must have at most " ++ toStr max ++ js " item"
                         ++ plural (strictEqOne max) ++ js " (currently "
                         ++ showNat (List.length items) ++ js ")";
            severity := sev_error;
            rule := Some rule;
            value := Some (JNum len);
            expected := Some (JStr (js "array with length <= " ++ toStr max));
            field := Some fieldContext;
            suggestions := None |}]
      else []
  | _ => []
  end.

(** The body of [case 'length'].  Reading [constraint.min] throws when the rule
    has no constraint (or a null one) and the value is a string. *)
Definition applyLength (value : JsValue) (rule : ManifestValidationRule)
  (path : JsString) (fieldContext : FieldContext)
  : Outcome (list ValidationIssue) :=
  let constraint := constraintOf rule in
  match value with
  | JStr s =>
      if isNullish constraint then Throws TypeError
      else
        let len := ofNat (List.length s) in
        let cmin := get constraint (js "min") in
        let cmax := get constraint (js "max") in
        Returns
          ((if negb (isUndefined cmin) && num_lt len (toNumber cmin) then
              [{| path := path;
                  message := js "Must be at least " ++ toStr cmin
                               ++ js " characters";
                  severity := sev_error;
                  rule := Some rule;
                  value := Some value;
                  expected := None;
                  field := Some fieldContext;
                  suggestions := None |}]
            else [])
           ++
           (if negb (isUndefined cmax) && num_gt len (toNumber cmax) then
              [{| path := path;
                  message := js "Must be at most " ++ toStr cmax
                               ++ js " characters";
                  severity := sev_error;
                  rule := Some rule;
                  value := Some value;
                  expected := None;
                  field := Some fieldContext;
                  suggestions := None |}]
            else []))
  | _ => Returns []
  end.

(** The body of [case 'regex'].  [constraint.pattern] is read outside the
    [try] block; a pattern that does not compile is skipped. *)
Definition applyRegex (value : JsValue) (rule : ManifestValidationRule)
  (path : JsString) (fieldContext : FieldContext)
  : Outcome (list ValidationIssue) :=
  let constraint := constraintOf rule in
  match value with
  | JStr s =>
      if isNullish constraint then Throws TypeError
      else
        let pattern := get constraint (js "pattern") in
        let cname := get constraint (js "name") in
        if truthy pattern then
          match RegExp_test h (toStr pattern) s with
          | Some false =>
              Returns
                [{| path := path;
                    message :=
                      if truthy cname
                      then js "Does not match " ++ toStr cname ++ js " format"
                      else js "Does not match required pattern";
                    severity := sev_error;
                    rule := Some rule;
                    value := Some value;
                    expected := Some (if truthy cname then cname else pattern);
                    field := Some fieldContext;
                    suggestions := None |}]
          | Some true => Returns []
          | None => Returns []
          end
        else Returns []
  | _ => Returns []
  end.

(** One iteration of the loop of [applyValidationRules]: the [switch] on
    [rule.flag]. *)
Definition applyRule (value : JsValue) (path : JsString)
  (fieldContext : FieldContext) (rule : ManifestValidationRule)
  : Outcome (list ValidationIssue) :=
  let flagIs := str_eqb (flag rule) in
  if flagIs (js "min") then Returns (applyMin value rule path fieldContext)
  else if flagIs (js "max") then Returns (applyMax value rule path fieldContext)
  else if flagIs (js "length") then applyLength value rule path fieldContext
  else if flagIs (js "regex") then applyRegex value rule path fieldContext
  else if flagIs (js "email") then
    match value with
    | JStr s =>
        if negb (matches emailPattern s) then
          Returns
            [{| path := path;
                message := js "Invalid email address";
                severity := sev_error;
                rule := Some rule;
                value := Some value;
                expected := Some (JStr (js "valid email address"));
                field := Some fieldContext;
                suggestions := Some [js "Use format: user@example.com"] |}]
        else Returns []
    | _ => Returns []
    end
  else if flagIs (js "uri") then
    match value with
    | JStr s =>
        if negb (URL_parses h s) then
          Returns
            [{| path := path;
                message := js "Invalid URL";
                severity := sev_error;
                rule := Some rule;
                value := Some value;
                expected := Some (JStr (js "valid URL"));
                field := Some fieldContext;
                suggestions := None |}]
        else Returns []
    | _ => Returns []
    end
  else if flagIs (js "unique") then Returns []
  else if flagIs (js "custom") then
    Returns
      [{| path := path;
          message := js "Has custom validation that cannot be evaluated";
          severity := sev_info;
          rule := Some rule;
          value := None;
          expected := None;
          field := Some fieldContext;
          suggestions := None |}]
  else Returns [].

Definition applyValidationRules (value : JsValue)
  (rules : list ManifestValidationRule) (path : JsString)
  (field : ManifestField) (fieldContext : FieldContext)
  : Outcome (list ValidationIssue) :=
  forEach rules (applyRule value path fieldContext).

Definition fieldContextOf (field : ManifestField) : FieldContext :=
  {| fc_name := name field; fc_type := type field; fc_title := title field |}.

(** [rules.some((r) => r.flag === 'presence' && r.constraint === 'required')] *)
Definition isRequired (rules : list ManifestValidationRule) : bool :=
  existsb
    (fun r => str_eqb (flag r) (js "presence")
              && strictEqStr (constraintOf r) (js "required"))
    rules.

(** [field.title || field.name] *)
Definition titleOrName (field : ManifestField) : JsString :=
  match title field with
  | Some (c :: t) => c :: t
  | _ => name field
  end.

(** The issue pushed by the required check of [validateField]. *)
Definition requiredIssue (value : JsValue) (field : ManifestField)
  (path : JsString) : ValidationIssue :=
  {| path := path;
     message := titleOrName field ++ js " is required";
     severity := sev_error;
     rule :=
       Some {| flag := js "presence"; constraint := Some (JStr (js "required")) |};
     value := Some value;
     expected := Some (JStr (type field));
     field := Some (fieldContextOf field);
     suggestions := Some [js "Provide a value for " ++ name field] |}.

(** What [validateField(undefined, field, path, ...)] returns: the value of a
    call whose first argument is a property read that found nothing. *)
Definition validateFieldAbsent (field : ManifestField) (path : JsString)
  : Outcome (list ValidationIssue) :=
  if isRequired (getValidationRules field)
  then Returns [requiredIssue JUndefined field path]
  else Returns [].

Section Recursion.

(** The recursive call [validateField(v, f, p, typeMap, options)]. *)
Variable recur :
  JsValue -> ManifestField -> JsString -> Outcome (list ValidationIssue).

(** [validateField(container[f.name], f, p, typeMap, options)] *)
Definition validateProp (container : JsValue) (f : ManifestField)
  (p : JsString) : Outcome (list ValidationIssue) :=
  match container with
  | JObj props =>
      withProp props (name f) (fun v => recur v f p) (validateFieldAbsent f p)
  | _ => validateFieldAbsent f p
  end.

(** [memberTypes.map((m) => m['type'] || m.name).filter(Boolean)] *)
Definition allowedMemberTypes (memberTypes : list ManifestArrayMember)
  : list JsString :=
  flat_map
    (fun m =>
       match member_type m, member_name m with
       | c :: t, _ => [c :: t]
       | [], Some (c :: t) => [c :: t]
       | [], _ => []
       end)
    memberTypes.

Definition validateArray (value : JsValue) (field : ManifestField)
  (path : JsString) (typeMap : TypeMap) (options : ValidateOptions)
  (fieldContext : FieldContext) : Outcome (list ValidationIssue) :=
  match value with
  | JArr items =>
      let memberTypes := match of_ field with Some ms => ms | None => [] end in
      forEachIndexed 0 items (fun i item =>
        let itemPath := path ++ js "[" ++ showNat i ++ js "]" in
        let keyIssues :=
          if isObjectLike item && negb (hasKey item (js "_key")) then
            [{| path := itemPath;
                message := js "Array item is missing _key property";
                severity := sev_warning;
                rule := None;
                value := Some item;
                expected := Some (JStr (js "object with _key"));
                field := Some fieldContext;
                suggestions :=
                  Some [js "Add a unique " ++ dq ++ js "_key" ++ dq
                          ++ js " property to this item"] |}]
          else [] in
        typeIssues <-
          (if isObjectLike item && hasKey item (js "_type") then
             let itemType := get item (js "_type") in
             match
               find (fun m => strictEqStr itemType (member_type m)
                              || strictEqOptStr itemType (member_name m))
                    memberTypes
             with
             | None =>
                 let allowedTypes := allowedMemberTypes memberTypes in
                 Returns
                   [{| path := itemPath ++ js "._type";
                       message := js "Type " ++ dq ++ toStr itemType ++ dq
                                    ++ js " is not allowed in this array";
                       severity := sev_error;
                       rule := None;
                       value := Some itemType;
                       expected :=
                         Some (JStr (js "one of: " ++ join (js ", ") allowedTypes));
                       field := Some fieldContext;
                       suggestions :=
                         Some (map (fun t => js "Change _type to " ++ dq ++ t ++ dq)
                                   allowedTypes) |}]
             | Some memberType =>
                 match
                   match TypeMap_get typeMap itemType with
                   | Some memberTypeDef => fields memberTypeDef
                   | None => member_fields memberType
                   end
                 with
                 | Some memberFields =>
                     forEach memberFields (fun f =>
                       validateProp item f (itemPath ++ js "." ++ name f))
                 | None => Returns []
                 end
             end
           else
             match memberTypes with
             | m :: _ =>
                 let expectedType := member_type m in
                 if truthy (JStr expectedType)
                    && negb (str_eqb (typeof item) expectedType) then
                   Returns
                     [{| path := itemPath;
                         message := js "Expected " ++ expectedType ++ js ", got "
                                      ++ typeof item;
                         severity := sev_error;
                         rule := None;
                         value := Some item;
                         expected := Some (JStr expectedType);
                         field := Some fieldContext;
                         suggestions := None |}]
                 else Returns []
             | [] => Returns []
             end) ;;
        Returns (keyIssues ++ typeIssues))
  | _ =>
      Returns
        [{| path := path;
            message := js "Expected array, got " ++ typeof value;
            severity := sev_error;
            rule := None;
            value := Some value;
            expected := Some (JStr (js "array"));
            field := Some fieldContext;
            suggestions :=
              Some [js "Wrap the value in an array: [" ++ JSON_stringify h value
                      ++ js "]"] |}]
  end.

Definition validateObject (value : JsValue) (field : ManifestSchemaType)
  (path : JsString) (typeMap : TypeMap) (options : ValidateOptions)
  (fieldContext : FieldContext) : Outcome (list ValidationIssue) :=
  match value with
  | JObj _ =>
      match fields field with
      | Some fs =>
          forEach fs (fun f => validateProp value f (path ++ js "." ++ name f))
      | None => Returns []
      end
  | _ =>
      Returns
        [{| path := path;
            message :=
              js "Expected object, got "
              ++ match value with
                 | JArr _ => js "array"
                 | _ => typeof value
                 end;
            severity := sev_error;
            rule := None;
            value := Some value;
            expected := Some (JStr (js "object"));
            field := Some fieldContext;
            suggestions := None |}]
  end.

Definition validateAsset (value : JsValue) (field : ManifestField)
  (path : JsString) (typeMap : TypeMap) (options : ValidateOptions)
  (fieldContext : FieldContext) : Outcome (list ValidationIssue) :=
  if negb (isObjectLike value) then
    Returns
      [{| path := path;
          message := js "Expected " ++ type field ++ js " object, got "
                       ++ typeof value;
          severity := sev_error;
          rule := None;
          value := Some value;
          expected := Some (JStr (type field ++ js " object with asset reference"));
          field := Some fieldContext;
          suggestions :=
            Some [js "Use format: { " ++ dq ++ js "asset" ++ dq ++ js ": { "
                    ++ dq ++ js "_ref" ++ dq ++ js ": " ++ dq ++ js "image-..."
                    ++ dq ++ js " } }"] |}]
  else
    let assetValue := get value (js "asset") in
    let assetIssues :=
      if negb (truthy assetValue) then
        [{| path := path ++ js ".asset";
            message :=
              (if str_eqb (type field) (js "image") then js "Image" else js "File")
              ++ js " is missing asset reference";
            severity := sev_error;
            rule := None;
            value := None;
            expected := Some (JStr (js "asset reference object"));
            field := Some fieldContext;
            suggestions :=
              Some [js "Add " ++ dq ++ js "asset" ++ dq ++ js ": { " ++ dq
                      ++ js "_ref" ++ dq ++ js ": " ++ dq ++ type field
                      ++ js "-..." ++ dq ++ js " }"] |}]
      else if isObjectLike assetValue then
        if notNonEmptyString (get assetValue (js "_ref")) then
          [{| path := path ++ js ".asset._ref";
              message := js "Asset is missing _ref property";
              severity := sev_error;
              rule := None;
              value := None;
              expected := Some (JStr (js "asset ID string"));
              field := Some fieldContext;
              suggestions := None |}]
        else []
      else [] in
    match fields field with
    | Some fs =>
        nested <-
          forEach fs (fun f => validateProp value f (path ++ js "." ++ name f)) ;;
        Returns (assetIssues ++ nested)
    | None => Returns assetIssues
    end.

(** The body of [validateField]. *)
Definition validateFieldBody (value : JsValue) (field : ManifestField)
  (path : JsString) (typeMap : TypeMap) (options : ValidateOptions)
  : Outcome (list ValidationIssue) :=
  let fieldContext := fieldContextOf field in
  let rules := getValidationRules field in
  if isRequired rules && isNullish value then
    Returns [requiredIssue value field path]
  else if isNullish value then Returns []
  else
    let kind := str_eqb (type field) in
    structural <-
      (if kind (js "string") || kind (js "text") then
         validateString value field path rules fieldContext
       else if kind (js "number") then
         Returns (validateNumber value field path rules fieldContext)
       else if kind (js "boolean") then
         Returns (validateBoolean value path fieldContext)
       else if kind (js "date") || kind (js "datetime") then
         Returns (validateDate value field path fieldContext)
       else if kind (js "array") then
         validateArray value field path typeMap options fieldContext
       else if kind (js "object") then
         validateObject value field path typeMap options fieldContext
       else if kind (js "reference") then
         Returns (validateReference value field path fieldContext)
       else if kind (js "image") || kind (js "file") then
         validateAsset value field path typeMap options fieldContext
       else if kind (js "slug") then
         Returns (validateSlug value field path rules fieldContext)
       else if kind (js "url") then
         Returns (validateUrl value path rules fieldContext)
       else if kind (js "block") then
         validateBlock value field path typeMap options fieldContext
       else
         match Map_get typeMap (type field) with
         | Some customType =>
             if str_eqb (type customType) (js "object") then
               match fields customType with
               | Some _ =>
                   validateObject value customType path typeMap options
                     fieldContext
               | None => Returns []
               end
             else Returns []
         | None => Returns []
         end) ;;
    ofRules <- applyValidationRules value rules path field fieldContext ;;
    Returns (structural ++ ofRules).

End Recursion.

(** [validateField]: every recursive call receives a property value of
    [value], which is why the recursion is structural on [value]. *)
Fixpoint validateField (value : JsValue) (field : ManifestField)
  (path : JsString) (typeMap : TypeMap) (options : ValidateOptions)
  {struct value} : Outcome (list ValidationIssue) :=
  validateFieldBody (fun v f p => validateField v f p typeMap options)
    value field path typeMap options.

(** The check of [document['_type']] that opens [validateDocument]. *)
Definition checkDocType (docType : JsValue) (schemaType : ManifestSchemaType)
  : list ValidationIssue :=
  if negb (truthy docType) then
    [{| path := js "_type";
        message := js "Document is missing required _type field";
        severity := sev_error;
        rule := None;
        value := None;
        expected := Some (JStr (name schemaType));
        field := None;
        suggestions :=
          Some [js "Add " ++ dq ++ js "_type" ++ dq ++ js ": " ++ dq
                  ++ name schemaType ++ dq ++ js " to the document"] |}]
  else if negb (strictEqStr docType (name schemaType)) then
    [{| path := js "_type";
        message := js "Document type " ++ dq ++ toStr docType ++ dq
                     ++ js " does not match expected type " ++ dq
                     ++ name schemaType ++ dq;
        severity := sev_error;
        rule := None;
        value := Some docType;
        expected := Some (JStr (name schemaType));
        field := None;
        suggestions :=
          Some [js "Change _type to " ++ dq ++ name schemaType ++ dq
                  ++ js " or use the correct schema type for validation"] |}]
  else [].

(** The loop over [schemaType.fields]; [issues] is the array the loop pushes
    to and inspects for the early [break]. *)
Definition validateRootFields (document : list (JsString * JsValue))
  (rootFields : list ManifestField) (typeMap : TypeMap)
  (options : ValidateOptions) (stopOnFirstError : bool)
  (issues : list ValidationIssue) : Outcome (list ValidationIssue) :=
  (fix loop (fs : list ManifestField) (issues : list ValidationIssue)
     : Outcome (list ValidationIssue) :=
     match fs with
     | [] => Returns issues
     | field :: rest =>
         if stopOnFirstError && existsb isError issues then Returns issues
         else
           fieldIssues <-
             validateField (getProp document (name field)) field (name field)
               typeMap options ;;
           loop rest (issues ++ fieldIssues)
     end) rootFields issues.

(** The contents of [issues] when the filtering by severity starts. *)
Definition collectIssues (document : list (JsString * JsValue))
  (schemaType : ManifestSchemaType) (allTypes : list ManifestSchemaType)
  (options : ValidateOptions) : Outcome (list ValidationIssue) :=
  let stopOnFirstError := withDefault (stopOnFirstError options) false in
  let typeMap := Map_new (map (fun t => (name t, t)) allTypes) in
  let issues := checkDocType (getProp document (js "_type")) schemaType in
  match fields schemaType with
  | Some rootFields =>
      validateRootFields document rootFields typeMap options stopOnFirstError
        issues
  | None => Returns issues
  end.

(** [`${n} ${word}${n === 1 ? '' : 's'}`] *)
Definition counted (n : nat) (word : JsString) : JsString :=
  showNat n ++ js " " ++ word ++ plural (Nat.eqb n 1).

(** The part of [validateDocument] that follows the loop. *)
Definition buildResult (schemaType : ManifestSchemaType)
  (options : ValidateOptions) (issues : list ValidationIssue)
  : ValidationResult :=
  let includeWarnings := withDefault (includeWarnings options) true in
  let includeInfo := withDefault (includeInfo options) false in
  let errors := filter isError issues in
  let warnings := if includeWarnings then filter isWarning issues else [] in
  let info := if includeInfo then filter isInfo issues else [] in
  let filteredIssues :=
    errors ++ (if includeWarnings then warnings else [])
           ++ (if includeInfo then info else []) in
  let parts :=
    (if 0 <? List.length errors
     then [counted (List.length errors) (js "error")] else [])
    ++ (if 0 <? List.length warnings
        then [counted (List.length warnings) (js "warning")] else [])
    ++ (if 0 <? List.length info
        then [showNat (List.length info) ++ js " info"] else []) in
  let summary :=
    if Nat.eqb (List.length errors) 0 then
      js "Document is valid"
      ++ (if 0 <? List.length warnings
          then js " (" ++ counted (List.length warnings) (js "warning") ++ js ")"
          else [])
    else js "Validation failed: " ++ join (js ", ") parts in
  {| valid := Nat.eqb (List.length errors) 0;
     issues := filteredIssues;
     errors := errors;
     warnings := warnings;
     info := info;
     documentType := name schemaType;
     summary := summary |}.

Definition validateDocument (document : list (JsString * JsValue))
  (schemaType : ManifestSchemaType) (allTypes : list ManifestSchemaType)
  (options : ValidateOptions) : Outcome ValidationResult :=
  issues <- collectIssues document schemaType allTypes options ;;
  Returns (buildResult schemaType options issues).

End Validator.

(** The empty options object, which is also the default of the parameter. *)
Definition noOptions : ValidateOptions :=
  {| includeWarnings := None; includeInfo := None; stopOnFirstError := None;
     resolveReference := None |}.

(* ------------------------------------------------------------------ *)
(** ** Formatters *)

(** [suggestions?.[0]] *)
Definition firstSuggestion (i : ValidationIssue) : option JsString :=
  match suggestions i with
  | Some (s :: _) => Some s
  | _ => None
  end.

Definition formatValidationIssues (result : ValidationResult) : JsString :=
  let lines :=
    [summary result; []]
    ++ flat_map
         (fun issue =>
            let icon :=
              match severity issue with
              | sev_error => [10007%N]
              | sev_warning => [9888%N]
              | sev_info => [8505%N]
              end in
            (icon ++ js " " ++ path issue ++ js ": " ++ message issue)
            :: match firstSuggestion issue with
               | Some s => [js "  " ++ [8594%N] ++ js " " ++ s]
               | None => []
               end)
         (issues result) in
  join [10%N] lines.

Module Agent.

(** An entry of [errors] in the object built by [formatValidationForAgent];
    [suggestion] and [expected] are always set, possibly to undefined
    ([None]). *)
Record Entry : Type := {
  path : JsString;
  message : JsString;
  suggestion : option JsString;
  expected : option JsValue
}.

Record Report : Type := {
  valid : bool;
  summary : JsString;
  errorCount : nat;
  errors : list Entry
}.

End Agent.

Definition formatValidationForAgent (result : ValidationResult) : Agent.Report :=
  {| Agent.valid := valid result;
     Agent.summary := summary result;
     Agent.errorCount := List.length (errors result);
     Agent.errors :=
       map (fun e =>
              {| Agent.path := path e;
                 Agent.message := message e;
                 Agent.suggestion := firstSuggestion e;
                 Agent.expected := expected e |})
           (errors result) |}.

(* ------------------------------------------------------------------ *)
(** ** A host for the examples

    Exact on what the examples use (integral numbers, ASCII letters) and a
    placeholder elsewhere: the theorems below quantify over every [Host]. *)

Module ExampleHost.

Definition showZ (z : Z) : JsString :=
  match z with
  | Zneg p => js "-" ++ showNat (Pos.to_nat p)
  | _ => showNat (Z.to_nat z)
  end.

Definition numberToString (x : JsNumber) : JsString :=
  match x with
  | S754_nan => js "NaN"
  | S754_infinity false => js "Infinity"
  | S754_infinity true => js "-Infinity"
  | S754_zero _ => js "0"
  | S754_finite s m e =>
      if Number_isInteger x
      then showZ ((if s then -1 else 1)
                  * (if (0 <=? e)%Z then Zpos m * 2 ^ e else Zpos m / 2 ^ (- e)))
      else js "?"
  end.

Definition digitValue (c : N) : option nat :=
  if inRange "0" "9" c then Some (N.to_nat (c - code "0")) else None.

Definition stringToNumber (s : JsString) : JsNumber :=
  match s with
  | [] => numZero
  | _ =>
      match
        fold_left
          (fun acc c =>
             match acc, digitValue c with
             | Some n, Some d => Some (10 * n + d)
             | _, _ => None
             end)
          s (Some 0)
      with
      | Some n => ofNat n
      | None => numNaN
      end
  end.

Definition toLowerCase (s : JsString) : JsString :=
  map (fun c => if inRange "A" "Z" c then (c + 32)%N else c) s.

Definition host : Host :=
  {| Number_toString := numberToString;
     String_toNumber := stringToNumber;
     Math_round := fun x => x;
     Date_isValid := fun s => Nat.eqb (List.length s) 10;
     URL_parses := fun s => startsWith s (js "https://");
     RegExp_test := fun _ _ => None;
     String_toLowerCase := toLowerCase;
     JSON_stringify := fun v =>
       match v with
       | JStr s => dq ++ s ++ dq
       | _ => js "?"
       end |}.

End ExampleHost.

(* ------------------------------------------------------------------ *)
(** ** The schema of src/validation.test.ts *)

Module Fixture.

#[local] Open Scope string_scope.

Definition rule (f : string) (c : option JsValue) : ManifestValidationRule :=
  {| flag := js f; constraint := c |}.

Definition group (rs : list ManifestValidationRule) : ManifestValidationGroup :=
  {| rules := rs; group_message := None; level := None |}.

Definition required : ManifestValidationRule :=
  rule "presence" (Some (JStr (js "required"))).

Definition num (n : nat) : JsValue := JNum (ofNat n).
Definition str (s : string) : JsValue := JStr (js s).
Definition obj (kvs : list (string * JsValue)) : JsValue :=
  JObj (map (fun kv => (js (fst kv), snd kv)) kvs).
Definition doc (kvs : list (string * JsValue)) : list (JsString * JsValue) :=
  map (fun kv => (js (fst kv), snd kv)) kvs.

Definition fieldOf (ty nm ttl : string)
  (validation : list ManifestValidationRule) : ManifestField :=
  {| type := js ty; name := js nm; title := Some (js ttl); fields := None;
     of_ := None; to := None;
     validation :=
       match validation with
       | [] => None
       | _ => Some [group validation]
       end;
     options := None |}.

Definition member (ty : string) : ManifestArrayMember :=
  {| member_type := js ty; member_name := None; member_fields := None |}.

Definition articleType : ManifestSchemaType :=
  {| type := js "document"; name := js "article"; title := Some (js "Article");
     fields := Some
       [ fieldOf "string" "title" "Title"
           [required; rule "max" (Some (num 100))];
         fieldOf "text" "description" "Description"
           [rule "min" (Some (num 10)); rule "max" (Some (num 500))];
         fieldOf "slug" "slug" "Slug" [required];
         fieldOf "number" "rating" "Rating"
           [rule "min" (Some (num 1)); rule "max" (Some (num 5))];
         {| type := js "string"; name := js "status"; title := Some (js "Status");
            fields := None; of_ := None; to := None; validation := None;
            options := Some
              [(js "list",
                JArr [obj [("title", str "Draft"); ("value", str "draft")];
                      obj [("title", str "Published"); ("value", str "published")]])] |};
         fieldOf "string" "email" "Email" [rule "email" None];
         {| type := js "reference"; name := js "author"; title := Some (js "Author");
            fields := None; of_ := None;
            to := Some [member "author"; member "person"];
            validation := None; options := None |};
         {| type := js "array"; name := js "tags"; title := Some (js "Tags");
            fields := None; of_ := Some [member "string"]; to := None;
            validation := Some [group [rule "min" (Some (num 1))]];
            options := None |};
         {| type := js "image"; name := js "mainImage";
            title := Some (js "Main Image");
            fields := Some [fieldOf "string" "alt" "Alt Text" [required]];
            of_ := None; to := None; validation := None; options := None |} ];
     of_ := None; to := None; validation := None; options := None |}.

Definition allTypes : list ManifestSchemaType := [articleType].

Definition run (d : list (string * JsValue)) : Outcome ValidationResult :=
  validateDocument ExampleHost.host (doc d) articleType allTypes noOptions.

(** What a test inspects: [valid], and path, severity and message of each
    issue. *)
Definition observed (o : Outcome ValidationResult)
  : option (bool * list (JsString * ValidationSeverity * JsString)) :=
  match o with
  | Returns r =>
      Some (valid r, map (fun i => (path i, severity i, message i)) (issues r))
  | Throws _ => None
  end.

End Fixture.

(* ------------------------------------------------------------------ *)
(** ** Documents used by the statements *)

Module BlockDocument.

#[local] Open Scope string_scope.

(** A root type with one field of kind [block]. *)
Definition pageType : ManifestSchemaType :=
  {| type := js "document"; name := js "page"; title := None;
     fields := Some
       [{| type := js "block"; name := js "body"; title := None;
           fields := None; of_ := None; to := None; validation := None;
           options := None |}];
     of_ := None; to := None; validation := None; options := None |}.

(** [{ _type: 'page', body: { _type: 'block', _key: 'b1', children: [null] } }] *)
Definition page : list (JsString * JsValue) :=
  Fixture.doc
    [("_type", Fixture.str "page");
     ("body",
      Fixture.obj
        [("_type", Fixture.str "block"); ("_key", Fixture.str "b1");
         ("children", JArr [JNull])])].

(** The same content as the single element of an array field. *)
Definition listType : ManifestSchemaType :=
  {| type := js "document"; name := js "page"; title := None;
     fields := Some
       [{| type := js "array"; name := js "body"; title := None;
           fields := None; of_ := Some [Fixture.member "block"]; to := None;
           validation := None; options := None |}];
     of_ := None; to := None; validation := None; options := None |}.

Definition listPage : list (JsString * JsValue) :=
  Fixture.doc [("_type", Fixture.str "page"); ("body", JArr [JNull])].

End BlockDocument.

(* ------------------------------------------------------------------ *)
(** ** Notions used by the statements *)

(** [c] is an element of the array, or a property value of the object,
    [container]. *)
Definition child (c container : JsValue) : Prop :=
  match container with
  | JArr items => In c items
  | JObj props => exists k, In (k, c) props
  | _ => False
  end.

(** Two candidates for the recursive call give the same outcome on [c]. *)
Definition agreeOn
  (recur1 recur2 :
     JsValue -> ManifestField -> JsString -> Outcome (list ValidationIssue))
  (c : JsValue) : Prop :=
  forall f p, recur1 c f p = recur2 c f p.

(** What the loop over the fields of the root type pushes when it never
    breaks: the issues of every declared field, in declaration order. *)
Definition validateAllFields (h : Host) (document : list (JsString * JsValue))
  (typeMap : TypeMap) (rootFields : list ManifestField)
  (options : ValidateOptions) : Outcome (list ValidationIssue) :=
  forEach rootFields (fun f =>
    validateField h (getProp document (name f)) f (name f) typeMap options).

(** [opts] with other values of [includeWarnings] and [includeInfo]. *)
Definition withInclusion (opts : ValidateOptions) (iw ii : option bool)
  : ValidateOptions :=
  {| includeWarnings := iw;
     includeInfo := ii;
     stopOnFirstError := stopOnFirstError opts;
     resolveReference := resolveReference opts |}.

(** An error at path [_type] whose message speaks of the mismatch, as the
    test 'reports wrong _type' looks for it. *)
Definition mismatchReported (r : ValidationResult) : Prop :=
  exists e, In e (errors r)
            /\ path e = js "_type"
            /\ includes (message e) (js "does not match") = true.

(** The entry that the report is to hold for an issue: its path, message and
    expected shape, and the first of its suggestions. *)
Definition entryOf (i : ValidationIssue) : Agent.Entry :=
  {| Agent.path := path i;
     Agent.message := message i;
     Agent.suggestion :=
       match suggestions i with
       | Some l => hd_error l
       | None => None
       end;
     Agent.expected := expected i |}.

(** A number other than NaN, which is what the first test of
    [validateNumber] lets through. *)
Definition isNumberNotNaN (v : JsValue) : bool :=
  match v with
  | JNum n => negb (Number_isNaN n)
  | _ => false
  end.

(** A finite number: neither NaN nor an infinity. *)
Definition isFiniteNumber (v : JsValue) : bool :=
  match v with
  | JNum (S754_zero _) | JNum (S754_finite _ _ _) => true
  | _ => false
  end.

(** The value [m * 2^e] of a finite number is not an integer. *)
Definition hasFractionalPart (x : JsNumber) : Prop :=
  match x with
  | S754_finite _ m e => (e < 0)%Z /\ ~ (2 ^ (- e) | Zpos m)%Z
  | _ => False
  end.

Definition hasRule (flagName : JsString) (rules : list ManifestValidationRule)
  : Prop :=
  exists r, In r rules /\ flag r = flagName.

(** The normalized slug, step by step as the specification words it: the
    value lowercased; every code unit outside [[a-z0-9]] taken for a hyphen
    and a run of hyphens for one; the hyphens that lead and that trail
    removed. *)
Definition hyphenate (s : JsString) : JsString :=
  map (fun c => if isSlugAlnum c then c else code "-") s.

Fixpoint squeezeHyphens (s : JsString) : JsString :=
  match s with
  | c :: ((d :: _) as rest) =>
      if isHyphen c && isHyphen d then squeezeHyphens rest
      else c :: squeezeHyphens rest
  | _ => s
  end.

Fixpoint dropLeadingHyphens (s : JsString) : JsString :=
  match s with
  | c :: s' => if isHyphen c then dropLeadingHyphens s' else s
  | [] => []
  end.

Definition dropTrailingHyphens (s : JsString) : JsString :=
  fold_right
    (fun c kept =>
       match kept with
       | [] => if isHyphen c then [] else [c]
       | _ => c :: kept
       end)
    [] s.

Definition normalizedSlug (h : Host) (s : JsString) : JsString :=
  dropTrailingHyphens
    (dropLeadingHyphens (squeezeHyphens (hyphenate (String_toLowerCase h s)))).

(** No two hyphens in a row. *)
Fixpoint noDoubleHyphen (s : JsString) : bool :=
  match s with
  | c :: ((d :: _) as rest) =>
      negb (isHyphen c && isHyphen d) && noDoubleHyphen rest
  | _ => true
  end.

(** [c] belongs to one of the classes of [r]. *)
Fixpoint allows (r : Re) (c : N) : bool :=
  match r with
  | ReVoid | ReEps => false
  | ReClass p => p c
  | ReSeq r1 r2 | ReAlt r1 r2 => allows r1 c || allows r2 c
  | ReStar r1 => allows r1 c
  end.

(** [r] matches no string, for a reason visible in its shape. *)
Fixpoint void (r : Re) : bool :=
  match r with
  | ReVoid => true
  | ReSeq r1 r2 => void r1 || void r2
  | ReAlt r1 r2 => void r1 && void r2
  | ReEps | ReClass _ | ReStar _ => false
  end.

(* ------------------------------------------------------------------ *)
(** ** Introspection helpers (src/helpers.ts)

    The helpers below read properties that the schema model carries. *)

Definition isDocumentType (t : ManifestSchemaType) : bool :=
  str_eqb (type t) (js "document").

Definition isObjectType (t : ManifestSchemaType) : bool :=
  str_eqb (type t) (js "object").

(** [a === b].  The model has values, not references: an object or an array
    handed in by a caller is taken to be distinct from every object of the
    schema, so it is equal to none. *)
Definition strictEq (a b : JsValue) : bool :=
  match a, b with
  | JUndefined, JUndefined => true
  | JNull, JNull => true
  | JBool x, JBool y => Bool.eqb x y
  | JNum x, JNum y => num_eq x y
  | JStr x, JStr y => str_eqb x y
  | _, _ => false
  end.

(** [hasValidationRule(field, flag, constraint)]; an omitted [constraint] is
    undefined. *)
Definition hasValidationRule (field : ManifestSchemaType) (flagName : JsString)
  (constraint : JsValue) : bool :=
  existsb
    (fun rule =>
       if negb (str_eqb (flag rule) flagName) then false
       else if negb (isUndefined constraint)
               && negb (strictEq (constraintOf rule) constraint) then false
       else true)
    (getValidationRules field).

Definition isFieldRequired (field : ManifestSchemaType) : bool :=
  hasValidationRule field (js "presence") (JStr (js "required")).

Definition getFieldByName (t : ManifestSchemaType) (fieldName : JsString)
  : option ManifestField :=
  match fields t with
  | Some fs => find (fun f => str_eqb (name f) fieldName) fs
  | None => None
  end.

Definition getRequiredFields (t : ManifestSchemaType) : list ManifestField :=
  match fields t with
  | Some fs => filter isFieldRequired fs
  | None => []
  end.

Definition getValidationRulesByFlag (field : ManifestSchemaType)
  (flagName : JsString) : list ManifestValidationRule :=
  filter (fun r => str_eqb (flag r) flagName) (getValidationRules field).

(** The constraint of the first rule with the flag, when it is a number. *)
Definition numericConstraint (field : ManifestSchemaType) (flagName : JsString)
  : option JsNumber :=
  match find (fun r => str_eqb (flag r) flagName) (getValidationRules field) with
  | Some rule =>
      match constraint rule with
      | Some (JNum n) => Some n
      | _ => None
      end
  | None => None
  end.

Definition getMinConstraint (field : ManifestSchemaType) : option JsNumber :=
  numericConstraint field (js "min").

Definition getMaxConstraint (field : ManifestSchemaType) : option JsNumber :=
  numericConstraint field (js "max").

(** The [type] of a member is a string in the model, so the filter
    [typeof t === 'string'] keeps every entry. *)
Definition getReferenceTargetTypes (field : ManifestSchemaType)
  : list JsString :=
  match to field with
  | Some targets => map member_type targets
  | None => []
  end.

Definition canReferenceType (field : ManifestSchemaType) (typeName : JsString)
  : bool :=
  existsb (fun t => str_eqb t typeName) (getReferenceTargetTypes field).

Definition getArrayMemberTypes (field : ManifestSchemaType) : list JsString :=
  match of_ field with
  | Some members => map member_type members
  | None => []
  end.

Definition canContainType (field : ManifestSchemaType) (typeName : JsString)
  : bool :=
  existsb (fun t => str_eqb t typeName) (getArrayMemberTypes field).

(** [field.options?.['list']] when it is an array *)
Definition getListOptions (field : ManifestSchemaType) : option (list JsValue) :=
  match
    match options field with
    | Some opts => getProp opts (js "list")
    | None => JUndefined
    end
  with
  | JArr items => Some items
  | _ => None
  end.

Definition hasListOptions (field : ManifestSchemaType) : bool :=
  match getListOptions field with
  | Some _ => true
  | None => false
  end.

Definition findTypes (types : list ManifestSchemaType)
  (predicate : ManifestSchemaType -> bool) : list ManifestSchemaType :=
  filter predicate types.

Definition findTypeByName (types : list ManifestSchemaType)
  (typeName : JsString) : option ManifestSchemaType :=
  find (fun t => str_eqb (name t) typeName) types.


(* ------------------------------------------------------------------ *)
(** ** Notions used by the further statements *)

(** The issue [i] is located at [p] or below it. *)
Definition under (p : JsString) (i : ValidationIssue) : Prop :=
  exists suffix, path i = p ++ suffix.


(** Every issue that the call [recur c g q] returns is located at [q] or
    below it. *)
Definition locates
  (recur : JsValue -> ManifestField -> JsString
           -> Outcome (list ValidationIssue))
  (c : JsValue) : Prop :=
  forall g q out, recur c g q = Returns out -> Forall (under q) out.


(** [typeof item === 'object' ? item.value : item], for an [item] other than
    null. *)
Definition optionValue (item : JsValue) : JsValue :=
  match item with
  | JArr _ | JObj _ => get item (js "value")
  | _ => item
  end.


(** Every string that [r] matches holds the code unit [c]: some part of [r]
    that no match can skip is a class with [c] as its only element. *)
Inductive Needs (c : N) : Re -> Prop :=
| Needs_void : Needs c ReVoid
| Needs_class (p : N -> bool) :
    (forall d, p d = true -> d = c) -> Needs c (ReClass p)
| Needs_seq_l (r1 r2 : Re) : Needs c r1 -> Needs c (ReSeq r1 r2)
| Needs_seq_r (r1 r2 : Re) : Needs c r2 -> Needs c (ReSeq r1 r2)
| Needs_alt (r1 r2 : Re) : Needs c r1 -> Needs c r2 -> Needs c (ReAlt r1 r2).






(* ------------------------------------------------------------------ *)
(** ** Inputs on which no property of null or undefined is read *)

(** Every [length] and [regex] rule carries a constraint: [applyRule] reads
    [constraint.min] and [constraint.pattern] without a test. *)
Definition rulesHaveConstraints (rules : list ManifestValidationRule) : bool :=
  forallb
    (fun r =>
       if str_eqb (flag r) (js "length") || str_eqb (flag r) (js "regex")
       then negb (isNullish (constraintOf r))
       else true)
    rules.

(** No entry of [options.list] is null: [validateString] reads [item.value]
    of every entry whose [typeof] is ['object']. *)
Definition listEntriesPresent (field : ManifestSchemaType) : bool :=
  match getListOptions field with
  | Some items =>
      forallb (fun item => match item with JNull => false | _ => true end) items
  | None => true
  end.

(** The two conditions above, for a type, its fields, and the fields of the
    members of [of], at any depth. *)
Fixpoint readableType (t : ManifestSchemaType) : bool :=
  rulesHaveConstraints (getValidationRules t)
  && listEntriesPresent t
  && match t with
     | mkSchemaType _ _ _ fs ms _ _ _ =>
         match fs with
         | Some l => forallb readableType l
         | None => true
         end
         && match ms with
            | Some l => forallb readableMember l
            | None => true
            end
     end
with readableMember (m : ManifestArrayMember) : bool :=
  match m with
  | mkMember _ _ fs =>
      match fs with
      | Some l => forallb readableType l
      | None => true
      end
  end.

(** No array stored under the key [children] of an object holds null or
    undefined, at any depth of the value: [validateBlock] reads [_type] of
    every element of [children]. *)
Fixpoint childrenPresent (v : JsValue) : bool :=
  match v with
  | JArr items => forallb childrenPresent items
  | JObj props =>
      match get v (js "children") with
      | JArr cs => forallb (fun c => negb (isNullish c)) cs
      | _ => true
      end
      && forallb (fun kv => childrenPresent (snd kv)) props
  | _ => true
  end.

(** The call [recur c g q] returns for every readable field [g], when [c]
    has its block children present. *)
Definition answers
  (recur : JsValue -> ManifestField -> JsString
           -> Outcome (list ValidationIssue))
  (c : JsValue) : Prop :=
  childrenPresent c = true ->
  forall g q, readableType g = true -> exists out, recur c g q = Returns out.








(* ------------------------------------------------------------------ *)
(** ** The shape that each built-in kind expects *)

Definition isStringValue (v : JsValue) : bool :=
  match v with
  | JStr _ => true
  | _ => false
  end.

Definition isBooleanValue (v : JsValue) : bool :=
  match v with
  | JBool _ => true
  | _ => false
  end.

Definition isArrayValue (v : JsValue) : bool :=
  match v with
  | JArr _ => true
  | _ => false
  end.

Definition isPlainObject (v : JsValue) : bool :=
  match v with
  | JObj _ => true
  | _ => false
  end.

(** The test that opens the function that [validateField] selects for the
    kind, in the order of its [switch]; [None] for a kind that is not built
    in. *)
Definition expectedShape (kind : JsString) : option (JsValue -> bool) :=
  let k := str_eqb kind in
  if k (js "string") || k (js "text") then Some isStringValue
  else if k (js "number") then Some isNumberNotNaN
  else if k (js "boolean") then Some isBooleanValue
  else if k (js "date") || k (js "datetime") then Some isStringValue
  else if k (js "array") then Some isArrayValue
  else if k (js "object") then Some isPlainObject
  else if k (js "reference") then Some isObjectLike
  else if k (js "image") || k (js "file") then Some isObjectLike
  else if k (js "slug") then Some isObjectLike
  else if k (js "url") then Some isStringValue
  else if k (js "block") then Some isObjectLike
  else None.


(** src/helpers.ts, [isPrimitiveType] *)
Definition isPrimitiveType (t : ManifestSchemaType) : bool :=
  existsb (fun p => str_eqb p (type t))
    [js "string"; js "number"; js "boolean"; js "date"; js "datetime";
     js "text"; js "url"; js "slug"; js "email"].


(* ------------------------------------------------------------------ *)
(** ** The schema as the traversal helpers read it (src/helpers.ts)

    [walkSchemaTypes] and [getReferencedTypeNames] descend into a member of
    [of] as into any other type, and read [of], [to] and [fields] of it; the
    record [ManifestArrayMember] keeps of a member only what the validator
    reads.  A [SchemaNode] carries the properties that the helpers below
    read, for a type, a field and a member alike; [node_name] is optional, as
    the name of a member is. *)

#[local] Unset Elimination Schemes.

Inductive SchemaNode : Type := mkNode {
  node_type : JsString;
  node_name : option JsString;
  node_title : option JsString;
  node_fields : option (list SchemaNode);
  node_of : option (list SchemaNode);
  node_to : option (list SchemaNode);
  node_validation : option (list ManifestValidationGroup);
  node_options : option (list (JsString * JsValue));
  node_initialValue : option JsValue
}.

#[local] Set Elimination Schemes.

(** An element of the [path] array handed to a visitor: a name, or undefined
    ([None]) for a node without a name. *)
Definition PathElement : Type := option JsString.

(** A call [visitor(type, path)]. *)
Definition Visit : Type := (SchemaNode * list PathElement)%type.

(** [`${kind}[${i}]`] *)
Definition indexed (kind : JsString) (i : nat) : PathElement :=
  Some (kind ++ js "[" ++ showNat i ++ js "]").

(** The inner function [walk] of [walkSchemaTypes]; the result lists the
    calls of the visitor in the order in which they are made.  (A member of
    [of] or [to] is an object, so the tests [if (member)] and [if (target)]
    succeed.) *)
(** A loop [for (let i = 0; i < xs.length; i++)] whose body makes calls of
    the visitor; [i] is the index of the first element. *)
Definition eachIndexed {A B : Type} (i : nat) (xs : list A)
  (body : nat -> A -> list B) : list B :=
  (fix each (i : nat) (rest : list A) : list B :=
     match rest with
     | [] => []
     | x :: rest' => body i x ++ each (S i) rest'
     end) i xs.

(** The inner function [walk] of [walkSchemaTypes]; the result lists the
    calls of the visitor in the order in which they are made.  (A member of
    [of] or [to] is an object, so the tests [if (member)] and [if (target)]
    succeed.) *)
Fixpoint walk (t : SchemaNode) (path : list PathElement) {struct t}
  : list Visit :=
  (t, path)
  :: match t with
     | mkNode _ _ _ fs ms ts _ _ _ =>
         match fs with
         | Some l =>
             flat_map (fun field => walk field (path ++ [node_name field])) l
         | None => []
         end
         ++ match ms with
            | Some l =>
                eachIndexed 0 l
                  (fun i member => walk member (path ++ [indexed (js "of") i]))
            | None => []
            end
         ++ match ts with
            | Some l =>
                eachIndexed 0 l
                  (fun i target => walk target (path ++ [indexed (js "to") i]))
            | None => []
            end
     end.

Definition walkSchemaTypes (types : list SchemaNode) : list Visit :=
  flat_map (fun t => walk t [node_name t]) types.

(** [isPrimitiveTypeName] *)
Definition isPrimitiveTypeName (typeName : JsString) : bool :=
  existsb (fun p => str_eqb p typeName)
    [js "string"; js "number"; js "boolean"; js "date"; js "datetime";
     js "text"; js "url"; js "slug"; js "email"; js "array"; js "object";
     js "reference"; js "image"; js "file"; js "block"].

(** [names.add(x)] on a [Set] of strings, kept in the order of insertion. *)
Definition Set_add (names : list JsString) (x : JsString) : list JsString :=
  if existsb (fun y => str_eqb y x) names then names else names ++ [x].

(** A non-empty string is truthy. *)
Definition nonEmpty (s : JsString) : bool :=
  match s with
  | [] => false
  | _ :: _ => true
  end.

(** The inner function [collect] of [getReferencedTypeNames], with the set
    [names] threaded through. *)
Fixpoint collect (t : SchemaNode) (names : list JsString) {struct t}
  : list JsString :=
  match t with
  | mkNode _ _ _ fs ms ts _ _ _ =>
      let afterTargets :=
        match ts with
        | Some l =>
            fold_left
              (fun acc target =>
                 if nonEmpty (node_type target)
                 then Set_add acc (node_type target)
                 else acc)
              l names
        | None => names
        end in
      let afterMembers :=
        match ms with
        | Some l =>
            fold_left
              (fun acc member =>
                 collect member
                   (if nonEmpty (node_type member)
                       && negb (isPrimitiveTypeName (node_type member))
                    then Set_add acc (node_type member)
                    else acc))
              l afterTargets
        | None => afterTargets
        end in
      match fs with
      | Some l =>
          fold_left
            (fun acc field =>
               collect field
                 (if nonEmpty (node_type field)
                     && negb (isPrimitiveTypeName (node_type field))
                  then Set_add acc (node_type field)
                  else acc))
            l afterMembers
      | None => afterMembers
      end
  end.

(** [Array.from(names)] *)
Definition getReferencedTypeNames (t : SchemaNode) : list JsString :=
  collect t [].

(** The call [visitor(n, q)] is among those that [walk t path] makes. *)
Inductive Reaches : SchemaNode -> list PathElement -> Visit -> Prop :=
| Reaches_here (t : SchemaNode) (path : list PathElement) :
    Reaches t path (t, path)
| Reaches_field (t : SchemaNode) (path : list PathElement)
    (fs : list SchemaNode) (field : SchemaNode) (v : Visit) :
    node_fields t = Some fs -> In field fs ->
    Reaches field (path ++ [node_name field]) v ->
    Reaches t path v
| Reaches_of (t : SchemaNode) (path : list PathElement)
    (ms : list SchemaNode) (i : nat) (member : SchemaNode) (v : Visit) :
    node_of t = Some ms -> nth_error ms i = Some member ->
    Reaches member (path ++ [indexed (js "of") i]) v ->
    Reaches t path v
| Reaches_to (t : SchemaNode) (path : list PathElement)
    (ts : list SchemaNode) (i : nat) (target : SchemaNode) (v : Visit) :
    node_to t = Some ts -> nth_error ts i = Some target ->
    Reaches target (path ++ [indexed (js "to") i]) v ->
    Reaches t path v.

(** The type name [n] is referenced by [t]: it is the non-empty type of a
    target of [to], or the non-empty type, other than a built-in one, of a
    member of [of] or of a field, of [t] or of a node reached from [t]
    through members and fields. *)
Inductive Refers : SchemaNode -> JsString -> Prop :=
| Refers_target (t : SchemaNode) (ts : list SchemaNode) (target : SchemaNode) :
    node_to t = Some ts -> In target ts -> node_type target <> [] ->
    Refers t (node_type target)
| Refers_member (t : SchemaNode) (ms : list SchemaNode) (member : SchemaNode) :
    node_of t = Some ms -> In member ms -> node_type member <> [] ->
    isPrimitiveTypeName (node_type member) = false ->
    Refers t (node_type member)
| Refers_field (t : SchemaNode) (fs : list SchemaNode) (field : SchemaNode) :
    node_fields t = Some fs -> In field fs -> node_type field <> [] ->
    isPrimitiveTypeName (node_type field) = false ->
    Refers t (node_type field)
| Refers_in_member (t : SchemaNode) (ms : list SchemaNode)
    (member : SchemaNode) (n : JsString) :
    node_of t = Some ms -> In member ms -> Refers member n -> Refers t n
| Refers_in_field (t : SchemaNode) (fs : list SchemaNode)
    (field : SchemaNode) (n : JsString) :
    node_fields t = Some fs -> In field fs -> Refers field n -> Refers t n.

(** What the visit of a member or of a field [x] adds: the type of [x], when
    it is not empty and not built in, and the names that [x] refers to. *)
Definition namedOrInside (x : SchemaNode) (n : JsString) : Prop :=
  (node_type x <> [] /\ isPrimitiveTypeName (node_type x) = false
   /\ n = node_type x)
  \/ Refers x n.

(** The fixture of the tests of src/helpers.ts (src/helpers.test.ts), with
    the properties that [SchemaNode] carries. *)
Module NodeFixture.

#[local] Open Scope string_scope.

Definition node (ty : string) (nm : option string) : SchemaNode :=
  {| node_type := js ty; node_name := option_map js nm; node_title := None;
     node_fields := None; node_of := None; node_to := None;
     node_validation := None; node_options := None;
     node_initialValue := None |}.

Definition field (ty nm : string) : SchemaNode := node ty (Some nm).

Definition withRules (rs : list ManifestValidationRule) (n : SchemaNode)
  : SchemaNode :=
  {| node_type := node_type n; node_name := node_name n;
     node_title := node_title n; node_fields := node_fields n;
     node_of := node_of n; node_to := node_to n;
     node_validation := Some [Fixture.group rs];
     node_options := node_options n;
     node_initialValue := node_initialValue n |}.

Definition withOptions (opts : list (string * JsValue)) (n : SchemaNode)
  : SchemaNode :=
  {| node_type := node_type n; node_name := node_name n;
     node_title := node_title n; node_fields := node_fields n;
     node_of := node_of n; node_to := node_to n;
     node_validation := node_validation n;
     node_options := Some (Fixture.doc opts);
     node_initialValue := node_initialValue n |}.

Definition withFields (fs : list SchemaNode) (n : SchemaNode) : SchemaNode :=
  {| node_type := node_type n; node_name := node_name n;
     node_title := node_title n; node_fields := Some fs;
     node_of := node_of n; node_to := node_to n;
     node_validation := node_validation n;
     node_options := node_options n;
     node_initialValue := node_initialValue n |}.

Definition withOf (ms : list SchemaNode) (n : SchemaNode) : SchemaNode :=
  {| node_type := node_type n; node_name := node_name n;
     node_title := node_title n; node_fields := node_fields n;
     node_of := Some ms; node_to := node_to n;
     node_validation := node_validation n;
     node_options := node_options n;
     node_initialValue := node_initialValue n |}.

Definition withTo (ts : list SchemaNode) (n : SchemaNode) : SchemaNode :=
  {| node_type := node_type n; node_name := node_name n;
     node_title := node_title n; node_fields := node_fields n;
     node_of := node_of n; node_to := Some ts;
     node_validation := node_validation n;
     node_options := node_options n;
     node_initialValue := node_initialValue n |}.

Definition articleType : SchemaNode :=
  withFields
    [ withRules [Fixture.required; Fixture.rule "max" (Some (Fixture.num 100))]
        (field "string" "title");
      field "text" "description";
      withOptions [("source", Fixture.str "title")] (field "slug" "slug");
      withTo [node "author" None; node "person" None]
        (field "reference" "author");
      withOf [node "string" None] (field "array" "tags");
      withOptions [("hotspot", JBool true)] (field "image" "mainImage");
      withOptions
        [("list",
          JArr [Fixture.obj [("title", Fixture.str "Draft");
                             ("value", Fixture.str "draft")];
                Fixture.obj [("title", Fixture.str "Published");
                             ("value", Fixture.str "published")]])]
        (field "string" "status");
      field "string" "hiddenField" ]
    (node "document" (Some "article")).

(** [path.join('.')] *)
Definition joined (path : list PathElement) : JsString :=
  join (js ".")
    (map (fun e => match e with Some s => s | None => [] end) path).

End NodeFixture.


(* ------------------------------------------------------------------ *)
(** ** Skeleton generation (src/helpers.ts)

    An object under construction is the list of its properties;
    [skeleton[key] = v] is [Map_set].  (The order in which JavaScript
    enumerates keys that look like integers is not modelled; the statements
    below read properties by key.) *)

(** A node as the validator and the helpers on [ManifestSchemaType] see it.
    The schema model of the validator has named types and fields: a node
    without a name is given the empty name. *)
Fixpoint toSchemaType (n : SchemaNode) : ManifestSchemaType :=
  match n with
  | mkNode ty nm ti fs ms ts val opts _ =>
      let toMember (m : SchemaNode) : ManifestArrayMember :=
        match m with
        | mkNode mty mnm _ mfs _ _ _ _ _ =>
            mkMember mty mnm
              (match mfs with
               | Some l => Some (map toSchemaType l)
               | None => None
               end)
        end in
      mkSchemaType ty
        (match nm with Some s => s | None => [] end)
        ti
        (match fs with Some l => Some (map toSchemaType l) | None => None end)
        (match ms with Some l => Some (map toMember l) | None => None end)
        (match ts with Some l => Some (map toMember l) | None => None end)
        val opts
  end.

(** [Map<string, ManifestSchemaType>] *)
Definition NodeMap : Type := list (JsString * SchemaNode).

Record GenerateSkeletonOptions : Type := {
  includeOptional : option bool;
  documentId : option JsString;
  (** [typeMap] *)
  skeletonTypeMap : option NodeMap
}.

(** [field.initialValue], undefined when absent *)
Definition initialValueOf (n : SchemaNode) : JsValue :=
  match node_initialValue n with
  | Some v => v
  | None => JUndefined
  end.

(** The key of [skeleton[field.name]]: a name that is undefined is turned
    into the string 'undefined'. *)
Definition propertyKey (n : SchemaNode) : JsString :=
  match node_name n with
  | Some s => s
  | None => js "undefined"
  end.

(** [schemaType.name] as a value *)
Definition nameValue (n : SchemaNode) : JsValue :=
  match node_name n with
  | Some s => JStr s
  | None => JUndefined
  end.

(** The loop over the fields, which [generateDocumentSkeleton] and
    [generateObjectSkeleton] have in the same words; [recur field] is the
    call [getDefaultValueForField(field, typeMap, includeOptional)], [None]
    when it does not return. *)
Definition fillFields (includeOptional : bool)
  (recur : SchemaNode -> option JsValue) (fs : list SchemaNode)
  (skeleton : list (JsString * JsValue)) : option (list (JsString * JsValue)) :=
  (fix loop (fs : list SchemaNode) (skeleton : list (JsString * JsValue))
     : option (list (JsString * JsValue)) :=
     match fs with
     | [] => Some skeleton
     | field :: rest =>
         let required := isFieldRequired (toSchemaType field) in
         if negb required && negb includeOptional then loop rest skeleton
         else
           match recur field with
           | Some defaultValue =>
               loop rest
                 (if negb (isUndefined defaultValue)
                  then Map_set skeleton (propertyKey field) defaultValue
                  else skeleton)
           | None => None
           end
     end) fs skeleton.

(** The body of [generateObjectSkeleton]. *)
Definition objectSkeletonWith (includeOptional : bool)
  (recur : SchemaNode -> option JsValue) (objectType : SchemaNode)
  : option JsValue :=
  let skeleton :=
    if truthy (nameValue objectType)
       && negb (str_eqb (node_type objectType) (js "object"))
    then [(js "_type", nameValue objectType)]
    else [] in
  match node_fields objectType with
  | Some fs =>
      match fillFields includeOptional recur fs skeleton with
      | Some filled => Some (JObj filled)
      | None => None
      end
  | None => Some (JObj skeleton)
  end.

Section DefaultValue.

Variable typeMap : option NodeMap.
Variable includeOptional : bool.

(** The call [generateObjectSkeleton(customType, typeMap, includeOptional)]
    on a type taken from [typeMap]: the one recursive call whose argument is
    not a part of [field]. *)
Variable ofCustomType : SchemaNode -> option JsValue.

(** The recursive call [getDefaultValueForField(f, typeMap, includeOptional)]
    that [generateObjectSkeleton(field, ...)] makes for a field [f] of
    [field]. *)
Variable recur : SchemaNode -> option JsValue.

(** The [switch (field.type)] of [getDefaultValueForField]. *)
Definition defaultByKind (field : SchemaNode) : option JsValue :=
  let kind := str_eqb (node_type field) in
  if kind (js "string") || kind (js "text") || kind (js "url")
     || kind (js "email")
  then Some (JStr [])
  else if kind (js "number") then Some (JNum numZero)
  else if kind (js "boolean") then Some (JBool false)
  else if kind (js "date") || kind (js "datetime") then Some JUndefined
  else if kind (js "slug") then
    Some (JObj [(js "_type", JStr (js "slug")); (js "current", JStr [])])
  else if kind (js "array") then Some (JArr [])
  else if kind (js "reference") then Some JNull
  else if kind (js "image") then Some (JObj [(js "_type", JStr (js "image"))])
  else if kind (js "file") then Some (JObj [(js "_type", JStr (js "file"))])
  else if kind (js "object") then
    objectSkeletonWith includeOptional recur field
  else if kind (js "block") then Some JUndefined
  else
    match typeMap with
    | Some types =>
        match Map_get types (node_type field) with
        | Some customType =>
            if str_eqb (node_type customType) (js "object")
            then ofCustomType customType
            else Some JUndefined
        | None => Some JUndefined
        end
    | None => Some JUndefined
    end.

(** The body of [getDefaultValueForField]. *)
Definition defaultValueBody (field : SchemaNode) : option JsValue :=
  if negb (isUndefined (initialValueOf field)) then Some (initialValueOf field)
  else
    match getListOptions (toSchemaType field) with
    | Some (first :: _) =>
        if truthy first then Some (get first (js "value"))
        else defaultByKind field
    | _ => defaultByKind field
    end.

End DefaultValue.

(** [getDefaultValueForField] for a given way to follow a custom type; the
    recursion through [generateObjectSkeleton(field, ...)] descends into the
    fields of [field]. *)
Fixpoint defaultValue (typeMap : option NodeMap) (includeOptional : bool)
  (ofCustomType : SchemaNode -> option JsValue) (field : SchemaNode)
  {struct field} : option JsValue :=
  defaultValueBody typeMap includeOptional ofCustomType
    (fun f => defaultValue typeMap includeOptional ofCustomType f) field.

(** [generateObjectSkeleton(customType, typeMap, includeOptional)] for a type
    taken from [typeMap].  Nothing bounds the number of type names that are
    followed in a row (a type may name itself): [fuel] bounds it, and [None]
    says that the bound was reached. *)
Fixpoint ofCustomTypeWithin (fuel : nat) (typeMap : option NodeMap)
  (includeOptional : bool) (customType : SchemaNode) {struct fuel}
  : option JsValue :=
  match fuel with
  | 0 => None
  | S fuel' =>
      objectSkeletonWith includeOptional
        (defaultValue typeMap includeOptional
           (ofCustomTypeWithin fuel' typeMap includeOptional))
        customType
  end.

Definition getDefaultValueForField (fuel : nat) (field : SchemaNode)
  (typeMap : option NodeMap) (includeOptional : bool) : option JsValue :=
  defaultValue typeMap includeOptional
    (ofCustomTypeWithin fuel typeMap includeOptional) field.

Definition generateObjectSkeleton (fuel : nat) (objectType : SchemaNode)
  (typeMap : option NodeMap) (includeOptional : bool) : option JsValue :=
  objectSkeletonWith includeOptional
    (fun field => getDefaultValueForField fuel field typeMap includeOptional)
    objectType.

Definition generateDocumentSkeleton (fuel : nat) (schemaType : SchemaNode)
  (options : GenerateSkeletonOptions)
  : option (list (JsString * JsValue)) :=
  let includeOptional := withDefault (includeOptional options) false in
  let typeMap := skeletonTypeMap options in
  let skeleton := [(js "_type", nameValue schemaType)] in
  let skeleton :=
    match documentId options with
    | Some (c :: s) => Map_set skeleton (js "_id") (JStr (c :: s))
    | _ => skeleton
    end in
  match node_fields schemaType with
  | Some fs =>
      fillFields includeOptional
        (fun field => getDefaultValueForField fuel field typeMap includeOptional)
        fs skeleton
  | None => Some skeleton
  end.

(** [new Map(schemaTypes.map((t) => [t.name, t]))]; an entry whose key is
    undefined is left out, since every lookup is by a string. *)
Definition nodeMapOf (schemaTypes : list SchemaNode) : NodeMap :=
  Map_new
    (flat_map
       (fun t =>
          match node_name t with
          | Some n => [(n, t)]
          | None => []
          end)
       schemaTypes).

(** The result is [Some None] for [null]. *)
Definition generateSkeletonByTypeName (fuel : nat) (typeName : JsString)
  (schemaTypes : list SchemaNode) (options : GenerateSkeletonOptions)
  : option (option (list (JsString * JsValue))) :=
  match
    find (fun t => match node_name t with
                   | Some n => str_eqb n typeName
                   | None => false
                   end)
         schemaTypes
  with
  | Some schemaType =>
      match
        generateDocumentSkeleton fuel schemaType
          {| includeOptional := includeOptional options;
             documentId := documentId options;
             skeletonTypeMap := Some (nodeMapOf schemaTypes) |}
      with
      | Some skeleton => Some (Some skeleton)
      | None => None
      end
  | None => Some None
  end.

(** The default options of [generateDocumentSkeleton]. *)
Definition noSkeletonOptions : GenerateSkeletonOptions :=
  {| includeOptional := None; documentId := None; skeletonTypeMap := None |}.

(** The field is looked at by the loop: it is required, or optional fields
    are included. *)
Definition included (includeOptional : bool) (field : SchemaNode) : bool :=
  isFieldRequired (toSchemaType field) || includeOptional.




(* ------------------------------------------------------------------ *)
(** ** Variants of a field and of the options *)

(** [field] with other validation groups. *)
Definition regrouped (field : ManifestSchemaType)
  (groups : list ManifestValidationGroup) : ManifestSchemaType :=
  mkSchemaType (type field) (name field) (title field) (fields field)
    (of_ field) (to field) (Some groups) (options field).




(* ------------------------------------------------------------------ *)
(** ** The strings of a pattern *)

(** The string [s] is in the language of [r]. *)
Inductive Lang : Re -> JsString -> Prop :=
| Lang_eps : Lang ReEps []
| Lang_class (p : N -> bool) (c : N) : p c = true -> Lang (ReClass p) [c]
| Lang_seq (r1 r2 : Re) (s1 s2 : JsString) :
    Lang r1 s1 -> Lang r2 s2 -> Lang (ReSeq r1 r2) (s1 ++ s2)
| Lang_alt_l (r1 r2 : Re) (s : JsString) : Lang r1 s -> Lang (ReAlt r1 r2) s
| Lang_alt_r (r1 r2 : Re) (s : JsString) : Lang r2 s -> Lang (ReAlt r1 r2) s
| Lang_star_nil (r : Re) : Lang (ReStar r) []
| Lang_star_cons (r : Re) (s1 s2 : JsString) :
    Lang r s1 -> Lang (ReStar r) s2 -> Lang (ReStar r) (s1 ++ s2).

(** What may follow a code unit of [[a-z0-9]] in a slug: more of them, or a
    hyphen that is followed by one of them. *)
Fixpoint slugTail (s : JsString) : bool :=
  match s with
  | [] => true
  | c :: s' =>
      if isSlugAlnum c then slugTail s'
      else
        isHyphen c
        && match s' with
           | d :: _ => isSlugAlnum d && slugTail s'
           | [] => false
           end
  end.

(** Words of [[a-z0-9]] separated by single hyphens. *)
Definition slugShaped (s : JsString) : bool :=
  match s with
  | c :: s' => isSlugAlnum c && slugTail s'
  | [] => false
  end.

(** Code units of [[a-z0-9]] and hyphens, no two hyphens in a row;
    [afterHyphen] tells that a hyphen precedes the string. *)
Fixpoint hyphenRuns (afterHyphen : bool) (s : JsString) : bool :=
  match s with
  | [] => true
  | c :: s' =>
      if isSlugAlnum c then hyphenRuns false s'
      else isHyphen c && negb afterHyphen && hyphenRuns true s'
  end.

(* ------------------------------------------------------------------ *)
(** ** The data on which the model and the code agree

    A [JsValue] stands for data as [JSON.parse] produces it: no property of
    it is a function.  Three steps of the code look past the own properties
    of such data, and the statements that depend on one of them say so with
    the predicates of this section. *)

(** The string-keyed members of [Object.prototype].  A read [o[k]] of a plain
    object without an own property [k] finds them; for every other key it
    yields undefined. *)
Definition inheritedKey (k : JsString) : bool :=
  existsb (str_eqb k)
    (map js
       ["constructor"; "__defineGetter__"; "__defineSetter__";
        "hasOwnProperty"; "__lookupGetter__"; "__lookupSetter__";
        "isPrototypeOf"; "propertyIsEnumerable"; "toString"; "valueOf";
        "__proto__"; "toLocaleString"]%string).

(** ToString returns on [v], as [toStr] has it.  On an object the conversion
    calls the member [toString]; an own property of that name is data, not a
    function, so the conversion goes on to the inherited [valueOf], gets the
    object back and throws a TypeError.  An array is rendered by [join],
    which converts every element other than undefined and null. *)
Fixpoint stringifies (v : JsValue) : bool :=
  match v with
  | JArr items => forallb stringifies items
  | JObj props => negb (hasKey v (js "toString"))
  | _ => true
  end.

(** No object inside [v], at any depth, has an own property [toString]:
    ToString and ToNumber return on every part of [v]. *)
Fixpoint plainData (v : JsValue) : bool :=
  match v with
  | JArr items => forallb plainData items
  | JObj props =>
      negb (hasKey v (js "toString"))
      && forallb (fun kv => plainData (snd kv)) props
  | _ => true
  end.

(** The values that a schema hands to the validator (the constraints of the
    rules and the options) are [plainData], for a type, its fields, and the
    fields of the members of [of], at any depth. *)
Fixpoint plainType (t : ManifestSchemaType) : bool :=
  forallb (fun r => plainData (constraintOf r)) (getValidationRules t)
  && match t with
     | mkSchemaType _ _ _ fs ms _ _ os =>
         match os with
         | Some l => forallb (fun kv => plainData (snd kv)) l
         | None => true
         end
         && match fs with
            | Some l => forallb plainType l
            | None => true
            end
         && match ms with
            | Some l => forallb plainMember l
            | None => true
            end
     end
with plainMember (m : ManifestArrayMember) : bool :=
  match m with
  | mkMember _ _ fs =>
      match fs with
      | Some l => forallb plainType l
      | None => true
      end
  end.

(** No field of [n], at any depth (fields of the members of [of] and [to]
    included), is named [__proto__]: the assignment
    [skeleton[field.name] = v] then creates or replaces an own property,
    which is what [Map_set] does.  Under the key [__proto__] the assignment
    sets the prototype of the skeleton, or does nothing. *)
Fixpoint assignable (n : SchemaNode) : bool :=
  match n with
  | mkNode _ _ _ fs ms ts _ _ _ =>
      match fs with
      | Some l =>
          forallb
            (fun f =>
               negb (str_eqb (propertyKey f) (js "__proto__"))
               && assignable f)
            l
      | None => true
      end
      && match ms with
         | Some l => forallb assignable l
         | None => true
         end
      && match ts with
         | Some l => forallb assignable l
         | None => true
         end
  end.

(** [assignable] for every type of the map that the skeleton generator
    looks types up in. *)
Definition assignableMap (typeMap : option NodeMap) : bool :=
  match typeMap with
  | Some m => forallb (fun kv => assignable (snd kv)) m
  | None => true
  end.

(** A result written by hand, which the type [ValidationResult] admits: its
    [errors] holds an issue of severity warning. *)
Definition warningListedAsError : ValidationResult :=
  let w :=
    {| path := js "slug.current";
       message := js "Slug contains invalid characters";
       severity := sev_warning;
       rule := None;
       value := None;
       expected := None;
       field := None;
       suggestions := None |} in
  {| valid := true;
     issues := [w];
     errors := [w];
     warnings := [w];
     info := [];
     documentType := js "article";
     summary := js "Document is valid (1 warning)" |}.

(* ================================================================== *)
(** * Properties *)

(** ** Induction on values *)

(** Induction with the hypothesis available for every element of an array
    and every property value of an object. *)
Lemma JsValue_nested_ind (P : JsValue -> Prop)
  (Hundef : P JUndefined) (Hnull : P JNull)
  (Hbool : forall b, P (JBool b)) (Hnum : forall n, P (JNum n))
  (Hstr : forall s, P (JStr s))
  (Harr : forall items, Forall P items -> P (JArr items))
  (Hobj : forall props, Forall (fun kv => P (snd kv)) props -> P (JObj props)) :
  forall v, P v.
Proof.
  fix IH 1. intros [ | | b | n | s | items | props ].
  - exact Hundef.
  - exact Hnull.
  - apply Hbool.
  - apply Hnum.
  - apply Hstr.
  - apply Harr. induction items as [ | x xs IHxs ]; constructor.
    + apply IH.
    + exact IHxs.
  - apply Hobj. induction props as [ | [k x] xs IHxs ]; constructor.
    + apply IH.
    + exact IHxs.
Qed.

(** ** Strings *)

Lemma str_eqb_refl (s : JsString) : str_eqb s s = true.
Proof.
  induction s as [ | c s IH ]; simpl.
  - reflexivity.
  - now rewrite N.eqb_refl.
Qed.

Lemma str_eqb_eq (a b : JsString) : str_eqb a b = true <-> a = b.
Proof.
  split.
  - revert b. induction a as [ | x a IH ]; intros [ | y b ]; simpl;
      try discriminate; auto.
    intros H. apply andb_true_iff in H as [Hx Hab].
    apply N.eqb_eq in Hx. subst y. f_equal. now apply IH.
  - intros ->. apply str_eqb_refl.
Qed.

Lemma startsWith_app (sub rest : JsString) : startsWith (sub ++ rest) sub = true.
Proof.
  induction sub as [ | c sub IH ]; simpl.
  - now destruct rest.
  - now rewrite N.eqb_refl.
Qed.

Lemma includes_unfold (s sub : JsString) :
  includes s sub =
  startsWith s sub || match s with
                      | [] => false
                      | _ :: s' => includes s' sub
                      end.
Proof. destruct s; reflexivity. Qed.

Lemma includes_app (before sub rest : JsString) :
  includes (before ++ sub ++ rest) sub = true.
Proof.
  induction before as [ | c before IH ].
  - rewrite includes_unfold, app_nil_l, startsWith_app. reflexivity.
  - rewrite includes_unfold. simpl. rewrite IH. apply orb_true_r.
Qed.

Lemma startsWith_split (s sub : JsString) :
  startsWith s sub = true -> exists rest, s = sub ++ rest.
Proof.
  revert s. induction sub as [ | c sub IH ]; intros s H.
  - now exists s.
  - destruct s as [ | d s ]; simpl in H; [ discriminate | ].
    apply andb_true_iff in H as [Hc Hs]. apply N.eqb_eq in Hc. subst d.
    destruct (IH s Hs) as [rest ->]. now exists rest.
Qed.

Lemma includes_split (s sub : JsString) :
  includes s sub = true -> exists before rest, s = before ++ sub ++ rest.
Proof.
  induction s as [ | c s IH ]; rewrite includes_unfold; intros H;
    apply orb_true_iff in H as [H | H]; try discriminate.
  - destruct (startsWith_split _ _ H) as [rest ->]. now exists [], rest.
  - destruct (startsWith_split _ _ H) as [rest ->]. now exists [], rest.
  - destruct (IH H) as (before & rest & ->). now exists (c :: before), rest.
Qed.

(** A literal that holds [sub] holds it wherever the literal is put. *)
Lemma includes_within (before lit rest sub : JsString) :
  includes lit sub = true -> includes (before ++ lit ++ rest) sub = true.
Proof.
  intros H. destruct (includes_split _ _ H) as (a & b & ->).
  replace (before ++ (a ++ sub ++ b) ++ rest)
    with ((before ++ a) ++ sub ++ (b ++ rest))
    by now rewrite <- !app_assoc.
  apply includes_app.
Qed.

(** ** The loops *)

Lemma forEach_nil {A : Type} (body : A -> Outcome (list ValidationIssue)) :
  forEach [] body = Returns [].
Proof. reflexivity. Qed.

Lemma forEach_cons {A : Type} (x : A) (xs : list A)
  (body : A -> Outcome (list ValidationIssue)) :
  forEach (x :: xs) body =
  (pushed <- body x ;; later <- forEach xs body ;; Returns (pushed ++ later)).
Proof. reflexivity. Qed.

Lemma forEach_ext {A : Type} (xs : list A)
  (f g : A -> Outcome (list ValidationIssue)) :
  (forall x, In x xs -> f x = g x) -> forEach xs f = forEach xs g.
Proof.
  induction xs as [ | x xs IH ]; intros H.
  - reflexivity.
  - rewrite !forEach_cons, (H x (or_introl eq_refl)), IH; auto.
    intros y Hy. apply H. now right.
Qed.

Lemma forEachIndexed_cons {A : Type} (i : nat) (x : A) (xs : list A)
  (body : nat -> A -> Outcome (list ValidationIssue)) :
  forEachIndexed i (x :: xs) body =
  (pushed <- body i x ;;
   later <- forEachIndexed (S i) xs body ;;
   Returns (pushed ++ later)).
Proof. reflexivity. Qed.

Lemma forEachIndexed_ext {A : Type} (xs : list A) :
  forall (i : nat) (f g : nat -> A -> Outcome (list ValidationIssue)),
  (forall j x, In x xs -> f j x = g j x) ->
  forEachIndexed i xs f = forEachIndexed i xs g.
Proof.
  induction xs as [ | x xs IH ]; intros i f g H.
  - reflexivity.
  - rewrite !forEachIndexed_cons, (H i x (or_introl eq_refl)).
    rewrite (IH (S i) f g); auto.
    intros j y Hy. apply H. now right.
Qed.

(** ** Property reads *)

Lemma withProp_lookup {A : Type} (props : list (JsString * JsValue))
  (key : JsString) (found : JsValue -> A) (missing : A) :
  withProp props key found missing =
  match lookup props key with
  | Some v => found v
  | None => missing
  end.
Proof.
  induction props as [ | [k v] rest IH ]; simpl.
  - reflexivity.
  - destruct (str_eqb k key); [ reflexivity | exact IH ].
Qed.

Lemma lookup_In (props : list (JsString * JsValue)) (key : JsString)
  (v : JsValue) : lookup props key = Some v -> exists k, In (k, v) props.
Proof.
  induction props as [ | [k x] rest IH ]; simpl; [ discriminate | ].
  destruct (str_eqb k key).
  - intros [= ->]. exists k. now left.
  - intros H. destruct (IH H) as [k' Hk']. exists k'. now right.
Qed.

(** ** [validateField] *)

Section FieldFacts.

Variable h : Host.

Lemma validateField_unfold (value : JsValue) (field : ManifestField)
  (path : JsString) (typeMap : TypeMap) (options : ValidateOptions) :
  validateField h value field path typeMap options =
  validateFieldBody h (fun v f p => validateField h v f p typeMap options)
    value field path typeMap options.
Proof. destruct value; reflexivity. Qed.

(** [validateFieldAbsent] is [validateField] at undefined. *)
Lemma validateField_undefined (field : ManifestField) (path : JsString)
  (typeMap : TypeMap) (options : ValidateOptions) :
  validateField h JUndefined field path typeMap options =
  validateFieldAbsent field path.
Proof.
  rewrite validateField_unfold. unfold validateFieldBody, validateFieldAbsent.
  simpl. rewrite andb_true_r.
  now destruct (isRequired (getValidationRules field)).
Qed.

(** [validateProp] is the call
    [validateField(container[f.name], f, p, typeMap, options)]. *)
Lemma validateProp_read (container : JsValue) (f : ManifestField)
  (p : JsString) (typeMap : TypeMap) (options : ValidateOptions) :
  validateProp (fun v f p => validateField h v f p typeMap options)
    container f p =
  validateField h (get container (name f)) f p typeMap options.
Proof.
  unfold validateProp, get, getProp.
  destruct container; try (now rewrite validateField_undefined).
  rewrite withProp_lookup.
  destruct (lookup props (name f)); [ reflexivity | ].
  now rewrite validateField_undefined.
Qed.

End FieldFacts.

(* ------------------------------------------------------------------ *)
(** ** The cases of src/validation.test.ts, run on the model *)

Section TestSuite.

#[local] Open Scope string_scope.

Import Fixture.

Example test_correct_document :
  observed
    (run [("_type", str "article"); ("_id", str "article-1");
          ("title", str "Hello World");
          ("slug", obj [("current", str "hello-world")]);
          ("tags", JArr [str "news"])])
  = Some (true, []).
Proof. reflexivity. Qed.

Example test_missing_type :
  observed (run [("title", str "Hello")])
  = Some (false,
          [(js "_type", sev_error, js "Document is missing required _type field");
           (js "slug", sev_error, js "Slug is required")]).
Proof. reflexivity. Qed.

Example test_missing_required_fields :
  observed (run [("_type", str "article");
                 ("description", str "Some description here")])
  = Some (false,
          [(js "title", sev_error, js "Title is required");
           (js "slug", sev_error, js "Slug is required")]).
Proof. reflexivity. Qed.

Example test_max_length :
  observed (run [("_type", str "article");
                 ("title", JStr (repeat (code "x") 101));
                 ("slug", obj [("current", str "test")])])
  = Some (false,
          [(js "title", sev_error,
            js "Must be at most 100 characters (currently 101)")]).
Proof. reflexivity. Qed.

Example test_rating_below_min :
  observed (run [("_type", str "article"); ("title", str "Hello");
                 ("slug", obj [("current", str "test")]); ("rating", num 0)])
  = Some (false, [(js "rating", sev_error, js "Must be at least 1")]).
Proof. reflexivity. Qed.

Example test_slug_format :
  observed (run [("_type", str "article"); ("title", str "Hello");
                 ("slug", obj [("current", str "Hello World!")])])
  = Some (true,
          [(js "slug.current", sev_warning, js "Slug contains invalid characters")]).
Proof. reflexivity. Qed.

Example test_reference_without_ref :
  observed (run [("_type", str "article"); ("title", str "Hello");
                 ("slug", obj [("current", str "test")]);
                 ("author", obj [("_type", str "reference")])])
  = Some (false,
          [(js "author._ref", sev_error, js "Reference is missing _ref property")]).
Proof. reflexivity. Qed.

Example test_empty_tags :
  observed (run [("_type", str "article"); ("title", str "Hello");
                 ("slug", obj [("current", str "test")]); ("tags", JArr [])])
  = Some (false, [(js "tags", sev_error, js "Must have at least 1 item")]).
Proof. reflexivity. Qed.

Example test_image_without_alt :
  observed (run [("_type", str "article"); ("title", str "Hello");
                 ("slug", obj [("current", str "test")]);
                 ("mainImage", obj [("asset", obj [("_ref", str "image-123")])])])
  = Some (false, [(js "mainImage.alt", sev_error, js "Alt Text is required")]).
Proof. reflexivity. Qed.

End TestSuite.

(* ------------------------------------------------------------------ *)
(** ** Exceptions raised by document data *)


(** C1: [validateDocument] is claimed never to throw, whatever the document;
    on a block whose [children] array holds [null] the read [child['_type']]
    of [validateBlock] throws a TypeError, which nothing catches, under every
    host and with well-formed schema and options. *)
Theorem validateDocument_throws_on_null_block_child (h : Host) :
  validateDocument h BlockDocument.page BlockDocument.pageType
    [BlockDocument.pageType] noOptions
  = Throws TypeError.
Proof. reflexivity. Qed.

(** The loop of [validateArray] tests [item !== null] before it reads a
    property of the item: the same [null] as an array element is reported,
    not thrown. *)
Lemma validateArray_accepts_null_item (h : Host) :
  exists r,
    validateDocument h BlockDocument.listPage BlockDocument.listType
      [BlockDocument.listType] noOptions = Returns r
    /\ List.length (errors r) = 1.
Proof. eexists. split; reflexivity. Qed.

(** A schema can make the validator throw as well: a [length] rule without
    constraint reads [constraint.min] of undefined as soon as the value is a
    string. *)
Lemma length_rule_without_constraint_throws (h : Host) :
  validateField h (Fixture.str "abc")
    (Fixture.fieldOf "string" "code" "Code" [Fixture.rule "length" None])
    (js "code") [] noOptions
  = Throws TypeError.
Proof. reflexivity. Qed.

(* ------------------------------------------------------------------ *)
(** ** The required check *)

(** C3: a field that carries the rule [presence: 'required'] and whose value
    is undefined or null gets exactly one issue, of severity error, at the
    path of the field; nothing else is checked for it. *)
Theorem required_missing_yields_single_error (h : Host) (v : JsValue)
  (f : ManifestField) (fieldPath : JsString) (typeMap : TypeMap)
  (opts : ValidateOptions) :
  (exists r, In r (getValidationRules f)
             /\ flag r = js "presence"
             /\ constraint r = Some (JStr (js "required"))) ->
  v = JUndefined \/ v = JNull ->
  exists i,
    validateField h v f fieldPath typeMap opts = Returns [i]
    /\ severity i = sev_error
    /\ path i = fieldPath.
Proof.
  intros (r & Hin & Hflag & Hc) Hv.
  assert (Hreq : isRequired (getValidationRules f) = true).
  { unfold isRequired. apply existsb_exists. exists r. split; [ exact Hin | ].
    unfold constraintOf. rewrite Hflag, Hc. reflexivity. }
  exists (requiredIssue v f fieldPath).
  rewrite validateField_unfold. unfold validateFieldBody.
  rewrite Hreq. destruct Hv as [-> | ->]; simpl; auto.
Qed.

Lemma required_missing_yields_single_error_witness :
  (exists r, In r (getValidationRules (Fixture.fieldOf "slug" "slug" "Slug"
                                         [Fixture.required]))
             /\ flag r = js "presence"
             /\ constraint r = Some (JStr (js "required")))
  /\ (JNull = JUndefined \/ JNull = JNull)
  /\ exists i,
       validateField ExampleHost.host JNull
         (Fixture.fieldOf "slug" "slug" "Slug" [Fixture.required])
         (js "slug") [] noOptions = Returns [i]
       /\ severity i = sev_error
       /\ path i = js "slug".
Proof.
  assert (Hrule : exists r,
            In r (getValidationRules (Fixture.fieldOf "slug" "slug" "Slug"
                                        [Fixture.required]))
            /\ flag r = js "presence"
            /\ constraint r = Some (JStr (js "required"))).
  { exists Fixture.required. split; [ now left | split; reflexivity ]. }
  split; [ exact Hrule | ].
  split; [ now right | ].
  apply (required_missing_yields_single_error ExampleHost.host JNull
           (Fixture.fieldOf "slug" "slug" "Slug" [Fixture.required])
           (js "slug") [] noOptions Hrule (or_intror eq_refl)).
Defined.

(* ------------------------------------------------------------------ *)
(** ** The options are passed down and never read *)


Section Congruence.

Variable h : Host.
Variables recur1 recur2 :
  JsValue -> ManifestField -> JsString -> Outcome (list ValidationIssue).


Lemma validateProp_ext (container : JsValue) (f : ManifestField) (p : JsString) :
  (forall c, child c container -> agreeOn recur1 recur2 c) ->
  validateProp recur1 container f p = validateProp recur2 container f p.
Proof.
  intros H. destruct container; try reflexivity.
  unfold validateProp. rewrite !withProp_lookup.
  destruct (lookup props (name f)) as [ v | ] eqn:E; [ | reflexivity ].
  apply H. simpl. eapply lookup_In, E.
Qed.

Lemma validateObject_ext (v : JsValue) (f : ManifestSchemaType) (p : JsString)
  (typeMap : TypeMap) (o1 o2 : ValidateOptions) (ctx : FieldContext) :
  (forall c, child c v -> agreeOn recur1 recur2 c) ->
  validateObject recur1 v f p typeMap o1 ctx
  = validateObject recur2 v f p typeMap o2 ctx.
Proof.
  intros H. unfold validateObject. destruct v; try reflexivity.
  destruct (fields f); [ | reflexivity ].
  apply forEach_ext. intros g _. now apply validateProp_ext.
Qed.

Lemma validateAsset_ext (v : JsValue) (f : ManifestField) (p : JsString)
  (typeMap : TypeMap) (o1 o2 : ValidateOptions) (ctx : FieldContext) :
  (forall c, child c v -> agreeOn recur1 recur2 c) ->
  validateAsset recur1 v f p typeMap o1 ctx
  = validateAsset recur2 v f p typeMap o2 ctx.
Proof.
  intros H. unfold validateAsset.
  destruct (negb (isObjectLike v)); [ reflexivity | ].
  destruct (fields f); [ | reflexivity ].
  f_equal. apply forEach_ext. intros g _. now apply validateProp_ext.
Qed.

Lemma validateArray_ext (v : JsValue) (f : ManifestField) (p : JsString)
  (typeMap : TypeMap) (o1 o2 : ValidateOptions) (ctx : FieldContext) :
  (forall item, child item v -> forall c, child c item -> agreeOn recur1 recur2 c) ->
  validateArray h recur1 v f p typeMap o1 ctx
  = validateArray h recur2 v f p typeMap o2 ctx.
Proof.
  intros H. unfold validateArray. destruct v; try reflexivity.
  apply forEachIndexed_ext. intros i item Hitem.
  f_equal.
  destruct (isObjectLike item && hasKey item (js "_type")); [ | reflexivity ].
  destruct (find _ _); [ | reflexivity ].
  destruct (match TypeMap_get typeMap (get item (js "_type")) with
            | Some memberTypeDef => fields memberTypeDef
            | None => member_fields m
            end); [ | reflexivity ].
  apply forEach_ext. intros g _. apply validateProp_ext. now apply H.
Qed.

Lemma validateFieldBody_ext (v : JsValue) (f : ManifestField) (p : JsString)
  (typeMap : TypeMap) (o1 o2 : ValidateOptions) :
  (forall c, child c v -> agreeOn recur1 recur2 c) ->
  (forall item, child item v -> forall c, child c item -> agreeOn recur1 recur2 c) ->
  validateFieldBody h recur1 v f p typeMap o1
  = validateFieldBody h recur2 v f p typeMap o2.
Proof.
  intros Hc Hg. unfold validateFieldBody.
  destruct (isRequired (getValidationRules f) && isNullish v); [ reflexivity | ].
  destruct (isNullish v); [ reflexivity | ].
  f_equal.
  repeat match goal with
         | |- (if ?b then _ else _) = _ => destruct b
         end;
    try reflexivity;
    auto using validateArray_ext, validateObject_ext, validateAsset_ext.
  destruct (Map_get typeMap (type f)) as [ customType | ]; [ | reflexivity ].
  destruct (str_eqb (type customType) (js "object")); [ | reflexivity ].
  destruct (fields customType) eqn:E; [ | reflexivity ].
  now apply validateObject_ext.
Qed.

End Congruence.

Lemma validateField_ignores_options (h : Host) (typeMap : TypeMap)
  (o1 o2 : ValidateOptions) (v : JsValue) (f : ManifestField) (p : JsString) :
  validateField h v f p typeMap o1 = validateField h v f p typeMap o2.
Proof.
  set (same := fun c : JsValue =>
         forall g q, validateField h c g q typeMap o1
                     = validateField h c g q typeMap o2).
  enough (H : same v /\ forall c, child c v -> same c)
    by (destruct H as [H _]; apply H).
  clear f p. induction v as [ | | b | n | s | items IH | props IH ]
    using JsValue_nested_ind.
  1-5: (split; [ | intros c [] ];
        intros g q; rewrite !validateField_unfold;
        apply validateFieldBody_ext; intros c []).
  - assert (Hc : forall c, child c (JArr items) -> same c).
    { intros c Hin. simpl in Hin. rewrite Forall_forall in IH.
      exact (proj1 (IH c Hin)). }
    split; [ | exact Hc ].
    intros g q. rewrite !validateField_unfold.
    apply validateFieldBody_ext; [ exact Hc | ].
    intros item Hitem c Hchild. simpl in Hitem. rewrite Forall_forall in IH.
    exact (proj2 (IH item Hitem) c Hchild).
  - assert (Hc : forall c, child c (JObj props) -> same c).
    { intros c [k Hin]. rewrite Forall_forall in IH.
      exact (proj1 (IH (k, c) Hin)). }
    split; [ | exact Hc ].
    intros g q. rewrite !validateField_unfold.
    apply validateFieldBody_ext; [ exact Hc | ].
    intros item [k Hitem] c Hchild. rewrite Forall_forall in IH.
    exact (proj2 (IH (k, item) Hitem) c Hchild).
Qed.

(* ------------------------------------------------------------------ *)
(** ** The loop over the fields of the root type *)

Section RootLoop.

Variable h : Host.
Variable document : list (JsString * JsValue).
Variable typeMap : TypeMap.


Lemma validateRootFields_cons (f : ManifestField) (rest : list ManifestField)
  (options : ValidateOptions) (stop : bool) (issues : list ValidationIssue) :
  validateRootFields h document (f :: rest) typeMap options stop issues =
  if stop && existsb isError issues then Returns issues
  else
    fieldIssues <-
      validateField h (getProp document (name f)) f (name f) typeMap options ;;
    validateRootFields h document rest typeMap options stop
      (issues ++ fieldIssues).
Proof. reflexivity. Qed.

Lemma validateRootFields_extends (rootFields : list ManifestField)
  (options : ValidateOptions) (stop : bool) :
  forall issues out,
    validateRootFields h document rootFields typeMap options stop issues
    = Returns out ->
    exists pushed, out = issues ++ pushed.
Proof.
  induction rootFields as [ | f rest IH ]; intros issues out H.
  - injection H as <-. exists []. now rewrite app_nil_r.
  - rewrite validateRootFields_cons in H.
    destruct (stop && existsb isError issues).
    + injection H as <-. exists []. now rewrite app_nil_r.
    + destruct (validateField h _ f _ typeMap options) as [ fi | e ];
        simpl in H; [ | discriminate ].
      destruct (IH _ _ H) as [pushed ->].
      exists (fi ++ pushed). now rewrite app_assoc.
Qed.

Lemma validateRootFields_no_break (rootFields : list ManifestField)
  (options : ValidateOptions) :
  forall issues,
    validateRootFields h document rootFields typeMap options false issues =
    (pushed <- validateAllFields h document typeMap rootFields options ;;
     Returns (issues ++ pushed)).
Proof.
  unfold validateAllFields.
  induction rootFields as [ | f rest IH ]; intros issues.
  - simpl. now rewrite app_nil_r.
  - rewrite validateRootFields_cons, forEach_cons. simpl.
    destruct (validateField h _ f _ typeMap options) as [ fi | e ];
      simpl; [ | reflexivity ].
    rewrite IH.
    destruct (forEach rest _) as [ later | e ]; simpl; [ | reflexivity ].
    now rewrite app_assoc.
Qed.

Lemma validateRootFields_ignores_options (rootFields : list ManifestField)
  (o1 o2 : ValidateOptions) (stop : bool) :
  forall issues,
    validateRootFields h document rootFields typeMap o1 stop issues =
    validateRootFields h document rootFields typeMap o2 stop issues.
Proof.
  induction rootFields as [ | f rest IH ]; intros issues.
  - reflexivity.
  - rewrite !validateRootFields_cons.
    destruct (stop && existsb isError issues); [ reflexivity | ].
    rewrite (validateField_ignores_options h typeMap o1 o2).
    destruct (validateField h _ f _ typeMap o2); simpl; auto.
Qed.

End RootLoop.


Lemma collectIssues_ignores_inclusion (h : Host)
  (document : list (JsString * JsValue)) (schemaType : ManifestSchemaType)
  (allTypes : list ManifestSchemaType) (opts : ValidateOptions)
  (iw ii : option bool) :
  collectIssues h document schemaType allTypes (withInclusion opts iw ii)
  = collectIssues h document schemaType allTypes opts.
Proof.
  unfold collectIssues. simpl.
  destruct (fields schemaType); [ | reflexivity ].
  apply validateRootFields_ignores_options.
Qed.

Lemma validateDocument_returns (h : Host)
  (document : list (JsString * JsValue)) (schemaType : ManifestSchemaType)
  (allTypes : list ManifestSchemaType) (opts : ValidateOptions)
  (r : ValidationResult) :
  validateDocument h document schemaType allTypes opts = Returns r ->
  exists raw,
    collectIssues h document schemaType allTypes opts = Returns raw
    /\ r = buildResult schemaType opts raw.
Proof.
  unfold validateDocument.
  destruct (collectIssues h document schemaType allTypes opts) as [ raw | e ];
    simpl; [ | discriminate ].
  intros [= <-]. now exists raw.
Qed.

Lemma length_zero_iff_nil {A : Type} (l : list A) :
  Nat.eqb (List.length l) 0 = true <-> l = [].
Proof. destruct l; simpl; split; congruence. Qed.

Lemma filter_isError_nil (l : list ValidationIssue) :
  filter isError l = [] <-> forall i, In i l -> severity i <> sev_error.
Proof.
  split.
  - intros H i Hin Hsev.
    assert (Hf : In i (filter isError l)).
    { apply filter_In. split; [ exact Hin | ]. unfold isError. now rewrite Hsev. }
    rewrite H in Hf. destruct Hf.
  - intros H. induction l as [ | i l IH ]; simpl; [ reflexivity | ].
    destruct (isError i) eqn:E.
    + exfalso. apply (H i (or_introl eq_refl)).
      unfold isError in E. now destruct (severity i).
    + apply IH. intros j Hj. apply H. now right.
Qed.

(* ------------------------------------------------------------------ *)
(** ** The result of [validateDocument] *)

(** C2: [valid] is true exactly when [errors] is empty, that is when no
    collected issue has severity error, whatever warnings and info were
    collected; and changing [includeWarnings] or [includeInfo] leaves [valid]
    as it is. *)
Theorem valid_iff_no_errors (h : Host) (document : list (JsString * JsValue))
  (schemaType : ManifestSchemaType) (allTypes : list ManifestSchemaType)
  (opts : ValidateOptions) (r : ValidationResult) :
  validateDocument h document schemaType allTypes opts = Returns r ->
  (valid r = true <-> errors r = [])
  /\ (exists raw,
        collectIssues h document schemaType allTypes opts = Returns raw
        /\ (valid r = true <-> forall i, In i raw -> severity i <> sev_error))
  /\ (forall iw ii, exists r',
        validateDocument h document schemaType allTypes
          (withInclusion opts iw ii) = Returns r'
        /\ valid r' = valid r).
Proof.
  intros H. destruct (validateDocument_returns _ _ _ _ _ _ H) as (raw & Hraw & ->).
  split; [ | split ].
  - simpl. apply length_zero_iff_nil.
  - exists raw. split; [ exact Hraw | ]. simpl.
    rewrite length_zero_iff_nil. apply filter_isError_nil.
  - intros iw ii. eexists. split.
    + unfold validateDocument.
      rewrite collectIssues_ignores_inclusion, Hraw. reflexivity.
    + reflexivity.
Qed.

Lemma valid_iff_no_errors_witness :
  exists r,
    Fixture.run [("_type", Fixture.str "article")]%string = Returns r
    /\ (valid r = true <-> errors r = [])
    /\ (exists raw,
          collectIssues ExampleHost.host
            (Fixture.doc [("_type", Fixture.str "article")]%string)
            Fixture.articleType Fixture.allTypes noOptions = Returns raw
          /\ (valid r = true <-> forall i, In i raw -> severity i <> sev_error))
    /\ (forall iw ii, exists r',
          validateDocument ExampleHost.host
            (Fixture.doc [("_type", Fixture.str "article")]%string)
            Fixture.articleType Fixture.allTypes
            (withInclusion noOptions iw ii) = Returns r'
          /\ valid r' = valid r).
Proof.
  eexists. split; [ reflexivity | ].
  apply (valid_iff_no_errors ExampleHost.host
           (Fixture.doc [("_type", Fixture.str "article")]%string)
           Fixture.articleType Fixture.allTypes noOptions _ eq_refl).
Defined.

(** C10: [issues] is [errors], then the included warnings, then the included
    info, each group in the order of discovery; every issue of severity error
    is in [issues], also when warnings and info are left out. *)
Theorem issues_partitioned_by_severity (h : Host)
  (document : list (JsString * JsValue)) (schemaType : ManifestSchemaType)
  (allTypes : list ManifestSchemaType) (opts : ValidateOptions)
  (r : ValidationResult) :
  validateDocument h document schemaType allTypes opts = Returns r ->
  exists raw,
    collectIssues h document schemaType allTypes opts = Returns raw
    /\ errors r = filter isError raw
    /\ warnings r =
         (if withDefault (includeWarnings opts) true
          then filter isWarning raw else [])
    /\ info r =
         (if withDefault (includeInfo opts) false
          then filter isInfo raw else [])
    /\ issues r = errors r ++ warnings r ++ info r
    /\ (forall i, In i raw -> severity i = sev_error -> In i (issues r)).
Proof.
  intros H. destruct (validateDocument_returns _ _ _ _ _ _ H) as (raw & Hraw & ->).
  exists raw. split; [ exact Hraw | ]. simpl.
  repeat split.
  - now destruct (withDefault (includeWarnings opts) true),
               (withDefault (includeInfo opts) false).
  - intros i Hin Hsev. apply in_or_app. left.
    apply filter_In. split; [ exact Hin | ]. unfold isError. now rewrite Hsev.
Qed.

Lemma issues_partitioned_by_severity_witness :
  exists r,
    Fixture.run [("title", Fixture.str "Hello");
                 ("slug", Fixture.obj [("current", Fixture.str "Hello World!")])]%string
    = Returns r
    /\ List.length (errors r) = 1 /\ List.length (warnings r) = 1
    /\ exists raw,
         collectIssues ExampleHost.host
           (Fixture.doc
              [("title", Fixture.str "Hello");
               ("slug", Fixture.obj [("current", Fixture.str "Hello World!")])]%string)
           Fixture.articleType Fixture.allTypes noOptions = Returns raw
         /\ errors r = filter isError raw
         /\ warnings r =
              (if withDefault (includeWarnings noOptions) true
               then filter isWarning raw else [])
         /\ info r =
              (if withDefault (includeInfo noOptions) false
               then filter isInfo raw else [])
         /\ issues r = errors r ++ warnings r ++ info r
         /\ (forall i, In i raw -> severity i = sev_error -> In i (issues r)).
Proof.
  eexists. split; [ reflexivity | ].
  split; [ reflexivity | ]. split; [ reflexivity | ].
  apply (issues_partitioned_by_severity ExampleHost.host
           (Fixture.doc
              [("title", Fixture.str "Hello");
               ("slug", Fixture.obj [("current", Fixture.str "Hello World!")])]%string)
           Fixture.articleType Fixture.allTypes noOptions _ eq_refl).
Defined.

(* ------------------------------------------------------------------ *)
(** ** The check of [_type] *)


Lemma checkDocType_falsy (h : Host) (docType : JsValue)
  (schemaType : ManifestSchemaType) :
  truthy docType = false ->
  checkDocType h docType schemaType = checkDocType h JUndefined schemaType.
Proof. intros H. unfold checkDocType. now rewrite H. Qed.

Lemma collectIssues_starts_with_type_check (h : Host)
  (document : list (JsString * JsValue)) (schemaType : ManifestSchemaType)
  (allTypes : list ManifestSchemaType) (opts : ValidateOptions)
  (raw : list ValidationIssue) :
  collectIssues h document schemaType allTypes opts = Returns raw ->
  exists pushed,
    raw = checkDocType h (getProp document (js "_type")) schemaType ++ pushed.
Proof.
  unfold collectIssues. destruct (fields schemaType).
  - apply validateRootFields_extends.
  - intros [= <-]. exists []. now rewrite app_nil_r.
Qed.

(** C9: a [_type] that is falsy (the empty string, 0, false, null, or no
    [_type] at all) makes the check of [_type] push the one error
    'Document is missing required _type field', the same issue as for an
    absent [_type]; that error opens [errors], and it is not the mismatch
    error. *)
Theorem falsy_type_reported_as_missing (h : Host)
  (document : list (JsString * JsValue)) (schemaType : ManifestSchemaType)
  (allTypes : list ManifestSchemaType) (opts : ValidateOptions)
  (r : ValidationResult) :
  truthy (getProp document (js "_type")) = false ->
  validateDocument h document schemaType allTypes opts = Returns r ->
  exists e others,
    checkDocType h (getProp document (js "_type")) schemaType = [e]
    /\ checkDocType h JUndefined schemaType = [e]
    /\ errors r = e :: others
    /\ path e = js "_type"
    /\ severity e = sev_error
    /\ message e = js "Document is missing required _type field"
    /\ includes (message e) (js "does not match") = false.
Proof.
  intros Hfalsy H.
  destruct (validateDocument_returns _ _ _ _ _ _ H) as (raw & Hraw & ->).
  destruct (collectIssues_starts_with_type_check _ _ _ _ _ _ Hraw)
    as (pushed & ->).
  rewrite (checkDocType_falsy h _ schemaType Hfalsy).
  unfold checkDocType. simpl.
  eexists. exists (filter isError pushed).
  repeat split; reflexivity.
Qed.

Lemma falsy_type_reported_as_missing_witness :
  truthy (getProp (Fixture.doc [("_type", Fixture.str "")]%string) (js "_type"))
  = false
  /\ exists r,
       Fixture.run [("_type", Fixture.str "")]%string = Returns r
       /\ exists e others,
            checkDocType ExampleHost.host
              (getProp (Fixture.doc [("_type", Fixture.str "")]%string)
                 (js "_type"))
              Fixture.articleType = [e]
            /\ checkDocType ExampleHost.host JUndefined Fixture.articleType = [e]
            /\ errors r = e :: others
            /\ path e = js "_type"
            /\ severity e = sev_error
            /\ message e = js "Document is missing required _type field"
            /\ includes (message e) (js "does not match") = false.
Proof.
  split; [ reflexivity | ].
  eexists. split; [ reflexivity | ].
  apply (falsy_type_reported_as_missing ExampleHost.host
           (Fixture.doc [("_type", Fixture.str "")]%string)
           Fixture.articleType Fixture.allTypes noOptions _ eq_refl eq_refl).
Defined.

(** C4, as stated, fails: the document [{ _type: '' }] has a [_type], it
    differs from the name of the root type, and no error speaks of a
    mismatch. *)
Lemma empty_type_not_reported_as_mismatch :
  exists v r,
    lookup (Fixture.doc [("_type", Fixture.str "")]%string) (js "_type") = Some v
    /\ strictEqStr v (name Fixture.articleType) = false
    /\ withDefault (stopOnFirstError noOptions) false = false
    /\ Fixture.run [("_type", Fixture.str "")]%string = Returns r
    /\ ~ mismatchReported r.
Proof.
  eexists. eexists.
  split; [ reflexivity | ]. split; [ reflexivity | ].
  split; [ reflexivity | ]. split; [ reflexivity | ].
  intros (e & Hin & Hpath & Hmsg).
  vm_compute in Hin.
  destruct Hin as [<- | [<- | [<- | []]]]; vm_compute in Hpath, Hmsg;
    discriminate.
Qed.

(** C4, amended: with [stopOnFirstError] unset, a [_type] that is absent or
    falsy gives the error 'missing' at path [_type], with the suggestion to
    add it, and [valid] is false; a truthy [_type] that is not the name of the
    root type gives an error at path [_type] that speaks of the mismatch; in
    both cases, and in every other, each declared field of the root type is
    validated and its errors are reported after that of [_type]. *)
Theorem type_check_then_fields (h : Host)
  (document : list (JsString * JsValue)) (schemaType : ManifestSchemaType)
  (allTypes : list ManifestSchemaType) (opts : ValidateOptions)
  (r : ValidationResult) :
  withDefault (stopOnFirstError opts) false = false ->
  validateDocument h document schemaType allTypes opts = Returns r ->
  (truthy (getProp document (js "_type")) = false ->
   valid r = false
   /\ exists e, In e (errors r)
        /\ path e = js "_type"
        /\ message e = js "Document is missing required _type field"
        /\ suggestions e =
             Some [js "Add " ++ dq ++ js "_type" ++ dq ++ js ": " ++ dq
                     ++ name schemaType ++ dq ++ js " to the document"])
  /\ (truthy (getProp document (js "_type")) = true ->
      strictEqStr (getProp document (js "_type")) (name schemaType) = false ->
      valid r = false /\ mismatchReported r)
  /\ exists fieldIssues,
       validateAllFields h document
         (Map_new (map (fun t => (name t, t)) allTypes))
         (match fields schemaType with Some fs => fs | None => [] end) opts
       = Returns fieldIssues
       /\ errors r =
            filter isError
              (checkDocType h (getProp document (js "_type")) schemaType
               ++ fieldIssues).
Proof.
  intros Hstop H.
  destruct (validateDocument_returns _ _ _ _ _ _ H) as (raw & Hraw & ->).
  assert (Hall : exists fieldIssues,
            validateAllFields h document
              (Map_new (map (fun t => (name t, t)) allTypes))
              (match fields schemaType with Some fs => fs | None => [] end) opts
            = Returns fieldIssues
            /\ raw = checkDocType h (getProp document (js "_type")) schemaType
                     ++ fieldIssues).
  { unfold collectIssues in Hraw. rewrite Hstop in Hraw.
    destruct (fields schemaType) as [ fs | ].
    - rewrite validateRootFields_no_break in Hraw.
      destruct (validateAllFields _ _ _ fs opts) as [ fi | e ];
        simpl in Hraw; [ | discriminate ].
      injection Hraw as <-. now exists fi.
    - injection Hraw as <-. exists []. split; [ reflexivity | ].
      now rewrite app_nil_r. }
  destruct Hall as (fieldIssues & Hfields & ->).
  split; [ | split ].
  - intros Hfalsy. unfold checkDocType. rewrite Hfalsy. simpl.
    split; [ reflexivity | ].
    eexists. split; [ now left | ]. repeat split; reflexivity.
  - intros Htruthy Hne. unfold checkDocType. rewrite Htruthy, Hne.
    remember (js "Document type " ++ dq
              ++ toStr h (getProp document (js "_type")) ++ dq
              ++ js " does not match expected type " ++ dq
              ++ name schemaType ++ dq) as msg eqn:Emsg.
    simpl.
    split; [ reflexivity | ].
    eexists. split; [ now left | ]. split; [ reflexivity | ].
    cbn [message]. subst msg.
    replace (js "Document type " ++ dq
             ++ toStr h (getProp document (js "_type")) ++ dq
             ++ js " does not match expected type " ++ dq
             ++ name schemaType ++ dq)
      with ((js "Document type " ++ dq
             ++ toStr h (getProp document (js "_type")) ++ dq)
            ++ js " does not match expected type "
            ++ (dq ++ name schemaType ++ dq))
      by now rewrite <- !app_assoc.
    now apply includes_within.
  - exists fieldIssues. split; [ exact Hfields | reflexivity ].
Qed.

Lemma type_check_then_fields_witness :
  withDefault (stopOnFirstError noOptions) false = false
  /\ exists r,
       Fixture.run [("_type", Fixture.str "post");
                    ("title", Fixture.str "Hello")]%string = Returns r
       /\ valid r = false
       /\ mismatchReported r
       /\ exists fieldIssues,
            validateAllFields ExampleHost.host
              (Fixture.doc [("_type", Fixture.str "post");
                            ("title", Fixture.str "Hello")]%string)
              (Map_new (map (fun t => (name t, t)) Fixture.allTypes))
              (match fields Fixture.articleType with
               | Some fs => fs
               | None => []
               end) noOptions
            = Returns fieldIssues
            /\ errors r =
                 filter isError
                   (checkDocType ExampleHost.host
                      (getProp
                         (Fixture.doc [("_type", Fixture.str "post");
                                       ("title", Fixture.str "Hello")]%string)
                         (js "_type"))
                      Fixture.articleType
                    ++ fieldIssues).
Proof.
  split; [ reflexivity | ].
  eexists. split; [ reflexivity | ].
  destruct (type_check_then_fields ExampleHost.host
              (Fixture.doc [("_type", Fixture.str "post");
                            ("title", Fixture.str "Hello")]%string)
              Fixture.articleType Fixture.allTypes noOptions _ eq_refl eq_refl)
    as (_ & Hmismatch & Hfields).
  destruct (Hmismatch eq_refl eq_refl) as (Hvalid & Hreported).
  split; [ exact Hvalid | ]. split; [ exact Hreported | exact Hfields ].
Defined.

(* ------------------------------------------------------------------ *)
(** ** The report for agents *)


Lemma filter_idempotent {A : Type} (p : A -> bool) (l : list A) :
  filter p (filter p l) = filter p l.
Proof.
  induction l as [ | x l IH ]; simpl; [ reflexivity | ].
  destruct (p x) eqn:E; simpl; [ rewrite E; now f_equal | exact IH ].
Qed.

Lemma filter_disjoint {A : Type} (p q : A -> bool) (l : list A) :
  (forall x, q x = true -> p x = false) -> filter p (filter q l) = [].
Proof.
  intros H. induction l as [ | x l IH ]; simpl; [ reflexivity | ].
  destruct (q x) eqn:E; simpl; [ rewrite (H x E) | ]; exact IH.
Qed.

Lemma errors_are_the_error_issues (schemaType : ManifestSchemaType)
  (opts : ValidateOptions) (raw : list ValidationIssue) :
  filter isError (issues (buildResult schemaType opts raw))
  = errors (buildResult schemaType opts raw).
Proof.
  simpl. rewrite !filter_app, filter_idempotent.
  assert (Hw : forall x, isWarning x = true -> isError x = false)
    by (intros x; unfold isWarning, isError; now destruct (severity x)).
  assert (Hi : forall x, isInfo x = true -> isError x = false)
    by (intros x; unfold isInfo, isError; now destruct (severity x)).
  destruct (withDefault (includeWarnings opts) true),
           (withDefault (includeInfo opts) false);
    simpl; rewrite ?(filter_disjoint isError isWarning raw Hw),
      ?(filter_disjoint isError isInfo raw Hi);
    now rewrite ?app_nil_r.
Qed.

(** C8, as stated, fails: the function copies [result.errors] and never
    looks at a severity, so a result whose [errors] holds a warning, and
    whose issues hold no error, is reported with one error. *)
Lemma formatValidationForAgent_copies_errors :
  List.length (filter isError (issues warningListedAsError)) = 0
  /\ Agent.errorCount (formatValidationForAgent warningListedAsError) = 1
  /\ Agent.errors (formatValidationForAgent warningListedAsError)
     = map entryOf (errors warningListedAsError)
  /\ Agent.errors (formatValidationForAgent warningListedAsError)
     <> map entryOf (filter isError (issues warningListedAsError)).
Proof. repeat split; try reflexivity. discriminate. Qed.

(** C8, amended: for every result, the report carries [valid] and [summary]
    of the result, the length of its [errors], and one entry for each element
    of [errors], in order; an entry carries the path, the message, the
    expected shape and the first suggestion of its issue.  When [errors] is
    the part of [issues] of severity error, as it is in every result that
    [validateDocument] returns, the report counts the issues of severity
    error and holds one entry for each of them and for no other issue. *)
Theorem formatValidationForAgent_reports_errors (result : ValidationResult) :
  formatValidationForAgent result =
  {| Agent.valid := valid result;
     Agent.summary := summary result;
     Agent.errorCount := List.length (errors result);
     Agent.errors := map entryOf (errors result) |}
  /\ (errors result = filter isError (issues result) ->
      formatValidationForAgent result =
      {| Agent.valid := valid result;
         Agent.summary := summary result;
         Agent.errorCount := List.length (filter isError (issues result));
         Agent.errors := map entryOf (filter isError (issues result)) |})
  /\ (forall (h : Host) (document : list (JsString * JsValue))
             (schemaType : ManifestSchemaType)
             (allTypes : list ManifestSchemaType) (opts : ValidateOptions),
        validateDocument h document schemaType allTypes opts = Returns result ->
        errors result = filter isError (issues result)).
Proof.
  assert (Hcopy : formatValidationForAgent result =
                  {| Agent.valid := valid result;
                     Agent.summary := summary result;
                     Agent.errorCount := List.length (errors result);
                     Agent.errors := map entryOf (errors result) |})
    by (unfold formatValidationForAgent; f_equal).
  split; [ exact Hcopy | split ].
  - intros He. rewrite <- He. exact Hcopy.
  - intros h document schemaType allTypes opts H.
    destruct (validateDocument_returns _ _ _ _ _ _ H) as (raw & _ & ->).
    symmetry. apply errors_are_the_error_issues.
Qed.

Lemma formatValidationForAgent_reports_errors_witness :
  exists r,
    Fixture.run [("_type", Fixture.str "article");
                 ("status", Fixture.str "invalid");
                 ("slug", Fixture.obj [("current", Fixture.str "My Slug")])]%string
    = Returns r
    /\ List.length (issues r) = 3
    /\ Agent.errorCount (formatValidationForAgent r) = 2
    /\ errors r = filter isError (issues r)
    /\ formatValidationForAgent r =
       {| Agent.valid := valid r;
          Agent.summary := summary r;
          Agent.errorCount := List.length (filter isError (issues r));
          Agent.errors := map entryOf (filter isError (issues r)) |}.
Proof.
  eexists. split; [ reflexivity | ].
  split; [ reflexivity | ]. split; [ reflexivity | ].
  match goal with
  | |- errors ?r = _ /\ _ =>
      destruct (formatValidationForAgent_reports_errors r)
        as (_ & Hreport & Hsame)
  end.
  assert (He := Hsame ExampleHost.host
                  (Fixture.doc
                     [("_type", Fixture.str "article");
                      ("status", Fixture.str "invalid");
                      ("slug",
                       Fixture.obj [("current", Fixture.str "My Slug")])]%string)
                  Fixture.articleType Fixture.allTypes noOptions eq_refl).
  split; [ exact He | exact (Hreport He) ].
Defined.

(* ------------------------------------------------------------------ *)
(** ** Numbers *)


Lemma find_flag_present (flagName : JsString)
  (rules : list ManifestValidationRule) :
  hasRule flagName rules ->
  exists r, find (fun r => str_eqb (flag r) flagName) rules = Some r.
Proof.
  intros (r & Hin & Hflag).
  destruct (find (fun r => str_eqb (flag r) flagName) rules) as [ r' | ] eqn:E.
  - now exists r'.
  - exfalso. pose proof (find_none _ _ E r Hin) as Hn. simpl in Hn.
    rewrite Hflag, str_eqb_refl in Hn. discriminate.
Qed.

Lemma fractional_not_integer (x : JsNumber) :
  hasFractionalPart x -> Number_isInteger x = false.
Proof.
  destruct x as [ s | s | | s m e ]; simpl; try contradiction.
  intros [He Hndiv].
  apply orb_false_iff. split.
  - apply Z.leb_gt. exact He.
  - apply Z.eqb_neq. intros Hmod. apply Hndiv.
    apply Z.mod_divide; [ | exact Hmod ].
    apply Z.pow_nonzero; lia.
Qed.

Lemma num_le_zero_iff_not_positive (n : JsNumber) :
  Number_isNaN n = false -> num_le n numZero = negb (num_gt n numZero).
Proof.
  destruct n as [ s | s | | s m e ]; simpl; try discriminate; intros _;
    try destruct s; reflexivity.
Qed.

(** For a field of kind [number] and a present value the structural check
    is [validateNumber]. *)
Lemma validateField_number (h : Host) (v : JsValue) (f : ManifestField)
  (p : JsString) (typeMap : TypeMap) (opts : ValidateOptions) :
  type f = js "number" ->
  isNullish v = false ->
  validateField h v f p typeMap opts =
  (ofRules <-
     applyValidationRules h v (getValidationRules f) p f (fieldContextOf f) ;;
   Returns
     (validateNumber h v f p (getValidationRules f) (fieldContextOf f)
      ++ ofRules)).
Proof.
  intros Ht Hn. rewrite validateField_unfold. unfold validateFieldBody.
  rewrite Hn, andb_false_r, Ht. reflexivity.
Qed.

(** C5, as stated, fails: Infinity is not a finite numeric value, and a
    number field without rules accepts it without an issue. *)
Lemma infinity_accepted_as_number :
  isFiniteNumber (JNum numInfinity) = false
  /\ validateNumber ExampleHost.host (JNum numInfinity)
       (Fixture.fieldOf "number" "rating" "Rating" []) (js "rating") []
       (fieldContextOf (Fixture.fieldOf "number" "rating" "Rating" [])) = []
  /\ validateField ExampleHost.host (JNum numInfinity)
       (Fixture.fieldOf "number" "rating" "Rating" []) (js "rating") []
       noOptions = Returns [].
Proof. repeat split; reflexivity. Qed.

(** C5, amended: every issue of [validateNumber] is an error at the path of
    the field; a value that is not a number, or is NaN, gets the one error
    'Expected number', and any other number (Infinity and -Infinity among
    them) gets no such error; for such a number, an [integer] rule gives an
    error when the value has a fractional part, a [positive] rule gives its
    error exactly when the value is not [> 0], every issue is one of these
    two, and without the two rules there is no issue. *)
Theorem validateNumber_checks (h : Host) (v : JsValue) (f : ManifestField)
  (p : JsString) (rules : list ManifestValidationRule) (ctx : FieldContext) :
  Forall (fun e => path e = p /\ severity e = sev_error)
    (validateNumber h v f p rules ctx)
  /\ (isNumberNotNaN v = false ->
      exists e, validateNumber h v f p rules ctx = [e]
                /\ message e = js "Expected number, got " ++ typeof v)
  /\ (isNumberNotNaN v = true ->
      forall e, In e (validateNumber h v f p rules ctx) ->
                message e <> js "Expected number, got " ++ typeof v)
  /\ (forall n, v = JNum n -> Number_isNaN n = false ->
      (hasRule (js "integer") rules -> hasFractionalPart n ->
       exists e, In e (validateNumber h v f p rules ctx)
                 /\ message e = js "Expected integer, got decimal")
      /\ (hasRule (js "positive") rules ->
          ((exists e, In e (validateNumber h v f p rules ctx)
                      /\ message e = js "Expected positive number")
           <-> num_gt n numZero = false))
      /\ (forall e, In e (validateNumber h v f p rules ctx) ->
            (message e = js "Expected integer, got decimal"
             /\ hasRule (js "integer") rules
             /\ Number_isInteger n = false)
            \/ (message e = js "Expected positive number"
                /\ hasRule (js "positive") rules
                /\ num_gt n numZero = false))
      /\ (~ hasRule (js "integer") rules -> ~ hasRule (js "positive") rules ->
          validateNumber h v f p rules ctx = [])).
Proof.
  assert (Hrules : forall n, v = JNum n -> Number_isNaN n = false ->
            forall e, In e (validateNumber h v f p rules ctx) ->
              (message e = js "Expected integer, got decimal"
               /\ hasRule (js "integer") rules
               /\ Number_isInteger n = false)
              \/ (message e = js "Expected positive number"
                  /\ hasRule (js "positive") rules
                  /\ num_gt n numZero = false)).
  { intros n -> Hnan e. unfold validateNumber. rewrite Hnan.
    intros Hin. apply in_app_or in Hin as [Hin | Hin].
    - destruct (find _ rules) as [ r | ] eqn:Er; [ | destruct Hin ].
      destruct (Number_isInteger n) eqn:Ei; [ destruct Hin | ].
      destruct Hin as [<- | []]. left.
      apply find_some in Er as [Hr Hflag]. apply str_eqb_eq in Hflag.
      split; [ reflexivity | ]. split; [ now exists r | reflexivity ].
    - destruct (find _ rules) as [ r | ] eqn:Er; [ | destruct Hin ].
      rewrite (num_le_zero_iff_not_positive _ Hnan) in Hin.
      destruct (num_gt n numZero) eqn:Eg; [ destruct Hin | ].
      destruct Hin as [<- | []]. right.
      apply find_some in Er as [Hr Hflag]. apply str_eqb_eq in Hflag.
      split; [ reflexivity | ]. split; [ now exists r | reflexivity ]. }
  split; [ | split; [ | split ] ].
  - unfold validateNumber.
    destruct v as [ | | b | n | s | items | props ];
      try (constructor; [ now split | constructor ]).
    destruct (Number_isNaN n); [ constructor; [ now split | constructor ] | ].
    apply Forall_app. split.
    + destruct (find _ rules); [ | constructor ].
      destruct (negb (Number_isInteger n)); repeat constructor.
    + destruct (find _ rules); [ | constructor ].
      destruct (num_le n numZero); repeat constructor.
  - intros Hnot. unfold validateNumber.
    destruct v as [ | | b | n | s | items | props ];
      try (eexists; split; reflexivity).
    simpl in Hnot. apply negb_false_iff in Hnot. rewrite Hnot.
    eexists; split; reflexivity.
  - intros Hnum e Hin Hmsg.
    destruct v as [ | | b | n | s | items | props ]; try discriminate.
    simpl in Hnum. apply negb_true_iff in Hnum.
    destruct (Hrules n eq_refl Hnum e Hin) as [(Hm & _) | (Hm & _)];
      rewrite Hm in Hmsg; vm_compute in Hmsg; discriminate.
  - intros n Hv Hnan. split; [ | split; [ | split ] ].
    + subst v. unfold validateNumber. rewrite Hnan.
      intros Hrule Hfrac.
      destruct (find_flag_present _ _ Hrule) as [r ->].
      rewrite (fractional_not_integer _ Hfrac). simpl.
      eexists. split; [ now left | reflexivity ].
    + subst v. unfold validateNumber. rewrite Hnan.
      intros Hrule.
      destruct (find_flag_present _ _ Hrule) as [r ->].
      rewrite (num_le_zero_iff_not_positive _ Hnan).
      destruct (num_gt n numZero); simpl; split.
      * intros (e & Hin & Hmsg). apply in_app_or in Hin as [Hin | []].
        destruct (find _ rules); [ | destruct Hin ].
        destruct (negb (Number_isInteger n)); [ | destruct Hin ].
        destruct Hin as [<- | []]. vm_compute in Hmsg. discriminate.
      * discriminate.
      * reflexivity.
      * intros _. eexists. split; [ apply in_or_app; right; now left | ].
        reflexivity.
    + exact (Hrules n Hv Hnan).
    + intros Hni Hnp.
      destruct (validateNumber h v f p rules ctx) as [ | e out ] eqn:E;
        [ reflexivity | ].
      exfalso.
      destruct (Hrules n Hv Hnan e (or_introl eq_refl))
        as [(_ & Hr & _) | (_ & Hr & _)];
        [ exact (Hni Hr) | exact (Hnp Hr) ].
Qed.

Lemma validateNumber_checks_witness :
  hasRule (js "integer") [Fixture.rule "integer" None]
  /\ hasFractionalPart (binary_normalize prec64 emax64 3 (-1) false)
  /\ isNumberNotNaN (Fixture.str "five") = false
  /\ isNumberNotNaN (JNum (S754_infinity false)) = true
  /\ isNumberNotNaN (JNum (S754_infinity true)) = true
  /\ (exists e,
        In e (validateNumber ExampleHost.host
                (JNum (binary_normalize prec64 emax64 3 (-1) false))
                (Fixture.fieldOf "number" "rating" "Rating" []) (js "rating")
                [Fixture.rule "integer" None]
                (fieldContextOf (Fixture.fieldOf "number" "rating" "Rating" [])))
        /\ message e = js "Expected integer, got decimal")
  /\ (exists e,
        validateNumber ExampleHost.host (Fixture.str "five")
          (Fixture.fieldOf "number" "rating" "Rating" []) (js "rating") []
          (fieldContextOf (Fixture.fieldOf "number" "rating" "Rating" [])) = [e]
        /\ message e = js "Expected number, got " ++ typeof (Fixture.str "five"))
  /\ validateNumber ExampleHost.host (JNum (S754_infinity false))
       (Fixture.fieldOf "number" "rating" "Rating" []) (js "rating") []
       (fieldContextOf (Fixture.fieldOf "number" "rating" "Rating" [])) = []
  /\ validateNumber ExampleHost.host (JNum (S754_infinity true))
       (Fixture.fieldOf "number" "rating" "Rating" []) (js "rating") []
       (fieldContextOf (Fixture.fieldOf "number" "rating" "Rating" [])) = []
  /\ (forall e,
        In e (validateNumber ExampleHost.host (JNum (S754_infinity true))
                (Fixture.fieldOf "number" "rating" "Rating" []) (js "rating")
                [Fixture.rule "positive" None]
                (fieldContextOf (Fixture.fieldOf "number" "rating" "Rating" []))) ->
        message e <> js "Expected number, got "
                     ++ typeof (JNum (S754_infinity true))).
Proof.
  assert (Hrule : hasRule (js "integer") [Fixture.rule "integer" None]).
  { eexists. split; [ now left | reflexivity ]. }
  assert (Hfrac : hasFractionalPart (binary_normalize prec64 emax64 3 (-1) false)).
  { split; [ reflexivity | ]. intros Hd.
    apply Z.mod_divide in Hd; [ vm_compute in Hd | vm_compute ]; discriminate. }
  assert (Hnone : forall flagName, ~ hasRule flagName []).
  { intros flagName (r & [] & _). }
  split; [ exact Hrule | ]. split; [ exact Hfrac | ]. split; [ reflexivity | ].
  split; [ reflexivity | ]. split; [ reflexivity | ].
  split; [ | split; [ | split; [ | split ] ] ].
  - destruct (validateNumber_checks ExampleHost.host
                (JNum (binary_normalize prec64 emax64 3 (-1) false))
                (Fixture.fieldOf "number" "rating" "Rating" []) (js "rating")
                [Fixture.rule "integer" None]
                (fieldContextOf (Fixture.fieldOf "number" "rating" "Rating" [])))
      as (_ & _ & _ & Hnum).
    destruct (Hnum _ eq_refl eq_refl) as (Hint & _).
    exact (Hint Hrule Hfrac).
  - destruct (validateNumber_checks ExampleHost.host (Fixture.str "five")
                (Fixture.fieldOf "number" "rating" "Rating" []) (js "rating") []
                (fieldContextOf (Fixture.fieldOf "number" "rating" "Rating" [])))
      as (_ & Htype & _).
    exact (Htype eq_refl).
  - destruct (validateNumber_checks ExampleHost.host (JNum (S754_infinity false))
                (Fixture.fieldOf "number" "rating" "Rating" []) (js "rating") []
                (fieldContextOf (Fixture.fieldOf "number" "rating" "Rating" [])))
      as (_ & _ & _ & Hnum).
    destruct (Hnum _ eq_refl eq_refl) as (_ & _ & _ & Hempty).
    exact (Hempty (Hnone _) (Hnone _)).
  - destruct (validateNumber_checks ExampleHost.host (JNum (S754_infinity true))
                (Fixture.fieldOf "number" "rating" "Rating" []) (js "rating") []
                (fieldContextOf (Fixture.fieldOf "number" "rating" "Rating" [])))
      as (_ & _ & _ & Hnum).
    destruct (Hnum _ eq_refl eq_refl) as (_ & _ & _ & Hempty).
    exact (Hempty (Hnone _) (Hnone _)).
  - destruct (validateNumber_checks ExampleHost.host (JNum (S754_infinity true))
                (Fixture.fieldOf "number" "rating" "Rating" []) (js "rating")
                [Fixture.rule "positive" None]
                (fieldContextOf (Fixture.fieldOf "number" "rating" "Rating" [])))
      as (_ & _ & Hpass & _).
    exact (Hpass eq_refl).
Defined.

(* ------------------------------------------------------------------ *)
(** ** Slugs *)


Lemma alnum_not_hyphen (c : N) : isSlugAlnum c = true -> isHyphen c = false.
Proof.
  unfold isSlugAlnum, isHyphen, inRange, code. simpl. intros H.
  apply N.eqb_neq. intros ->. vm_compute in H. discriminate.
Qed.

Lemma squeezeHyphens_cons2 (c d : N) (s : JsString) :
  squeezeHyphens (c :: d :: s) =
  if isHyphen c && isHyphen d then squeezeHyphens (d :: s)
  else c :: squeezeHyphens (d :: s).
Proof. reflexivity. Qed.

Lemma replaceRuns_squeeze (s : JsString) :
  replaceRuns false s = squeezeHyphens (hyphenate s)
  /\ code "-" :: replaceRuns true s = squeezeHyphens (code "-" :: hyphenate s).
Proof.
  induction s as [ | c s [IHf IHt] ].
  - split; reflexivity.
  - cbn [replaceRuns hyphenate map]. fold (hyphenate s).
    destruct (isSlugAlnum c) eqn:Ec.
    + assert (Hf : c :: replaceRuns false s = squeezeHyphens (c :: hyphenate s)).
      { rewrite IHf. destruct (hyphenate s) as [ | d t ]; [ reflexivity | ].
        rewrite squeezeHyphens_cons2.
        now rewrite (alnum_not_hyphen _ Ec). }
      split; [ exact Hf | ].
      rewrite squeezeHyphens_cons2, (alnum_not_hyphen _ Ec), andb_false_r.
      now rewrite Hf.
    + split; [ exact IHt | ].
      rewrite squeezeHyphens_cons2. exact IHt.
Qed.

Lemma noDoubleHyphen_cons2 (c d : N) (s : JsString) :
  noDoubleHyphen (c :: d :: s) =
  negb (isHyphen c && isHyphen d) && noDoubleHyphen (d :: s).
Proof. reflexivity. Qed.

Lemma replaceRuns_noDoubleHyphen (s : JsString) :
  noDoubleHyphen (replaceRuns false s) = true
  /\ noDoubleHyphen (code "-" :: replaceRuns true s) = true.
Proof.
  induction s as [ | c s [IHf IHt] ].
  - split; reflexivity.
  - cbn [replaceRuns]. destruct (isSlugAlnum c) eqn:Ec.
    + assert (Hf : noDoubleHyphen (c :: replaceRuns false s) = true).
      { destruct (replaceRuns false s) as [ | d t ]; [ reflexivity | ].
        rewrite noDoubleHyphen_cons2, (alnum_not_hyphen _ Ec). exact IHf. }
      split; [ exact Hf | ].
      rewrite noDoubleHyphen_cons2, (alnum_not_hyphen _ Ec), andb_false_r.
      exact Hf.
    + split; exact IHt.
Qed.

Lemma dropLastHyphen_cons2 (c d : N) (s : JsString) :
  dropLastHyphen (c :: d :: s) = c :: dropLastHyphen (d :: s).
Proof. reflexivity. Qed.

Lemma dropLastHyphen_keeps_head (c : N) (s : JsString) :
  isHyphen c = false -> exists t, dropLastHyphen (c :: s) = c :: t.
Proof.
  intros Hc. destruct s as [ | d s ].
  - simpl. rewrite Hc. now exists [].
  - rewrite dropLastHyphen_cons2. now eexists.
Qed.

Lemma dropLastHyphen_trailing (s : JsString) :
  noDoubleHyphen s = true -> dropLastHyphen s = dropTrailingHyphens s.
Proof.
  induction s as [ | c s IH ]; [ reflexivity | ].
  destruct s as [ | d s ]; [ intros _; reflexivity | ].
  rewrite noDoubleHyphen_cons2. intros H.
  apply andb_true_iff in H as [Hcd Hrest].
  rewrite dropLastHyphen_cons2.
  change (dropTrailingHyphens (c :: d :: s))
    with (match dropTrailingHyphens (d :: s) with
          | [] => if isHyphen c then [] else [c]
          | _ => c :: dropTrailingHyphens (d :: s)
          end).
  rewrite <- (IH Hrest).
  destruct (isHyphen d) eqn:Ed.
  - rewrite andb_true_r in Hcd. apply negb_true_iff in Hcd. rewrite Hcd.
    now destruct (dropLastHyphen (d :: s)).
  - destruct (dropLastHyphen_keeps_head d s Ed) as [t ->]. reflexivity.
Qed.

(** The two [replace] calls of the source compute the normalized slug. *)
Lemma slugSuggestion_normalizes (h : Host) (s : JsString) :
  slugSuggestion h s = normalizedSlug h s.
Proof.
  unfold slugSuggestion, normalizedSlug, replaceNonAlnumRuns.
  destruct (replaceRuns_squeeze (String_toLowerCase h s)) as [<- _].
  destruct (replaceRuns_noDoubleHyphen (String_toLowerCase h s)) as [Hno _].
  destruct (replaceRuns false (String_toLowerCase h s)) as [ | c t ];
    [ reflexivity | ].
  unfold stripEdgeHyphen. cbn [dropLeadingHyphens].
  destruct (isHyphen c) eqn:Ec.
  - destruct t as [ | d t ]; [ reflexivity | ].
    rewrite noDoubleHyphen_cons2, Ec in Hno. simpl in Hno.
    apply andb_true_iff in Hno as [Hd Hrest]. apply negb_true_iff in Hd.
    cbn [dropLeadingHyphens]. rewrite Hd.
    now apply dropLastHyphen_trailing.
  - now apply dropLastHyphen_trailing.
Qed.

(** *** The pattern of a well-formed slug *)


Lemma void_not_nullable (r : Re) : void r = true -> nullable r = false.
Proof.
  induction r as [ | | p | r1 IH1 r2 IH2 | r1 IH1 r2 IH2 | r IH ]; simpl;
    try discriminate; auto; intros H.
  - apply orb_true_iff in H as [H | H];
      [ rewrite (IH1 H) | rewrite (IH2 H), andb_false_r ]; reflexivity.
  - apply andb_true_iff in H as [H1 H2]. now rewrite (IH1 H1), (IH2 H2).
Qed.

Lemma void_deriv (c : N) (r : Re) : void r = true -> void (deriv c r) = true.
Proof.
  induction r as [ | | p | r1 IH1 r2 IH2 | r1 IH1 r2 IH2 | r IH ]; simpl;
    try discriminate; auto; intros H.
  - apply orb_true_iff in H as [H | H].
    + rewrite (void_not_nullable _ H). simpl. now rewrite (IH1 H).
    + destruct (nullable r1); simpl; rewrite H, ?(IH2 H), ?orb_true_r;
        reflexivity.
  - apply andb_true_iff in H as [H1 H2]. now rewrite (IH1 H1), (IH2 H2).
Qed.

Lemma void_matches (s : JsString) :
  forall r, void r = true -> matches r s = false.
Proof.
  induction s as [ | c s IH ]; intros r H; simpl.
  - now apply void_not_nullable.
  - apply IH. now apply void_deriv.
Qed.

Lemma deriv_outside_classes (c : N) (r : Re) :
  allows r c = false -> void (deriv c r) = true.
Proof.
  induction r as [ | | p | r1 IH1 r2 IH2 | r1 IH1 r2 IH2 | r IH ]; simpl;
    auto; intros H.
  - now rewrite H.
  - apply orb_false_iff in H as [H1 H2].
    destruct (nullable r1); simpl; now rewrite (IH1 H1), ?(IH2 H2).
  - apply orb_false_iff in H as [H1 H2]. now rewrite (IH1 H1), (IH2 H2).
  - now rewrite (IH H).
Qed.

Lemma allows_deriv (c d : N) (r : Re) :
  allows (deriv c r) d = true -> allows r d = true.
Proof.
  induction r as [ | | p | r1 IH1 r2 IH2 | r1 IH1 r2 IH2 | r IH ]; simpl;
    try discriminate; intros H.
  - destruct (p c); simpl in H; discriminate.
  - destruct (nullable r1); simpl in H;
      repeat (apply orb_true_iff in H as [H | H]);
      apply orb_true_iff; auto.
  - apply orb_true_iff in H as [H | H]; apply orb_true_iff; auto.
  - apply orb_true_iff in H as [H | H]; auto.
Qed.

(** A string that matches [r] is made of code units that [r] allows. *)
Lemma matches_allows (s : JsString) :
  forall r, matches r s = true -> forall c, In c s -> allows r c = true.
Proof.
  induction s as [ | d s IH ]; intros r H c Hin; [ destruct Hin | ].
  simpl in H. destruct Hin as [<- | Hin].
  - destruct (allows r d) eqn:E; [ reflexivity | ].
    rewrite (void_matches s _ (deriv_outside_classes _ _ E)) in H.
    discriminate.
  - eapply allows_deriv, IH; eauto.
Qed.

Lemma slugPattern_rejects (s : JsString) :
  (exists c, In c s /\ isSlugAlnum c = false /\ isHyphen c = false) ->
  matches slugPattern s = false.
Proof.
  intros (c & Hin & Ha & Hh).
  destruct (matches slugPattern s) eqn:E; [ | reflexivity ].
  pose proof (matches_allows s slugPattern E c Hin) as H.
  simpl in H. rewrite Ha, Hh in H. discriminate.
Qed.

Lemma forEach_returns {A : Type} (P : ValidationIssue -> Prop) (xs : list A)
  (body : A -> Outcome (list ValidationIssue)) :
  (forall x, In x xs -> exists out, body x = Returns out /\ Forall P out) ->
  exists out, forEach xs body = Returns out /\ Forall P out.
Proof.
  induction xs as [ | x xs IH ]; intros H.
  - exists []. split; [ reflexivity | constructor ].
  - destruct (H x (or_introl eq_refl)) as (o1 & E1 & F1).
    destruct IH as (o2 & E2 & F2).
    { intros y Hy. apply H. now right. }
    exists (o1 ++ o2). rewrite forEach_cons, E1, E2. simpl.
    split; [ reflexivity | ]. apply Forall_app. now split.
Qed.

(** On an object no rule finds anything to measure or to match: the only
    issue a rule can push is the note about [custom]. *)
Lemma applyRule_on_object (h : Host) (props : list (JsString * JsValue))
  (p : JsString) (ctx : FieldContext) (r : ManifestValidationRule) :
  exists out,
    applyRule h (JObj props) p ctx r = Returns out
    /\ Forall (fun i => severity i = sev_info) out.
Proof.
  unfold applyRule.
  repeat match goal with
         | |- context [if ?b then _ else _] => destruct b
         end;
    eexists; (split; [ reflexivity | repeat constructor ]).
Qed.

Lemma validateFieldBody_slug (h : Host)
  (recur : JsValue -> ManifestField -> JsString
           -> Outcome (list ValidationIssue))
  (v : JsValue) (f : ManifestField) (p : JsString) (typeMap : TypeMap)
  (opts : ValidateOptions) :
  type f = js "slug" ->
  isNullish v = false ->
  validateFieldBody h recur v f p typeMap opts =
  (ofRules <-
     applyValidationRules h v (getValidationRules f) p f (fieldContextOf f) ;;
   Returns
     (validateSlug h v f p (getValidationRules f) (fieldContextOf f) ++ ofRules)).
Proof.
  intros Ht Hn. unfold validateFieldBody.
  rewrite Hn, andb_false_r, Ht. reflexivity.
Qed.

(** C6: a slug whose [current] is a string holding a code unit outside
    lowercase letters, digits and hyphens gets a warning at [path.current]
    whose first suggestion proposes the normalized slug; the field gets no
    error: what else is reported for it is of severity info. *)
Theorem slug_format_is_a_warning (h : Host) (f : ManifestField)
  (fieldPath : JsString) (typeMap : TypeMap) (opts : ValidateOptions)
  (props : list (JsString * JsValue)) (current : JsString) :
  type f = js "slug" ->
  lookup props (js "current") = Some (JStr current) ->
  (exists c, In c current /\ isSlugAlnum c = false /\ isHyphen c = false) ->
  exists w notes,
    validateField h (JObj props) f fieldPath typeMap opts = Returns (w :: notes)
    /\ path w = fieldPath ++ js ".current"
    /\ severity w = sev_warning
    /\ firstSuggestion w = Some (js "Use: " ++ dq ++ normalizedSlug h current ++ dq)
    /\ Forall (fun i => severity i = sev_info) notes.
Proof.
  intros Htype Hcur Hbad.
  rewrite validateField_unfold.
  rewrite validateFieldBody_slug; [ | exact Htype | reflexivity ].
  destruct (forEach_returns (fun i => severity i = sev_info)
              (getValidationRules f)
              (applyRule h (JObj props) fieldPath (fieldContextOf f)))
    as (notes & Hnotes & Hinfo).
  { intros r _. apply applyRule_on_object. }
  unfold applyValidationRules. rewrite Hnotes. cbn [bind].
  unfold validateSlug. cbn [isObjectLike negb get]. unfold getProp.
  rewrite Hcur.
  destruct current as [ | c0 cs ].
  { destruct Hbad as (c & [] & _). }
  rewrite (slugPattern_rejects _ Hbad). cbn [negb app].
  eexists. exists notes. split; [ reflexivity | ].
  cbn [path severity]. unfold firstSuggestion. cbn [suggestions].
  rewrite slugSuggestion_normalizes. now repeat split.
Qed.

Lemma slug_format_is_a_warning_witness :
  type (Fixture.fieldOf "slug" "slug" "Slug" [Fixture.required]) = js "slug"
  /\ lookup (Fixture.doc [("current", Fixture.str "Hello World!")]%string)
       (js "current") = Some (JStr (js "Hello World!"))
  /\ (exists c, In c (js "Hello World!")
                /\ isSlugAlnum c = false /\ isHyphen c = false)
  /\ normalizedSlug ExampleHost.host (js "Hello World!") = js "hello-world"
  /\ exists w notes,
       validateField ExampleHost.host
         (JObj (Fixture.doc [("current", Fixture.str "Hello World!")]%string))
         (Fixture.fieldOf "slug" "slug" "Slug" [Fixture.required])
         (js "slug") [] noOptions = Returns (w :: notes)
       /\ path w = js "slug" ++ js ".current"
       /\ severity w = sev_warning
       /\ firstSuggestion w =
            Some (js "Use: " ++ dq
                  ++ normalizedSlug ExampleHost.host (js "Hello World!") ++ dq)
       /\ Forall (fun i => severity i = sev_info) notes.
Proof.
  assert (Hbad : exists c, In c (js "Hello World!")
                           /\ isSlugAlnum c = false /\ isHyphen c = false).
  { exists (code " "). split; [ | split; reflexivity ].
    vm_compute. tauto. }
  split; [ reflexivity | ]. split; [ reflexivity | ].
  split; [ exact Hbad | ]. split; [ reflexivity | ].
  apply (slug_format_is_a_warning ExampleHost.host
           (Fixture.fieldOf "slug" "slug" "Slug" [Fixture.required])
           (js "slug") [] noOptions
           (Fixture.doc [("current", Fixture.str "Hello World!")]%string)
           (js "Hello World!") eq_refl eq_refl Hbad).
Defined.

(* ================================================================== *)
(** * Further properties of the validator and of the helpers *)

(** ** Loops, once more *)

Lemma forEach_member {A : Type} (xs : list A)
  (body : A -> Outcome (list ValidationIssue)) (out : list ValidationIssue) :
  forEach xs body = Returns out ->
  forall x, In x xs ->
  exists pushed, body x = Returns pushed /\ incl pushed out.
Proof.
  revert out. induction xs as [ | y xs IH ]; intros out H x Hin;
    [ destruct Hin | ].
  rewrite forEach_cons in H.
  destruct (body y) as [ o1 | e ] eqn:E1; simpl in H; [ | discriminate ].
  destruct (forEach xs body) as [ o2 | e ] eqn:E2; simpl in H; [ | discriminate ].
  injection H as <-. destruct Hin as [<- | Hin].
  - exists o1. split; [ exact E1 | ]. apply incl_appl, incl_refl.
  - destruct (IH o2 eq_refl x Hin) as (pushed & Hb & Hincl).
    exists pushed. split; [ exact Hb | ]. now apply incl_appr.
Qed.

Lemma forEach_flat_map {A : Type} (xs : list A)
  (body : A -> Outcome (list ValidationIssue))
  (g : A -> list ValidationIssue) :
  (forall x, In x xs -> body x = Returns (g x)) ->
  forEach xs body = Returns (flat_map g xs).
Proof.
  induction xs as [ | x xs IH ]; intros H; [ reflexivity | ].
  rewrite forEach_cons, (H x (or_introl eq_refl)), IH.
  - reflexivity.
  - intros y Hy. apply H. now right.
Qed.

(** ** Required fields, as the helpers and as the validator see them *)

Lemma strictEq_string (v : JsValue) (s : JsString) :
  strictEq v (JStr s) = strictEqStr v s.
Proof. destruct v; reflexivity. Qed.

(** [isFieldRequired] of src/helpers.ts and the test that [validateField]
    makes inline decide the same. *)
Lemma isFieldRequired_agrees (f : ManifestSchemaType) :
  isFieldRequired f = isRequired (getValidationRules f).
Proof.
  unfold isFieldRequired, hasValidationRule, isRequired.
  induction (getValidationRules f) as [ | r rs IH ]; [ reflexivity | ].
  cbn [existsb]. rewrite IH, strictEq_string. f_equal.
  destruct (str_eqb (flag r) (js "presence")); [ | reflexivity ].
  now destruct (strictEqStr (constraintOf r) (js "required")).
Qed.

Lemma validateField_nullish (h : Host) (v : JsValue) (f : ManifestField)
  (p : JsString) (typeMap : TypeMap) (opts : ValidateOptions) :
  isNullish v = true ->
  validateField h v f p typeMap opts =
  Returns (if isFieldRequired f then [requiredIssue v f p] else []).
Proof.
  intros Hn. rewrite validateField_unfold. unfold validateFieldBody.
  rewrite Hn, andb_true_r, isFieldRequired_agrees.
  now destruct (isRequired (getValidationRules f)).
Qed.

(** X1: with [stopOnFirstError] unset, every field that [getRequiredFields]
    lists and whose value in the document is undefined or null is reported:
    its required error is among the errors of the result. *)
Theorem missing_required_fields_reported (h : Host)
  (document : list (JsString * JsValue)) (schemaType : ManifestSchemaType)
  (allTypes : list ManifestSchemaType) (opts : ValidateOptions)
  (r : ValidationResult) (f : ManifestField) :
  withDefault (stopOnFirstError opts) false = false ->
  validateDocument h document schemaType allTypes opts = Returns r ->
  In f (getRequiredFields schemaType) ->
  isNullish (getProp document (name f)) = true ->
  In (requiredIssue (getProp document (name f)) f (name f)) (errors r).
Proof.
  intros Hstop H Hreq Hnull.
  destruct (validateDocument_returns _ _ _ _ _ _ H) as (raw & Hraw & ->).
  unfold getRequiredFields in Hreq.
  unfold collectIssues in Hraw. rewrite Hstop in Hraw.
  destruct (fields schemaType) as [ fs | ]; [ | destruct Hreq ].
  apply filter_In in Hreq as [Hin Hrequired].
  rewrite validateRootFields_no_break in Hraw.
  destruct (validateAllFields _ _ _ fs opts) as [ fi | e ] eqn:Efi;
    simpl in Hraw; [ | discriminate ].
  injection Hraw as <-.
  destruct (forEach_member _ _ _ Efi f Hin) as (pushed & Hpushed & Hincl).
  rewrite (validateField_nullish _ _ _ _ _ _ Hnull), Hrequired in Hpushed.
  injection Hpushed as <-.
  simpl. apply filter_In. split; [ | reflexivity ].
  apply in_or_app. right. apply Hincl. now left.
Qed.

Lemma missing_required_fields_reported_witness :
  withDefault (stopOnFirstError noOptions) false = false
  /\ In (Fixture.fieldOf "slug" "slug" "Slug" [Fixture.required])
       (getRequiredFields Fixture.articleType)
  /\ exists r,
       Fixture.run [("_type", Fixture.str "article")]%string = Returns r
       /\ In (requiredIssue JUndefined
                (Fixture.fieldOf "slug" "slug" "Slug" [Fixture.required])
                (js "slug"))
            (errors r).
Proof.
  assert (Hin : In (Fixture.fieldOf "slug" "slug" "Slug" [Fixture.required])
                  (getRequiredFields Fixture.articleType)).
  { vm_compute. right. left. reflexivity. }
  split; [ reflexivity | ]. split; [ exact Hin | ].
  eexists. split; [ reflexivity | ].
  apply (missing_required_fields_reported ExampleHost.host
           (Fixture.doc [("_type", Fixture.str "article")]%string)
           Fixture.articleType Fixture.allTypes noOptions _
           (Fixture.fieldOf "slug" "slug" "Slug" [Fixture.required])
           eq_refl eq_refl Hin eq_refl).
Defined.

Lemma flat_map_optional {A B : Type} (keep : A -> bool) (g : A -> B)
  (xs : list A) :
  flat_map (fun x => if keep x then [g x] else []) xs = map g (filter keep xs).
Proof.
  induction xs as [ | x xs IH ]; simpl; [ reflexivity | ].
  destruct (keep x); simpl; now rewrite IH.
Qed.

(** X2: a document that holds nothing but the right [_type] gets, with
    [stopOnFirstError] unset, exactly one required error for each field that
    [getRequiredFields] lists, in declaration order, and no other issue, when
    no field of the type is named [_type] or like a member of
    [Object.prototype] (the read [document[field.name]] would find that
    member). *)
Theorem document_with_only_type (h : Host) (schemaType : ManifestSchemaType)
  (allTypes : list ManifestSchemaType) (opts : ValidateOptions) :
  withDefault (stopOnFirstError opts) false = false ->
  name schemaType <> [] ->
  (forall f, In f (match fields schemaType with Some fs => fs | None => [] end) ->
             name f <> js "_type") ->
  (forall f, In f (match fields schemaType with Some fs => fs | None => [] end) ->
             inheritedKey (name f) = false) ->
  validateDocument h [(js "_type", JStr (name schemaType))] schemaType allTypes
    opts
  = Returns
      (buildResult schemaType opts
         (map (fun f => requiredIssue JUndefined f (name f))
              (getRequiredFields schemaType))).
Proof.
  intros Hstop Hname Hfields _.
  unfold validateDocument, collectIssues, getRequiredFields. rewrite Hstop.
  assert (Hcheck : checkDocType h
                     (getProp [(js "_type", JStr (name schemaType))] (js "_type"))
                     schemaType = []).
  { unfold checkDocType, getProp. cbn [lookup].
    rewrite str_eqb_refl. unfold strictEqStr. rewrite str_eqb_refl.
    destruct (name schemaType) as [ | c t ]; [ contradiction | reflexivity ]. }
  rewrite Hcheck.
  destruct (fields schemaType) as [ fs | ]; [ | reflexivity ].
  rewrite validateRootFields_no_break. unfold validateAllFields.
  rewrite (forEach_flat_map fs _
             (fun f => if isFieldRequired f
                       then [requiredIssue JUndefined f (name f)] else [])).
  - simpl. now rewrite flat_map_optional.
  - intros f Hin.
    assert (Hread : getProp [(js "_type", JStr (name schemaType))] (name f)
                    = JUndefined).
    { unfold getProp. cbn [lookup].
      destruct (str_eqb (js "_type") (name f)) eqn:E; [ | reflexivity ].
      apply str_eqb_eq in E. exfalso. now apply (Hfields f Hin). }
    rewrite Hread. now apply validateField_nullish.
Qed.

Lemma document_with_only_type_witness :
  withDefault (stopOnFirstError noOptions) false = false
  /\ name Fixture.articleType <> []
  /\ List.length (getRequiredFields Fixture.articleType) = 2
  /\ forallb (fun f => negb (inheritedKey (name f)))
       (match fields Fixture.articleType with Some fs => fs | None => [] end)
     = true
  /\ validateDocument ExampleHost.host
       [(js "_type", JStr (name Fixture.articleType))] Fixture.articleType
       Fixture.allTypes noOptions
     = Returns
         (buildResult Fixture.articleType noOptions
            (map (fun f => requiredIssue JUndefined f (name f))
                 (getRequiredFields Fixture.articleType))).
Proof.
  assert (Hname : name Fixture.articleType <> []) by discriminate.
  split; [ reflexivity | ]. split; [ exact Hname | ]. split; [ reflexivity | ].
  split; [ reflexivity | ].
  apply (document_with_only_type ExampleHost.host Fixture.articleType
           Fixture.allTypes noOptions eq_refl Hname).
  - intros f Hin Hf. vm_compute in Hin.
    repeat (destruct Hin as [<- | Hin]; [ vm_compute in Hf; discriminate | ]).
    destruct Hin.
  - intros f Hin. vm_compute in Hin.
    repeat (destruct Hin as [<- | Hin]; [ reflexivity | ]).
    destruct Hin.
Defined.

(** ** [stopOnFirstError] *)

Lemma checkDocType_issue_is_error (h : Host) (docType : JsValue)
  (schemaType : ManifestSchemaType) :
  checkDocType h docType schemaType <> [] ->
  existsb isError (checkDocType h docType schemaType) = true.
Proof.
  unfold checkDocType.
  destruct (negb (truthy docType)); [ reflexivity | ].
  destruct (negb (strictEqStr docType (name schemaType)));
    [ reflexivity | intros H; now contradiction H ].
Qed.

Lemma validateRootFields_break (h : Host)
  (document : list (JsString * JsValue)) (rootFields : list ManifestField)
  (typeMap : TypeMap) (opts : ValidateOptions)
  (issues : list ValidationIssue) :
  existsb isError issues = true ->
  validateRootFields h document rootFields typeMap opts true issues
  = Returns issues.
Proof.
  intros H. destruct rootFields as [ | f rest ]; [ reflexivity | ].
  rewrite validateRootFields_cons, H. reflexivity.
Qed.

(** X3: with [stopOnFirstError] set, a document whose [_type] is missing or
    wrong gets that one error and nothing else: no field is looked at, so the
    call returns whatever the fields hold.  The message of a wrong [_type]
    quotes the value, which has to be one that ToString returns on. *)
Theorem stopOnFirstError_type_error_ends_validation (h : Host)
  (document : list (JsString * JsValue)) (schemaType : ManifestSchemaType)
  (allTypes : list ManifestSchemaType) (opts : ValidateOptions) :
  stopOnFirstError opts = Some true ->
  stringifies (getProp document (js "_type")) = true ->
  checkDocType h (getProp document (js "_type")) schemaType <> [] ->
  validateDocument h document schemaType allTypes opts
  = Returns
      (buildResult schemaType opts
         (checkDocType h (getProp document (js "_type")) schemaType)).
Proof.
  intros Hstop _ Hcheck. unfold validateDocument, collectIssues.
  rewrite Hstop. simpl withDefault.
  destruct (fields schemaType) as [ fs | ]; [ | reflexivity ].
  rewrite validateRootFields_break; [ reflexivity | ].
  now apply checkDocType_issue_is_error.
Qed.

Lemma stopOnFirstError_type_error_ends_validation_witness :
  stringifies
    (getProp
       (Fixture.doc [("_type", Fixture.str "post");
                     ("body", Fixture.obj [("children", JArr [JNull])])]%string)
       (js "_type")) = true
  /\ validateDocument ExampleHost.host
       (Fixture.doc [("_type", Fixture.str "post");
                     ("body", Fixture.obj [("children", JArr [JNull])])]%string)
       BlockDocument.pageType [BlockDocument.pageType]
       (withInclusion
          {| includeWarnings := None; includeInfo := None;
             stopOnFirstError := Some true; resolveReference := None |}
          None None)
     = Returns
         (buildResult BlockDocument.pageType
            (withInclusion
               {| includeWarnings := None; includeInfo := None;
                  stopOnFirstError := Some true; resolveReference := None |}
               None None)
            (checkDocType ExampleHost.host (JStr (js "post"))
               BlockDocument.pageType))
  /\ validateDocument ExampleHost.host
       (Fixture.doc [("body", Fixture.obj [("children", JArr [JNull])])]%string)
       BlockDocument.pageType [BlockDocument.pageType]
       (withInclusion
          {| includeWarnings := None; includeInfo := None;
             stopOnFirstError := Some true; resolveReference := None |}
          None None)
     = Returns
         (buildResult BlockDocument.pageType
            (withInclusion
               {| includeWarnings := None; includeInfo := None;
                  stopOnFirstError := Some true; resolveReference := None |}
               None None)
            (checkDocType ExampleHost.host JUndefined BlockDocument.pageType)).
Proof.
  split; [ reflexivity | split ].
  - apply (stopOnFirstError_type_error_ends_validation ExampleHost.host
             (Fixture.doc
                [("_type", Fixture.str "post");
                 ("body", Fixture.obj [("children", JArr [JNull])])]%string)
             BlockDocument.pageType [BlockDocument.pageType]
             (withInclusion
                {| includeWarnings := None; includeInfo := None;
                   stopOnFirstError := Some true; resolveReference := None |}
                None None)
             eq_refl eq_refl).
    discriminate.
  - apply (stopOnFirstError_type_error_ends_validation ExampleHost.host
             (Fixture.doc
                [("body", Fixture.obj [("children", JArr [JNull])])]%string)
             BlockDocument.pageType [BlockDocument.pageType]
             (withInclusion
                {| includeWarnings := None; includeInfo := None;
                   stopOnFirstError := Some true; resolveReference := None |}
                None None)
             eq_refl eq_refl).
    discriminate.
Defined.

Lemma no_error_filter (l : list ValidationIssue) :
  existsb isError l = false -> filter isError l = [].
Proof.
  induction l as [ | i l IH ]; simpl; [ reflexivity | ].
  destruct (isError i); simpl; [ discriminate | exact IH ].
Qed.

Lemma validateRootFields_single_source (h : Host)
  (document : list (JsString * JsValue)) (typeMap : TypeMap)
  (opts : ValidateOptions) (rootFields : list ManifestField) :
  forall issues raw,
    existsb isError issues = false ->
    validateRootFields h document rootFields typeMap opts true issues
    = Returns raw ->
    filter isError raw = []
    \/ exists f fieldIssues,
         In f rootFields
         /\ validateField h (getProp document (name f)) f (name f) typeMap opts
            = Returns fieldIssues
         /\ filter isError raw = filter isError fieldIssues.
Proof.
  induction rootFields as [ | f rest IH ]; intros issues raw Hclean H.
  - injection H as <-. left. now apply no_error_filter.
  - rewrite validateRootFields_cons, Hclean in H. simpl in H.
    destruct (validateField h _ f _ typeMap opts) as [ fi | e ] eqn:Ef;
      simpl in H; [ | discriminate ].
    destruct (existsb isError (issues ++ fi)) eqn:Enext.
    + rewrite (validateRootFields_break _ _ _ _ _ _ Enext) in H.
      injection H as <-. right. exists f, fi.
      split; [ now left | ]. split; [ exact Ef | ].
      now rewrite filter_app, (no_error_filter _ Hclean).
    + destruct (IH _ _ Enext H) as [Hnone | (g & gi & Hin & Hg & Heq)].
      * now left.
      * right. exists g, gi. split; [ now right | ]. now split.
Qed.

(** X4: with [stopOnFirstError] set, the errors of a result have one source:
    they are those of the check of [_type], or those of a single field of the
    root type (the first that has any); fields after it are not validated. *)
Theorem stopOnFirstError_single_source (h : Host)
  (document : list (JsString * JsValue)) (schemaType : ManifestSchemaType)
  (allTypes : list ManifestSchemaType) (opts : ValidateOptions)
  (r : ValidationResult) :
  stopOnFirstError opts = Some true ->
  validateDocument h document schemaType allTypes opts = Returns r ->
  errors r = []
  \/ errors r = checkDocType h (getProp document (js "_type")) schemaType
  \/ exists f fieldIssues,
       In f (match fields schemaType with Some fs => fs | None => [] end)
       /\ validateField h (getProp document (name f)) f (name f)
            (Map_new (map (fun t => (name t, t)) allTypes)) opts
          = Returns fieldIssues
       /\ errors r = filter isError fieldIssues.
Proof.
  intros Hstop H.
  destruct (validateDocument_returns _ _ _ _ _ _ H) as (raw & Hraw & ->).
  simpl. unfold collectIssues in Hraw. rewrite Hstop in Hraw.
  simpl withDefault in Hraw.
  destruct (existsb isError
              (checkDocType h (getProp document (js "_type")) schemaType))
    eqn:Etype.
  - right. left.
    assert (raw = checkDocType h (getProp document (js "_type")) schemaType)
      as ->.
    { destruct (fields schemaType).
      - rewrite (validateRootFields_break _ _ _ _ _ _ Etype) in Hraw.
        now injection Hraw.
      - now injection Hraw. }
    unfold checkDocType in *.
    destruct (negb (truthy (getProp document (js "_type"))));
      [ reflexivity | ].
    destruct (negb (strictEqStr (getProp document (js "_type"))
                      (name schemaType))); [ reflexivity | discriminate ].
  - destruct (fields schemaType) as [ fs | ].
    + destruct (validateRootFields_single_source _ _ _ _ _ _ _ Etype Hraw)
        as [Hnone | Hfield]; [ now left | right; now right ].
    + injection Hraw as <-. left. now apply no_error_filter.
Qed.

Lemma stopOnFirstError_single_source_witness :
  exists r,
    validateDocument ExampleHost.host
      (Fixture.doc [("_type", Fixture.str "article");
                    ("rating", Fixture.str "five")]%string)
      Fixture.articleType Fixture.allTypes
      (withInclusion
         {| includeWarnings := None; includeInfo := None;
            stopOnFirstError := Some true; resolveReference := None |}
         None None)
    = Returns r
    /\ List.length (errors r) = 1
    /\ (errors r = []
        \/ errors r = checkDocType ExampleHost.host
                        (getProp
                           (Fixture.doc [("_type", Fixture.str "article");
                                         ("rating", Fixture.str "five")]%string)
                           (js "_type"))
                        Fixture.articleType
        \/ exists f fieldIssues,
             In f (match fields Fixture.articleType with
                   | Some fs => fs
                   | None => []
                   end)
             /\ validateField ExampleHost.host
                  (getProp
                     (Fixture.doc [("_type", Fixture.str "article");
                                   ("rating", Fixture.str "five")]%string)
                     (name f))
                  f (name f)
                  (Map_new (map (fun t => (name t, t)) Fixture.allTypes))
                  (withInclusion
                     {| includeWarnings := None; includeInfo := None;
                        stopOnFirstError := Some true;
                        resolveReference := None |}
                     None None)
                = Returns fieldIssues
             /\ errors r = filter isError fieldIssues).
Proof.
  eexists. split; [ reflexivity | ]. split; [ reflexivity | ].
  apply (stopOnFirstError_single_source ExampleHost.host
           (Fixture.doc [("_type", Fixture.str "article");
                         ("rating", Fixture.str "five")]%string)
           Fixture.articleType Fixture.allTypes
           (withInclusion
              {| includeWarnings := None; includeInfo := None;
                 stopOnFirstError := Some true; resolveReference := None |}
              None None)
           _ eq_refl eq_refl).
Defined.

(** ** Where issues are located *)

Lemma under_weaken (p x : JsString) (i : ValidationIssue) :
  under (p ++ x) i -> under p i.
Proof. intros [s Hs]. exists (x ++ s). now rewrite Hs, app_assoc. Qed.

Lemma Forall_under_weaken (p x : JsString) (l : list ValidationIssue) :
  Forall (under (p ++ x)) l -> Forall (under p) l.
Proof. apply Forall_impl. intros i. apply under_weaken. Qed.

Ltac under_tac :=
  repeat match goal with
         | |- Forall _ [] => constructor
         | |- Forall _ (_ :: _) => constructor
         | |- Forall _ (_ ++ _) => apply Forall_app; split
         | |- Forall _ (if ?b then _ else _) => destruct b
         | |- Forall _ (match ?x with _ => _ end) => destruct x
         | |- under _ _ =>
             first [ exists []; cbn [path]; symmetry; apply app_nil_r
                   | eexists; cbn [path]; reflexivity ]
         end.

Lemma forEach_forall {A : Type} (P : ValidationIssue -> Prop) (xs : list A)
  (body : A -> Outcome (list ValidationIssue)) (out : list ValidationIssue) :
  (forall x o, In x xs -> body x = Returns o -> Forall P o) ->
  forEach xs body = Returns out -> Forall P out.
Proof.
  revert out. induction xs as [ | x xs IH ]; intros out Hb H.
  - injection H as <-. constructor.
  - rewrite forEach_cons in H.
    destruct (body x) as [ o1 | e ] eqn:E1; simpl in H; [ | discriminate ].
    destruct (forEach xs body) as [ o2 | e ] eqn:E2; simpl in H;
      [ | discriminate ].
    injection H as <-. apply Forall_app. split.
    + apply (Hb x o1 (or_introl eq_refl) E1).
    + apply IH; [ | reflexivity ]. intros y o Hy. apply Hb. now right.
Qed.

Lemma forEachIndexed_forall {A : Type} (P : ValidationIssue -> Prop)
  (xs : list A) :
  forall (i : nat) (body : nat -> A -> Outcome (list ValidationIssue))
         (out : list ValidationIssue),
    (forall j x o, In x xs -> body j x = Returns o -> Forall P o) ->
    forEachIndexed i xs body = Returns out -> Forall P out.
Proof.
  induction xs as [ | x xs IH ]; intros i body out Hb H.
  - injection H as <-. constructor.
  - rewrite forEachIndexed_cons in H.
    destruct (body i x) as [ o1 | e ] eqn:E1; simpl in H; [ | discriminate ].
    destruct (forEachIndexed (S i) xs body) as [ o2 | e ] eqn:E2; simpl in H;
      [ | discriminate ].
    injection H as <-. apply Forall_app. split.
    + apply (Hb i x o1 (or_introl eq_refl) E1).
    + apply (IH (S i) body); [ | exact E2 ].
      intros j y o Hy. apply Hb. now right.
Qed.

Section Located.

Variable h : Host.

Lemma validateString_under (v : JsValue) (f : ManifestField) (p : JsString)
  (rules : list ManifestValidationRule) (ctx : FieldContext)
  (out : list ValidationIssue) :
  validateString h v f p rules ctx = Returns out -> Forall (under p) out.
Proof.
  unfold validateString. intros H.
  destruct v; try (injection H as <-; under_tac).
  destruct (match options f with
            | Some opts => getProp opts (js "list")
            | None => JUndefined
            end); try (injection H as <-; under_tac).
  match type of H with
  | (x <- ?m ;; _) = _ => destruct m; simpl in H; [ | discriminate ]
  end.
  destruct (negb _) in H; injection H as <-; under_tac.
Qed.

Lemma validateNumber_under (v : JsValue) (f : ManifestField) (p : JsString)
  (rules : list ManifestValidationRule) (ctx : FieldContext) :
  Forall (under p) (validateNumber h v f p rules ctx).
Proof. unfold validateNumber. under_tac. Qed.

Lemma validateBoolean_under (v : JsValue) (p : JsString) (ctx : FieldContext) :
  Forall (under p) (validateBoolean v p ctx).
Proof. unfold validateBoolean. under_tac. Qed.

Lemma validateDate_under (v : JsValue) (f : ManifestField) (p : JsString)
  (ctx : FieldContext) :
  Forall (under p) (validateDate h v f p ctx).
Proof. unfold validateDate. under_tac. Qed.

Lemma validateReference_under (v : JsValue) (f : ManifestField) (p : JsString)
  (ctx : FieldContext) :
  Forall (under p) (validateReference h v f p ctx).
Proof. unfold validateReference. under_tac. Qed.

Lemma validateSlug_under (v : JsValue) (f : ManifestField) (p : JsString)
  (rules : list ManifestValidationRule) (ctx : FieldContext) :
  Forall (under p) (validateSlug h v f p rules ctx).
Proof. unfold validateSlug. under_tac. Qed.

Lemma validateUrl_under (v : JsValue) (p : JsString)
  (rules : list ManifestValidationRule) (ctx : FieldContext) :
  Forall (under p) (validateUrl h v p rules ctx).
Proof. unfold validateUrl. under_tac. Qed.

Lemma validateBlock_under (v : JsValue) (f : ManifestField) (p : JsString)
  (typeMap : TypeMap) (opts : ValidateOptions) (ctx : FieldContext)
  (out : list ValidationIssue) :
  validateBlock v f p typeMap opts ctx = Returns out -> Forall (under p) out.
Proof.
  unfold validateBlock. intros H.
  destruct (negb (isObjectLike v)); [ injection H as <-; under_tac | ].
  destruct (get v (js "children")); try (injection H as <-; under_tac).
  match type of H with
  | (x <- ?m ;; _) = _ => destruct m eqn:E; simpl in H; [ | discriminate ]
  end.
  injection H as <-. apply Forall_app. split; [ under_tac | ].
  eapply forEachIndexed_forall; [ | exact E ].
  intros j c o _ Hc. simpl in Hc.
  destruct (isNullish c); [ discriminate | ]. injection Hc as <-.
  apply Forall_under_weaken with (x := js ".children[" ++ showNat j ++ js "]").
  under_tac.
Qed.

Lemma applyRule_under (v : JsValue) (p : JsString) (ctx : FieldContext)
  (r : ManifestValidationRule) (out : list ValidationIssue) :
  applyRule h v p ctx r = Returns out -> Forall (under p) out.
Proof.
  unfold applyRule, applyMin, applyMax, applyLength, applyRegex. intros H.
  repeat match type of H with
         | (if ?b then _ else _) = _ => destruct b
         | match ?x with _ => _ end = _ => destruct x
         end;
    try discriminate; injection H as <-; under_tac.
Qed.

Lemma applyValidationRules_under (v : JsValue)
  (rules : list ManifestValidationRule) (p : JsString) (f : ManifestField)
  (ctx : FieldContext) (out : list ValidationIssue) :
  applyValidationRules h v rules p f ctx = Returns out -> Forall (under p) out.
Proof.
  unfold applyValidationRules. apply forEach_forall.
  intros r o _. apply applyRule_under.
Qed.

Lemma validateFieldAbsent_under (f : ManifestField) (p : JsString)
  (out : list ValidationIssue) :
  validateFieldAbsent f p = Returns out -> Forall (under p) out.
Proof.
  unfold validateFieldAbsent. intros H.
  destruct (isRequired _); injection H as <-; under_tac.
Qed.

End Located.

Section LocatedRecursion.

Variable h : Host.
Variable recur :
  JsValue -> ManifestField -> JsString -> Outcome (list ValidationIssue).

Lemma validateProp_under (container : JsValue) (g : ManifestField)
  (q : JsString) (out : list ValidationIssue) :
  (forall c, child c container -> locates recur c) ->
  validateProp recur container g q = Returns out -> Forall (under q) out.
Proof.
  intros Hc H. unfold validateProp in H.
  destruct container; try (now apply validateFieldAbsent_under in H).
  rewrite withProp_lookup in H.
  destruct (lookup props (name g)) as [ v | ] eqn:E.
  - refine (Hc v _ g q out H). simpl. eapply lookup_In, E.
  - now apply validateFieldAbsent_under in H.
Qed.

Lemma nested_fields_under (container : JsValue) (fs : list ManifestField)
  (p : JsString) (out : list ValidationIssue) :
  (forall c, child c container -> locates recur c) ->
  forEach fs (fun g => validateProp recur container g (p ++ js "." ++ name g))
  = Returns out ->
  Forall (under p) out.
Proof.
  intros Hc. apply forEach_forall. intros g o _ Hg.
  apply Forall_under_weaken with (x := js "." ++ name g).
  now apply (validateProp_under container g).
Qed.

Lemma validateObject_under (v : JsValue) (f : ManifestSchemaType)
  (p : JsString) (typeMap : TypeMap) (opts : ValidateOptions)
  (ctx : FieldContext) (out : list ValidationIssue) :
  (forall c, child c v -> locates recur c) ->
  validateObject recur v f p typeMap opts ctx = Returns out ->
  Forall (under p) out.
Proof.
  intros Hc H. unfold validateObject in H.
  destruct v; try (injection H as <-; under_tac).
  destruct (fields f); [ | injection H as <-; constructor ].
  now apply (nested_fields_under (JObj props) l).
Qed.

Lemma validateAsset_under (v : JsValue) (f : ManifestField) (p : JsString)
  (typeMap : TypeMap) (opts : ValidateOptions) (ctx : FieldContext)
  (out : list ValidationIssue) :
  (forall c, child c v -> locates recur c) ->
  validateAsset recur v f p typeMap opts ctx = Returns out ->
  Forall (under p) out.
Proof.
  intros Hc H. unfold validateAsset in H.
  destruct (negb (isObjectLike v)); [ injection H as <-; under_tac | ].
  destruct (fields f) as [ fs | ].
  - match type of H with
    | (x <- ?m ;; _) = _ => destruct m eqn:E; simpl in H; [ | discriminate ]
    end.
    injection H as <-. apply Forall_app. split; [ under_tac | ].
    now apply (nested_fields_under v fs).
  - injection H as <-. under_tac.
Qed.

Lemma validateArray_under (v : JsValue) (f : ManifestField) (p : JsString)
  (typeMap : TypeMap) (opts : ValidateOptions) (ctx : FieldContext)
  (out : list ValidationIssue) :
  (forall item, child item v -> forall c, child c item -> locates recur c) ->
  validateArray h recur v f p typeMap opts ctx = Returns out ->
  Forall (under p) out.
Proof.
  intros Hg H. unfold validateArray in H.
  destruct v; try (injection H as <-; under_tac).
  eapply forEachIndexed_forall; [ | exact H ].
  intros j item o Hitem Ho. cbv beta in Ho.
  apply Forall_under_weaken with (x := js "[" ++ showNat j ++ js "]").
  match type of Ho with
  | (x <- ?m ;; _) = _ => destruct m eqn:E; simpl in Ho; [ | discriminate ]
  end.
  injection Ho as <-. apply Forall_app. split; [ under_tac | ].
  destruct (isObjectLike item && hasKey item (js "_type")).
  - destruct (find _ _); [ | injection E as <-; under_tac ].
    destruct (match TypeMap_get typeMap (get item (js "_type")) with
              | Some memberTypeDef => fields memberTypeDef
              | None => member_fields m
              end) as [ fs | ]; [ | injection E as <-; constructor ].
    apply (nested_fields_under item fs _ _ (Hg item Hitem) E).
  - repeat match type of E with
           | (if ?b then _ else _) = _ => destruct b
           | match ?x with _ => _ end = _ => destruct x
           end;
      injection E as <-; under_tac.
Qed.

Lemma validateFieldBody_under (v : JsValue) (f : ManifestField) (p : JsString)
  (typeMap : TypeMap) (opts : ValidateOptions) (out : list ValidationIssue) :
  (forall c, child c v -> locates recur c) ->
  (forall item, child item v -> forall c, child c item -> locates recur c) ->
  validateFieldBody h recur v f p typeMap opts = Returns out ->
  Forall (under p) out.
Proof.
  intros Hc Hg H. unfold validateFieldBody in H.
  destruct (isRequired _ && isNullish v); [ injection H as <-; under_tac | ].
  destruct (isNullish v); [ injection H as <-; constructor | ].
  match type of H with
  | (x <- ?m ;; _) = _ => destruct m as [ structural | e ] eqn:Es;
                          simpl in H; [ | discriminate ]
  end.
  destruct (applyValidationRules h v _ p f _) as [ ofRules | e ] eqn:Er;
    simpl in H; [ | discriminate ].
  injection H as <-. apply Forall_app. split;
    [ | now apply applyValidationRules_under in Er ].
  repeat match type of Es with
         | (if ?b then _ else _) = _ => destruct b
         end;
    try (injection Es as <-);
    eauto using validateString_under, validateNumber_under,
      validateBoolean_under, validateDate_under, validateReference_under,
      validateSlug_under, validateUrl_under, validateBlock_under,
      validateArray_under, validateObject_under, validateAsset_under.
  destruct (Map_get typeMap (type f)) as [ customType | ];
    [ | injection Es as <-; constructor ].
  destruct (str_eqb (type customType) (js "object"));
    [ | injection Es as <-; constructor ].
  destruct (fields customType) eqn:E; [ | injection Es as <-; constructor ].
  eauto using validateObject_under.
Qed.

End LocatedRecursion.

Lemma validateField_under (h : Host) (typeMap : TypeMap)
  (opts : ValidateOptions) (v : JsValue) (f : ManifestField) (p : JsString)
  (out : list ValidationIssue) :
  validateField h v f p typeMap opts = Returns out -> Forall (under p) out.
Proof.
  set (recur := fun c g q => validateField h c g q typeMap opts).
  enough (H : locates recur v /\ forall c, child c v -> locates recur c)
    by (destruct H as [H _]; apply H).
  clear f p out.
  assert (Hstep : forall w,
            (forall c, child c w -> locates recur c) ->
            (forall item, child item w ->
                          forall c, child c item -> locates recur c) ->
            locates recur w).
  { intros w Hc Hg g q out H. unfold recur in H.
    rewrite validateField_unfold in H.
    now apply (validateFieldBody_under h recur w g q typeMap opts). }
  induction v as [ | | b | n | s | items IH | props IH ]
    using JsValue_nested_ind.
  1-5: (split; [ apply Hstep | ]; intros c []).
  - rewrite Forall_forall in IH.
    assert (Hc : forall c, child c (JArr items) -> locates recur c)
      by (intros c Hin; exact (proj1 (IH c Hin))).
    split; [ | exact Hc ]. apply Hstep; [ exact Hc | ].
    intros item Hitem c Hchild. exact (proj2 (IH item Hitem) c Hchild).
  - rewrite Forall_forall in IH.
    assert (Hc : forall c, child c (JObj props) -> locates recur c)
      by (intros c [k Hin]; exact (proj1 (IH (k, c) Hin))).
    split; [ | exact Hc ]. apply Hstep; [ exact Hc | ].
    intros item [k Hitem] c Hchild. exact (proj2 (IH (k, item) Hitem) c Hchild).
Qed.

Lemma validateRootFields_located (h : Host)
  (document : list (JsString * JsValue)) (typeMap : TypeMap)
  (opts : ValidateOptions) (stop : bool) (rootFields : list ManifestField) :
  forall issues raw,
    validateRootFields h document rootFields typeMap opts stop issues
    = Returns raw ->
    exists pushed,
      raw = issues ++ pushed
      /\ Forall (fun i => exists f, In f rootFields /\ under (name f) i) pushed.
Proof.
  induction rootFields as [ | f rest IH ]; intros issues raw H.
  - injection H as <-. exists []. split; [ now rewrite app_nil_r | constructor ].
  - rewrite validateRootFields_cons in H.
    destruct (stop && existsb isError issues).
    + injection H as <-. exists [].
      split; [ now rewrite app_nil_r | constructor ].
    + destruct (validateField h _ f _ typeMap opts) as [ fi | e ] eqn:Ef;
        simpl in H; [ | discriminate ].
      destruct (IH _ _ H) as (pushed & -> & Hpushed).
      exists (fi ++ pushed). split; [ now rewrite app_assoc | ].
      apply Forall_app. split.
      * apply validateField_under in Ef.
        revert Ef. apply Forall_impl. intros i Hi. exists f.
        split; [ now left | exact Hi ].
      * revert Hpushed. apply Forall_impl. intros i (g & Hg & Hi).
        exists g. split; [ now right | exact Hi ].
Qed.

Lemma issues_from_collected (schemaType : ManifestSchemaType)
  (opts : ValidateOptions) (raw : list ValidationIssue) (i : ValidationIssue) :
  In i (issues (buildResult schemaType opts raw)) -> In i raw.
Proof.
  simpl. intros H.
  repeat (apply in_app_or in H as [H | H]);
    repeat match type of H with
           | In _ (if ?b then _ else _) => destruct b
           end;
    try (now apply filter_In in H); destruct H.
Qed.

(** X5: every issue of a result is located: it is the issue at path [_type],
    or its path extends the name of a field declared on the root type.  Inside
    a field, every issue that [validateField] returns for a path extends that
    path, for nested objects, array items, assets and blocks alike. *)
Theorem issues_located_under_declared_fields (h : Host)
  (document : list (JsString * JsValue)) (schemaType : ManifestSchemaType)
  (allTypes : list ManifestSchemaType) (opts : ValidateOptions)
  (r : ValidationResult) :
  validateDocument h document schemaType allTypes opts = Returns r ->
  forall i, In i (issues r) ->
    path i = js "_type"
    \/ exists f,
         In f (match fields schemaType with Some fs => fs | None => [] end)
         /\ under (name f) i.
Proof.
  intros H i Hi.
  destruct (validateDocument_returns _ _ _ _ _ _ H) as (raw & Hraw & ->).
  apply issues_from_collected in Hi.
  assert (Htype : forall j,
            In j (checkDocType h (getProp document (js "_type")) schemaType) ->
            path j = js "_type").
  { intros j Hj. unfold checkDocType in Hj.
    destruct (negb (truthy _)) in Hj; [ destruct Hj as [<- | []]; reflexivity | ].
    destruct (negb (strictEqStr _ _)) in Hj; [ | destruct Hj ].
    destruct Hj as [<- | []]. reflexivity. }
  unfold collectIssues in Hraw.
  destruct (fields schemaType) as [ fs | ].
  - destruct (validateRootFields_located _ _ _ _ _ _ _ _ Hraw)
      as (pushed & -> & Hpushed).
    apply in_app_or in Hi as [Hi | Hi]; [ left; now apply Htype | right ].
    rewrite Forall_forall in Hpushed. now apply Hpushed.
  - injection Hraw as <-. left. now apply Htype.
Qed.

Lemma issues_located_under_declared_fields_witness :
  exists r,
    Fixture.run
      [("title", Fixture.str "Hello");
       ("mainImage", Fixture.obj [("asset", Fixture.obj [])])]%string
    = Returns r
    /\ List.length (issues r) = 4
    /\ forall i, In i (issues r) ->
         path i = js "_type"
         \/ exists f,
              In f (match fields Fixture.articleType with
                    | Some fs => fs
                    | None => []
                    end)
              /\ under (name f) i.
Proof.
  eexists. split; [ reflexivity | ]. split; [ reflexivity | ].
  apply (issues_located_under_declared_fields ExampleHost.host
           (Fixture.doc
              [("title", Fixture.str "Hello");
               ("mainImage", Fixture.obj [("asset", Fixture.obj [])])]%string)
           Fixture.articleType Fixture.allTypes noOptions _ eq_refl).
Defined.

(** ** Nested fields *)

Lemma validateField_object (h : Host) (v : JsValue) (f : ManifestField)
  (p : JsString) (typeMap : TypeMap) (opts : ValidateOptions) :
  type f = js "object" ->
  isNullish v = false ->
  validateField h v f p typeMap opts =
  (structural <-
     validateObject (fun c g q => validateField h c g q typeMap opts)
       v f p typeMap opts (fieldContextOf f) ;;
   ofRules <-
     applyValidationRules h v (getValidationRules f) p f (fieldContextOf f) ;;
   Returns (structural ++ ofRules)).
Proof.
  intros Ht Hn. rewrite validateField_unfold. unfold validateFieldBody.
  rewrite Hn, andb_false_r, Ht. reflexivity.
Qed.

Lemma validateField_asset (h : Host) (v : JsValue) (f : ManifestField)
  (p : JsString) (typeMap : TypeMap) (opts : ValidateOptions) :
  type f = js "image" \/ type f = js "file" ->
  isNullish v = false ->
  validateField h v f p typeMap opts =
  (structural <-
     validateAsset (fun c g q => validateField h c g q typeMap opts)
       v f p typeMap opts (fieldContextOf f) ;;
   ofRules <-
     applyValidationRules h v (getValidationRules f) p f (fieldContextOf f) ;;
   Returns (structural ++ ofRules)).
Proof.
  intros Ht Hn. rewrite validateField_unfold. unfold validateFieldBody.
  rewrite Hn, andb_false_r. destruct Ht as [-> | ->]; reflexivity.
Qed.

Lemma nested_required_in_loop (h : Host) (typeMap : TypeMap)
  (opts : ValidateOptions) (props : list (JsString * JsValue))
  (fs : list ManifestField) (p : JsString) (g : ManifestField)
  (nested : list ValidationIssue) :
  forEach fs (fun g =>
    validateProp (fun c g q => validateField h c g q typeMap opts)
      (JObj props) g (p ++ js "." ++ name g)) = Returns nested ->
  In g fs ->
  isFieldRequired g = true ->
  isNullish (getProp props (name g)) = true ->
  In (requiredIssue (getProp props (name g)) g (p ++ js "." ++ name g)) nested.
Proof.
  intros H Hin Hreq Hnull.
  destruct (forEach_member _ _ _ H g Hin) as (pushed & Hpushed & Hincl).
  rewrite validateProp_read in Hpushed. simpl get in Hpushed.
  rewrite (validateField_nullish _ _ _ _ _ _ Hnull), Hreq in Hpushed.
  injection Hpushed as <-. apply Hincl. now left.
Qed.

(** X6: a field of kind object, image or file whose value is an object
    reports every declared sub-field that is required and absent (or null) in
    that object, with a required error at [path.name]; for an image or a file
    this holds whatever the state of the asset reference. *)
Theorem nested_required_field_reported (h : Host)
  (props : list (JsString * JsValue)) (f : ManifestField) (p : JsString)
  (typeMap : TypeMap) (opts : ValidateOptions) (fs : list ManifestField)
  (g : ManifestField) (out : list ValidationIssue) :
  type f = js "object" \/ type f = js "image" \/ type f = js "file" ->
  fields f = Some fs ->
  In g fs ->
  isFieldRequired g = true ->
  isNullish (getProp props (name g)) = true ->
  validateField h (JObj props) f p typeMap opts = Returns out ->
  In (requiredIssue (getProp props (name g)) g (p ++ js "." ++ name g)) out.
Proof.
  intros Hkind Hfs Hin Hreq Hnull H.
  destruct Hkind as [Ht | Ht].
  - rewrite (validateField_object h (JObj props) f p typeMap opts Ht eq_refl)
      in H.
    unfold validateObject in H. rewrite Hfs in H.
    match type of H with
    | (x <- ?m ;; _) = _ => destruct m as [ nested | e ] eqn:E;
                            simpl in H; [ | discriminate ]
    end.
    destruct (applyValidationRules h _ _ p f _) as [ ofRules | e ];
      simpl in H; [ | discriminate ].
    injection H as <-. apply in_or_app. left.
    now apply (nested_required_in_loop h typeMap opts props fs p g).
  - rewrite (validateField_asset h (JObj props) f p typeMap opts Ht eq_refl)
      in H.
    unfold validateAsset in H. rewrite Hfs in H.
    cbn [isObjectLike negb] in H.
    match type of H with
    | (x <- (y <- ?m ;; _) ;; _) = _ =>
        destruct m as [ nested | e ] eqn:E; simpl in H; [ | discriminate ]
    end.
    destruct (applyValidationRules h _ _ p f _) as [ ofRules | e ];
      simpl in H; [ | discriminate ].
    injection H as <-. apply in_or_app. left. apply in_or_app. right.
    now apply (nested_required_in_loop h typeMap opts props fs p g).
Qed.

Lemma nested_required_field_reported_witness :
  exists out,
    validateField ExampleHost.host
      (Fixture.obj [("asset", Fixture.obj [("_ref", Fixture.str "image-123")])]%string)
      {| type := js "image"; name := js "mainImage"; title := None;
         fields := Some [Fixture.fieldOf "string" "alt" "Alt Text"
                           [Fixture.required]];
         of_ := None; to := None; validation := None; options := None |}
      (js "mainImage") [] noOptions = Returns out
    /\ List.length out = 1
    /\ In (requiredIssue JUndefined
             (Fixture.fieldOf "string" "alt" "Alt Text" [Fixture.required])
             (js "mainImage" ++ js "." ++ js "alt"))
          out.
Proof.
  eexists. split; [ reflexivity | ]. split; [ reflexivity | ].
  apply (nested_required_field_reported ExampleHost.host
           (Fixture.doc [("asset", Fixture.obj [("_ref", Fixture.str "image-123")])]%string)
           {| type := js "image"; name := js "mainImage"; title := None;
              fields := Some [Fixture.fieldOf "string" "alt" "Alt Text"
                                [Fixture.required]];
              of_ := None; to := None; validation := None; options := None |}
           (js "mainImage") [] noOptions
           [Fixture.fieldOf "string" "alt" "Alt Text" [Fixture.required]]
           (Fixture.fieldOf "string" "alt" "Alt Text" [Fixture.required])
           _ (or_intror (or_introl eq_refl)) eq_refl (or_introl eq_refl)
           eq_refl eq_refl eq_refl).
Defined.

(** ** Dropdown values *)

Lemma validValues_of_list (items : list JsValue) :
  (forall item, In item items -> item <> JNull) ->
  (fix each (items : list JsValue) : Outcome (list JsValue) :=
     match items with
     | [] => Returns []
     | item :: rest =>
         v <- match item with
              | JNull => Throws TypeError
              | JArr _ | JObj _ => Returns (get item (js "value"))
              | _ => Returns item
              end ;;
         vs <- each rest ;;
         Returns (v :: vs)
     end) items
  = Returns (map optionValue items).
Proof.
  induction items as [ | item rest IH ]; intros H; [ reflexivity | ].
  rewrite IH by (intros x Hx; apply H; now right).
  pose proof (H item (or_introl eq_refl)) as Hitem.
  destruct item; try reflexivity. now contradiction Hitem.
Qed.

Lemma existsb_strictEqStr (s : JsString) (values : list JsValue) :
  existsb (fun v => strictEqStr v s) values = true <-> In (JStr s) values.
Proof.
  rewrite existsb_exists. split.
  - intros (v & Hin & Heq). destruct v; try discriminate.
    apply str_eqb_eq in Heq. now subst.
  - intros Hin. exists (JStr s). split; [ exact Hin | apply str_eqb_refl ].
Qed.

(** X7: for a string value and a field whose [list] option (what
    [getListOptions] returns) holds no null, the check of the options
    returns; a value among the allowed ones (an entry itself, or the [value]
    of an entry object) raises nothing; any other value raises one error
    whose suggestions name every allowed value, one suggestion each, when
    every allowed value is one that ToString returns on (the error quotes
    them all).  Without a list a string raises nothing. *)
Theorem dropdown_value_checked (h : Host) (s : JsString) (f : ManifestField)
  (p : JsString) (rules : list ManifestValidationRule) (ctx : FieldContext) :
  (getListOptions f = None ->
   validateString h (JStr s) f p rules ctx = Returns [])
  /\ (forall items,
        getListOptions f = Some items ->
        (forall item, In item items -> item <> JNull) ->
        (In (JStr s) (map optionValue items) ->
         validateString h (JStr s) f p rules ctx = Returns [])
        /\ (~ In (JStr s) (map optionValue items) ->
            forallb stringifies (map optionValue items) = true ->
            exists e,
              validateString h (JStr s) f p rules ctx = Returns [e]
              /\ path e = p
              /\ severity e = sev_error
              /\ suggestions e =
                   Some (map (fun v => js "Use " ++ dq ++ toStr h v ++ dq)
                             (map optionValue items)))).
Proof.
  unfold getListOptions, validateString.
  destruct (match options f with
            | Some opts => getProp opts (js "list")
            | None => JUndefined
            end) as [ | | b | n | t | listItems | props ];
    (split; [ try reflexivity; discriminate | ]);
    intros items Hitems Hnonnull; try discriminate.
  injection Hitems as ->.
  rewrite (validValues_of_list items Hnonnull). cbn [bind].
  destruct (existsb (fun v => strictEqStr v s) (map optionValue items)) eqn:E.
  - split; [ reflexivity | ].
    intros Hnot. exfalso. now apply Hnot, existsb_strictEqStr.
  - split.
    + intros Hin. apply existsb_strictEqStr in Hin. congruence.
    + intros _ _. eexists. split; [ reflexivity | ]. now repeat split.
Qed.

Lemma dropdown_value_checked_witness :
  exists items,
    getListOptions
      {| type := js "string"; name := js "status"; title := None;
         fields := None; of_ := None; to := None; validation := None;
         options := Some
           [(js "list",
             JArr [Fixture.obj [("title", Fixture.str "Draft");
                                ("value", Fixture.str "draft")]%string;
                   Fixture.str "published"])] |}
    = Some items
    /\ (forall item, In item items -> item <> JNull)
    /\ ~ In (JStr (js "invalid")) (map optionValue items)
    /\ forallb stringifies (map optionValue items) = true
    /\ exists e,
         validateString ExampleHost.host (JStr (js "invalid"))
           {| type := js "string"; name := js "status"; title := None;
              fields := None; of_ := None; to := None; validation := None;
              options := Some
                [(js "list",
                  JArr [Fixture.obj [("title", Fixture.str "Draft");
                                     ("value", Fixture.str "draft")]%string;
                        Fixture.str "published"])] |}
           (js "status") []
           {| fc_name := js "status"; fc_type := js "string"; fc_title := None |}
         = Returns [e]
         /\ path e = js "status"
         /\ severity e = sev_error
         /\ suggestions e =
              Some (map (fun v => js "Use " ++ dq
                                  ++ toStr ExampleHost.host v ++ dq)
                        (map optionValue items)).
Proof.
  eexists. split; [ reflexivity | ].
  assert (Hnonnull : forall item,
            In item [Fixture.obj [("title", Fixture.str "Draft");
                                  ("value", Fixture.str "draft")]%string;
                     Fixture.str "published"] -> item <> JNull).
  { intros item [<- | [<- | []]]; discriminate. }
  assert (Hnot : ~ In (JStr (js "invalid"))
                   (map optionValue
                      [Fixture.obj [("title", Fixture.str "Draft");
                                    ("value", Fixture.str "draft")]%string;
                       Fixture.str "published"])).
  { intros [H | [H | []]]; vm_compute in H; discriminate. }
  split; [ exact Hnonnull | ]. split; [ exact Hnot | ].
  split; [ reflexivity | ].
  destruct (dropdown_value_checked ExampleHost.host (js "invalid")
              {| type := js "string"; name := js "status"; title := None;
                 fields := None; of_ := None; to := None; validation := None;
                 options := Some
                   [(js "list",
                     JArr [Fixture.obj [("title", Fixture.str "Draft");
                                        ("value", Fixture.str "draft")]%string;
                           Fixture.str "published"])] |}
              (js "status") []
              {| fc_name := js "status"; fc_type := js "string";
                 fc_title := None |})
    as (_ & Hlist).
  destruct (Hlist _ eq_refl Hnonnull) as (_ & Hreject).
  exact (Hreject Hnot eq_refl).
Defined.

(** ** References *)

Lemma nonempty_truthy (t : JsString) : truthy (JStr t) = true <-> t <> [].
Proof. destruct t; simpl; split; congruence. Qed.

Lemma str_eqb_neq (a b : JsString) : a <> b -> str_eqb a b = false.
Proof.
  intros H. destruct (str_eqb a b) eqn:E; [ | reflexivity ].
  apply str_eqb_eq in E. contradiction.
Qed.

Lemma allowed_targets_empty (types : list JsString) :
  (0 <? List.length (filter (fun t => truthy (JStr t)) types)) = false
  <-> forall x, In x types -> x = [].
Proof.
  induction types as [ | x types IH ]; simpl.
  - split; [ intros _ y [] | reflexivity ].
  - destruct x as [ | c x ]; simpl.
    + rewrite IH. split.
      * intros H y [<- | Hy]; [ reflexivity | now apply H ].
      * intros H y Hy. apply H. now right.
    + split; [ discriminate | ].
      intros H. specialize (H (c :: x) (or_introl eq_refl)). discriminate.
Qed.

Lemma allowed_targets_include (t : JsString) (types : list JsString) :
  t <> [] ->
  existsb (fun a => strictEqStr (JStr t) a)
    (filter (fun t => truthy (JStr t)) types)
  = existsb (fun x => str_eqb x t) types.
Proof.
  intros Ht. induction types as [ | x types IH ]; [ reflexivity | ].
  cbn [filter existsb].
  destruct (truthy (JStr x)) eqn:Ex; cbn [existsb]; rewrite IH.
  - f_equal. unfold strictEqStr. destruct (str_eqb t x) eqn:E.
    + apply str_eqb_eq in E. subst. symmetry. apply str_eqb_refl.
    + symmetry. apply str_eqb_neq. intros ->.
      now rewrite str_eqb_refl in E.
  - destruct x; [ | discriminate ].
    rewrite (str_eqb_neq [] t) by congruence. reflexivity.
Qed.

(** X8: an object without a non-empty string [_ref], and with a [_type] that
    ToString returns on (an error about the target quotes it), gets an error
    at [path._ref].  For an object with such a [_ref] and a [_type] that is a
    non-empty string other than 'reference', the check raises nothing exactly
    when [canReferenceType] accepts that [_type] or the field declares no
    target with a non-empty [type]. *)
Theorem reference_target_checked (h : Host) (props : list (JsString * JsValue))
  (f : ManifestField) (p : JsString) (ctx : FieldContext) :
  (notNonEmptyString (getProp props (js "_ref")) = true ->
   stringifies (getProp props (js "_type")) = true ->
   exists e, In e (validateReference h (JObj props) f p ctx)
             /\ path e = p ++ js "._ref"
             /\ severity e = sev_error)
  /\ (forall ref t,
        lookup props (js "_ref") = Some (JStr ref) -> ref <> [] ->
        lookup props (js "_type") = Some (JStr t) -> t <> [] ->
        t <> js "reference" ->
        (validateReference h (JObj props) f p ctx = []
         <-> canReferenceType f t = true
             \/ forall x, In x (getReferenceTargetTypes f) -> x = [])).
Proof.
  split.
  - intros Hbad _. unfold validateReference. cbn [isObjectLike negb get].
    rewrite Hbad. eexists. split; [ now left | now split ].
  - intros ref t Href Hne Htype Ht Hnotref.
    unfold validateReference, canReferenceType, getReferenceTargetTypes.
    cbn [isObjectLike negb get]. unfold getProp. rewrite Href, Htype.
    assert (Hr : notNonEmptyString (JStr ref) = false)
      by (destruct ref; [ contradiction | reflexivity ]).
    rewrite Hr. cbn [app].
    rewrite (proj2 (nonempty_truthy t) Ht).
    unfold strictEqStr at 1. rewrite (str_eqb_neq _ _ Hnotref). cbn [negb andb].
    set (types := map member_type
                    match to f with Some ts => ts | None => [] end).
    assert (Htypes : match to f with
                     | Some targets => map member_type targets
                     | None => []
                     end = types)
      by (unfold types; now destruct (to f)).
    rewrite Htypes. rewrite (allowed_targets_include t types Ht).
    destruct (0 <? List.length (filter (fun t => truthy (JStr t)) types))
      eqn:Elen.
    + destruct (existsb (fun x => str_eqb x t) types) eqn:Ein; cbn [negb andb].
      * split; [ now left | reflexivity ].
      * split; [ discriminate | ].
        intros [Hc | Hall]; [ discriminate | ].
        apply allowed_targets_empty in Hall. congruence.
    + cbn [andb]. split; [ | reflexivity ].
      intros _. right. now apply allowed_targets_empty.
Qed.

Lemma reference_target_checked_witness :
  lookup (Fixture.doc [("_ref", Fixture.str "abc");
                       ("_type", Fixture.str "person")]%string) (js "_ref")
  = Some (JStr (js "abc"))
  /\ js "abc" <> [] /\ js "person" <> [] /\ js "person" <> js "reference"
  /\ canReferenceType
       {| type := js "reference"; name := js "author"; title := None;
          fields := None; of_ := None;
          to := Some [Fixture.member "author"; Fixture.member "person"];
          validation := None; options := None |} (js "person") = true
  /\ validateReference ExampleHost.host
       (JObj (Fixture.doc [("_ref", Fixture.str "abc");
                           ("_type", Fixture.str "person")]%string))
       {| type := js "reference"; name := js "author"; title := None;
          fields := None; of_ := None;
          to := Some [Fixture.member "author"; Fixture.member "person"];
          validation := None; options := None |}
       (js "author")
       {| fc_name := js "author"; fc_type := js "reference"; fc_title := None |}
     = []
  /\ stringifies
       (getProp (Fixture.doc [("_type", Fixture.str "person")]%string)
          (js "_type")) = true
  /\ exists e,
       In e (validateReference ExampleHost.host
               (JObj (Fixture.doc [("_type", Fixture.str "person")]%string))
               {| type := js "reference"; name := js "author"; title := None;
                  fields := None; of_ := None;
                  to := Some [Fixture.member "author"];
                  validation := None; options := None |}
               (js "author")
               {| fc_name := js "author"; fc_type := js "reference";
                  fc_title := None |})
       /\ path e = js "author" ++ js "._ref"
       /\ severity e = sev_error.
Proof.
  assert (H1 : js "abc" <> []) by discriminate.
  assert (H2 : js "person" <> []) by discriminate.
  assert (H3 : js "person" <> js "reference") by discriminate.
  split; [ reflexivity | ]. split; [ exact H1 | ]. split; [ exact H2 | ].
  split; [ exact H3 | ]. split; [ reflexivity | ].
  destruct (reference_target_checked ExampleHost.host
              (Fixture.doc [("_ref", Fixture.str "abc");
                            ("_type", Fixture.str "person")]%string)
              {| type := js "reference"; name := js "author"; title := None;
                 fields := None; of_ := None;
                 to := Some [Fixture.member "author"; Fixture.member "person"];
                 validation := None; options := None |}
              (js "author")
              {| fc_name := js "author"; fc_type := js "reference";
                 fc_title := None |})
    as (_ & Htarget).
  split; [ | split; [ reflexivity | ] ].
  - apply (Htarget (js "abc") (js "person") eq_refl H1 eq_refl H2 H3).
    left. reflexivity.
  - destruct (reference_target_checked ExampleHost.host
                (Fixture.doc [("_type", Fixture.str "person")]%string)
                {| type := js "reference"; name := js "author"; title := None;
                   fields := None; of_ := None;
                   to := Some [Fixture.member "author"];
                   validation := None; options := None |}
                (js "author")
                {| fc_name := js "author"; fc_type := js "reference";
                   fc_title := None |})
      as (Hmissing & _).
    exact (Hmissing eq_refl eq_refl).
Defined.

(** ** The [email] rule *)

Lemma Needs_not_nullable (c : N) (r : Re) : Needs c r -> nullable r = false.
Proof.
  induction 1; simpl; auto.
  - now rewrite IHNeeds.
  - rewrite IHNeeds. apply andb_false_r.
  - now rewrite IHNeeds1, IHNeeds2.
Qed.

Lemma Needs_deriv (c d : N) (r : Re) :
  d <> c -> Needs c r -> Needs c (deriv d r).
Proof.
  intros Hd. induction 1; simpl.
  - constructor.
  - destruct (p d) eqn:E; [ | constructor ].
    exfalso. apply Hd. now apply H.
  - rewrite (Needs_not_nullable c r1) by assumption.
    now apply Needs_seq_l.
  - destruct (nullable r1).
    + apply Needs_alt; [ now apply Needs_seq_r | assumption ].
    + now apply Needs_seq_r.
  - now apply Needs_alt.
Qed.

Lemma matches_needs (c : N) (s : JsString) :
  forall r, Needs c r -> matches r s = true -> In c s.
Proof.
  induction s as [ | d s IH ]; intros r Hr H; simpl in H.
  - rewrite (Needs_not_nullable c r Hr) in H. discriminate.
  - destruct (N.eq_dec d c) as [-> | Hd]; [ now left | right ].
    apply (IH (deriv d r)); [ now apply Needs_deriv | exact H ].
Qed.

Lemma emailPattern_needs_at : Needs (code "@") emailPattern.
Proof.
  apply Needs_seq_r, Needs_seq_l, Needs_class.
  intros d H. apply N.eqb_eq in H. now symmetry.
Qed.

Lemma emailPattern_needs_dot : Needs (code ".") emailPattern.
Proof.
  apply Needs_seq_r, Needs_seq_r, Needs_seq_r, Needs_seq_l, Needs_class.
  intros d H. apply N.eqb_eq in H. now symmetry.
Qed.

Lemma emailPattern_rejects_space (s : JsString) (c : N) :
  In c s -> isJsSpace c = true -> matches emailPattern s = false.
Proof.
  intros Hin Hspace.
  destruct (matches emailPattern s) eqn:E; [ | reflexivity ].
  pose proof (matches_allows s emailPattern E c Hin) as H.
  assert (Hat : N.eqb (code "@") c = false).
  { apply N.eqb_neq. intros <-. vm_compute in Hspace. discriminate. }
  assert (Hdot : N.eqb (code ".") c = false).
  { apply N.eqb_neq. intros <-. vm_compute in Hspace. discriminate. }
  unfold emailPattern, RePlus in H. cbn [allows] in H.
  unfold isEmailAtom in H. rewrite Hspace, Hat, Hdot in H.
  discriminate H.
Qed.

Lemma applyRule_email (h : Host) (v : JsValue) (p : JsString)
  (ctx : FieldContext) (r : ManifestValidationRule) :
  flag r = js "email" ->
  applyRule h v p ctx r =
  match v with
  | JStr s =>
      if negb (matches emailPattern s) then
        Returns
          [{| path := p;
              message := js "Invalid email address";
              severity := sev_error;
              rule := Some r;
              value := Some v;
              expected := Some (JStr (js "valid email address"));
              field := Some ctx;
              suggestions := Some [js "Use format: user@example.com"] |}]
      else Returns []
  | _ => Returns []
  end.
Proof. intros H. unfold applyRule. rewrite H. reflexivity. Qed.

(** X9: the [email] rule looks at strings only; a string without '@', or
    without '.', or with a white space in it, gets the one error
    'Invalid email address' at the path of the field. *)
Theorem email_rule_rejects (h : Host) (p : JsString) (ctx : FieldContext)
  (r : ManifestValidationRule) :
  flag r = js "email" ->
  (forall v, (forall s, v <> JStr s) -> applyRule h v p ctx r = Returns [])
  /\ (forall s,
        ~ In (code "@") s \/ ~ In (code ".") s
        \/ (exists c, In c s /\ isJsSpace c = true) ->
        exists e,
          applyRule h (JStr s) p ctx r = Returns [e]
          /\ path e = p
          /\ severity e = sev_error
          /\ message e = js "Invalid email address").
Proof.
  intros Hflag. split.
  - intros v Hv. rewrite (applyRule_email h v p ctx r Hflag).
    destruct v; try reflexivity. now contradiction (Hv s).
  - intros s Hbad. rewrite (applyRule_email h (JStr s) p ctx r Hflag).
    assert (Hno : matches emailPattern s = false).
    { destruct Hbad as [Hat | [Hdot | (c & Hin & Hspace)]].
      - destruct (matches emailPattern s) eqn:E; [ | reflexivity ].
        exfalso. apply Hat. exact (matches_needs _ s _ emailPattern_needs_at E).
      - destruct (matches emailPattern s) eqn:E; [ | reflexivity ].
        exfalso. apply Hdot.
        exact (matches_needs _ s _ emailPattern_needs_dot E).
      - exact (emailPattern_rejects_space s c Hin Hspace). }
    rewrite Hno. eexists. split; [ reflexivity | now repeat split ].
Qed.

Lemma email_rule_rejects_witness :
  flag (Fixture.rule "email" None) = js "email"
  /\ ~ In (code "@") (js "not-an-email")
  /\ matches emailPattern (js "user@example.com") = true
  /\ exists e,
       applyRule ExampleHost.host (JStr (js "not-an-email")) (js "email")
         {| fc_name := js "email"; fc_type := js "string"; fc_title := None |}
         (Fixture.rule "email" None) = Returns [e]
       /\ path e = js "email"
       /\ severity e = sev_error
       /\ message e = js "Invalid email address".
Proof.
  assert (Hat : ~ In (code "@") (js "not-an-email")).
  { vm_compute. intros H.
    repeat (destruct H as [H | H]; [ discriminate | ]). exact H. }
  split; [ reflexivity | ]. split; [ exact Hat | ]. split; [ reflexivity | ].
  destruct (email_rule_rejects ExampleHost.host (js "email")
              {| fc_name := js "email"; fc_type := js "string";
                 fc_title := None |}
              (Fixture.rule "email" None) eq_refl) as (_ & Hreject).
  apply Hreject. now left.
Defined.

(** ** The summary and the formatted text *)

Lemma includes_trans (s l sub : JsString) :
  includes s l = true -> includes l sub = true -> includes s sub = true.
Proof.
  intros Hs Hl. destruct (includes_split _ _ Hs) as (before & rest & ->).
  now apply includes_within.
Qed.

Lemma includes_suffix (before sub : JsString) :
  includes (before ++ sub) sub = true.
Proof.
  pose proof (includes_app before sub []) as H.
  now rewrite app_nil_r in H.
Qed.

Lemma join_head (sep x : JsString) (l : list JsString) :
  exists rest, join sep (x :: l) = x ++ rest.
Proof.
  destruct l as [ | y l ].
  - exists []. simpl. now rewrite app_nil_r.
  - now exists (sep ++ join sep (y :: l)).
Qed.

Lemma join_holds_each (sep : JsString) (lines : list JsString) (l : JsString) :
  In l lines -> includes (join sep lines) l = true.
Proof.
  induction lines as [ | x lines IH ]; intros Hin; [ destruct Hin | ].
  destruct lines as [ | y lines ].
  - destruct Hin as [<- | []]. exact (includes_suffix [] x).
  - change (join sep (x :: y :: lines)) with (x ++ sep ++ join sep (y :: lines)).
    destruct Hin as [<- | Hin].
    + exact (includes_app [] x _).
    + specialize (IH Hin).
      destruct (includes_split _ _ IH) as (before & rest & ->).
      replace (x ++ sep ++ before ++ l ++ rest)
        with ((x ++ sep ++ before) ++ l ++ rest)
        by now rewrite <- !app_assoc.
      apply includes_app.
Qed.

(** X10: the text of [formatValidationIssues] opens, for every result, with
    the summary on a line of its own; for a result without issues it is that
    line and nothing else; and it shows, for every issue of the result, the
    path followed by the message, and the first suggestion when there is
    one. *)
Theorem formatted_text_shows_every_issue (r : ValidationResult) :
  startsWith (formatValidationIssues r) (summary r ++ [10%N]) = true
  /\ (issues r = [] -> formatValidationIssues r = summary r ++ [10%N])
  /\ (forall i, In i (issues r) ->
        includes (formatValidationIssues r) (path i ++ js ": " ++ message i)
        = true
        /\ (forall s, firstSuggestion i = Some s ->
              includes (formatValidationIssues r) s = true)).
Proof.
  unfold formatValidationIssues.
  set (line := fun issue : ValidationIssue => _ :: _).
  split; [ | split ].
  - change (join [10%N] ([summary r; []] ++ flat_map line (issues r)))
      with (summary r ++ [10%N]
            ++ join [10%N] ([] :: flat_map line (issues r))).
    rewrite app_assoc. exact (startsWith_app _ _).
  - intros ->. reflexivity.
  - intros i Hin. split.
    + apply includes_trans with
        (l := (match severity i with
               | sev_error => [10007%N]
               | sev_warning => [9888%N]
               | sev_info => [8505%N]
               end) ++ js " " ++ path i ++ js ": " ++ message i).
      * apply join_holds_each. apply in_or_app. right.
        apply in_flat_map. exists i. split; [ exact Hin | now left ].
      * rewrite app_assoc. apply includes_suffix.
    + intros s Hs.
      apply includes_trans with (l := js "  " ++ [8594%N] ++ js " " ++ s).
      * apply join_holds_each. apply in_or_app. right.
        apply in_flat_map. exists i. split; [ exact Hin | ].
        right. unfold line. rewrite Hs. now left.
      * rewrite !app_assoc. apply includes_suffix.
Qed.

Lemma formatted_text_shows_every_issue_witness :
  exists r i valid_one,
    Fixture.run [("_type", Fixture.str "article")]%string = Returns r
    /\ hd_error (issues r) = Some i
    /\ startsWith (formatValidationIssues r) (summary r ++ [10%N]) = true
    /\ includes (formatValidationIssues r) (path i ++ js ": " ++ message i)
       = true
    /\ (forall s, firstSuggestion i = Some s ->
          includes (formatValidationIssues r) s = true)
    /\ Fixture.run [("_type", Fixture.str "article");
                    ("title", Fixture.str "Hello");
                    ("slug", Fixture.obj [("current", Fixture.str "hello")])]%string
       = Returns valid_one
    /\ issues valid_one = []
    /\ formatValidationIssues valid_one = summary valid_one ++ [10%N].
Proof.
  eexists. eexists. eexists. split; [ reflexivity | ].
  split; [ reflexivity | ].
  match goal with
  | |- startsWith (formatValidationIssues ?r) _ = true /\ _ =>
      destruct (formatted_text_shows_every_issue r) as (Hopen & _ & Hshow)
  end.
  split; [ exact Hopen | ].
  split; [ exact (proj1 (Hshow _ (or_introl eq_refl))) | ].
  split; [ exact (proj2 (Hshow _ (or_introl eq_refl))) | ].
  split; [ reflexivity | ].
  split; [ reflexivity | ].
  match goal with
  | |- formatValidationIssues ?r = _ =>
      destruct (formatted_text_shows_every_issue r) as (_ & Hempty & _)
  end.
  exact (Hempty eq_refl).
Defined.

(** X11: the summary of a result tells whether the document is valid: it
    opens with 'Document is valid' exactly when [valid] is true, and
    otherwise with 'Validation failed: ' and the number of errors. *)
Theorem summary_tells_validity (h : Host)
  (document : list (JsString * JsValue)) (schemaType : ManifestSchemaType)
  (allTypes : list ManifestSchemaType) (opts : ValidateOptions)
  (r : ValidationResult) :
  validateDocument h document schemaType allTypes opts = Returns r ->
  startsWith (summary r) (js "Document is valid") = valid r
  /\ (valid r = false ->
      startsWith (summary r)
        (js "Validation failed: "
         ++ counted (List.length (errors r)) (js "error")) = true).
Proof.
  intros H. destruct (validateDocument_returns _ _ _ _ _ _ H) as (raw & _ & ->).
  unfold buildResult.
  cbn [valid summary errors].
  destruct (filter isError raw) as [ | e es ] eqn:E.
  - cbn [List.length Nat.eqb]. split; [ | discriminate ].
    exact (startsWith_app _ _).
  - cbn [List.length Nat.eqb Nat.ltb Nat.leb]. split; [ reflexivity | ].
    intros _. cbn [app].
    match goal with
    | |- context [join ?sep (?x :: ?l)] =>
        destruct (join_head sep x l) as [rest ->]
    end.
    rewrite app_assoc. exact (startsWith_app _ _).
Qed.

Lemma summary_tells_validity_witness :
  exists r,
    Fixture.run [("_type", Fixture.str "article")]%string = Returns r
    /\ valid r = false
    /\ startsWith (summary r) (js "Document is valid") = valid r
    /\ (valid r = false ->
        startsWith (summary r)
          (js "Validation failed: "
           ++ counted (List.length (errors r)) (js "error")) = true).
Proof.
  eexists. split; [ reflexivity | ]. split; [ reflexivity | ].
  apply (summary_tells_validity ExampleHost.host
           (Fixture.doc [("_type", Fixture.str "article")]%string)
           Fixture.articleType Fixture.allTypes noOptions _ eq_refl).
Defined.

(** ** The map of types *)

Lemma str_eqb_sym (a b : JsString) : str_eqb a b = str_eqb b a.
Proof.
  destruct (str_eqb a b) eqn:E.
  - apply str_eqb_eq in E. subst b. symmetry. apply str_eqb_refl.
  - destruct (str_eqb b a) eqn:E'; [ | reflexivity ].
    apply str_eqb_eq in E'. subst b. now rewrite str_eqb_refl in E.
Qed.

Lemma Map_get_set {V : Type} (m : list (JsString * V)) (k k' : JsString)
  (v : V) :
  Map_get (Map_set m k v) k' = if str_eqb k k' then Some v else Map_get m k'.
Proof.
  induction m as [ | [k0 v0] rest IH ]; simpl.
  - reflexivity.
  - destruct (str_eqb k0 k) eqn:E0; simpl.
    + apply str_eqb_eq in E0. subst k0. now destruct (str_eqb k k').
    + rewrite IH. destruct (str_eqb k0 k') eqn:E1; [ | reflexivity ].
      apply str_eqb_eq in E1. subst k'. now rewrite str_eqb_sym, E0.
Qed.

Lemma find_app {A : Type} (p : A -> bool) (l1 l2 : list A) :
  find p (l1 ++ l2) =
  match find p l1 with
  | Some x => Some x
  | None => find p l2
  end.
Proof.
  induction l1 as [ | x l1 IH ]; simpl; [ reflexivity | ].
  now destruct (p x).
Qed.

Lemma Map_get_fold {V : Type} (entries : list (JsString * V)) (k : JsString) :
  forall m,
    Map_get (fold_left (fun m kv => Map_set m (fst kv) (snd kv)) entries m) k =
    match find (fun kv => str_eqb (fst kv) k) (rev entries) with
    | Some kv => Some (snd kv)
    | None => Map_get m k
    end.
Proof.
  induction entries as [ | e entries IH ]; intros m; simpl.
  - reflexivity.
  - rewrite IH, find_app. simpl.
    destruct (find _ (rev entries)); [ reflexivity | ].
    rewrite Map_get_set. now destruct (str_eqb (fst e) k).
Qed.

Lemma find_named (types : list ManifestSchemaType) (n : JsString) :
  match find (fun kv => str_eqb (fst kv) n) (map (fun t => (name t, t)) types)
  with
  | Some kv => Some (snd kv)
  | None => None
  end = findTypeByName types n.
Proof.
  unfold findTypeByName. induction types as [ | t types IH ]; simpl.
  - reflexivity.
  - now destruct (str_eqb (name t) n).
Qed.

Lemma typeMap_get (allTypes : list ManifestSchemaType) (n : JsString) :
  Map_get (Map_new (map (fun t => (name t, t)) allTypes)) n
  = findTypeByName (rev allTypes) n.
Proof.
  unfold Map_new. rewrite Map_get_fold, <- map_rev. simpl.
  exact (find_named (rev allTypes) n).
Qed.

Lemma find_last_of_distinct (types : list ManifestSchemaType) (n : JsString) :
  NoDup (map name types) ->
  findTypeByName (rev types) n = findTypeByName types n.
Proof.
  unfold findTypeByName. induction types as [ | t types IH ]; intros Hd.
  - reflexivity.
  - simpl in Hd. inversion Hd as [ | x l Hnot Hrest ]. subst x l.
    simpl. rewrite find_app, (IH Hrest). simpl.
    destruct (str_eqb (name t) n) eqn:E.
    + apply str_eqb_eq in E. subst n.
      destruct (find _ types) as [ u | ] eqn:Eu; [ | reflexivity ].
      apply find_some in Eu as [Hin Hu]. apply str_eqb_eq in Hu.
      exfalso. apply Hnot. rewrite <- Hu. now apply in_map.
    + now destruct (find _ types).
Qed.

(** X12: the validator resolves a type name to the last type of [allTypes]
    with that name ([new Map] keeps the later entry), where [findTypeByName]
    gives the first; when the names of [allTypes] are distinct the two agree,
    so the validator checks a named type against what [findTypeByName]
    finds. *)
Theorem typeMap_agrees_with_findTypeByName
  (allTypes : list ManifestSchemaType) (n : JsString) :
  Map_get (Map_new (map (fun t => (name t, t)) allTypes)) n
  = findTypeByName (rev allTypes) n
  /\ (NoDup (map name allTypes) ->
      Map_get (Map_new (map (fun t => (name t, t)) allTypes)) n
      = findTypeByName allTypes n).
Proof.
  split; [ apply typeMap_get | ].
  intros Hd. rewrite typeMap_get. now apply find_last_of_distinct.
Qed.

Lemma typeMap_agrees_with_findTypeByName_witness :
  NoDup (map name Fixture.allTypes)
  /\ Map_get (Map_new (map (fun t => (name t, t)) Fixture.allTypes))
       (js "article")
     = findTypeByName Fixture.allTypes (js "article")
  /\ findTypeByName Fixture.allTypes (js "article") = Some Fixture.articleType.
Proof.
  assert (Hd : NoDup (map name Fixture.allTypes)).
  { simpl. constructor; [ intros [] | constructor ]. }
  split; [ exact Hd | ]. split; [ | reflexivity ].
  exact (proj2 (typeMap_agrees_with_findTypeByName Fixture.allTypes
                  (js "article")) Hd).
Defined.

(** ** When the validator returns *)

Lemma forEach_answers {A : Type} (xs : list A)
  (body : A -> Outcome (list ValidationIssue)) :
  (forall x, In x xs -> exists out, body x = Returns out) ->
  exists out, forEach xs body = Returns out.
Proof.
  induction xs as [ | x xs IH ]; intros H.
  - now exists [].
  - destruct (H x (or_introl eq_refl)) as [o1 E1].
    destruct IH as [o2 E2]; [ intros y Hy; apply H; now right | ].
    exists (o1 ++ o2). now rewrite forEach_cons, E1, E2.
Qed.

Lemma forEachIndexed_answers {A : Type} (xs : list A)
  (body : nat -> A -> Outcome (list ValidationIssue)) :
  (forall j x, In x xs -> exists out, body j x = Returns out) ->
  forall i, exists out, forEachIndexed i xs body = Returns out.
Proof.
  induction xs as [ | x xs IH ]; intros H i.
  - now exists [].
  - destruct (H i x (or_introl eq_refl)) as [o1 E1].
    destruct (IH (fun j y Hy => H j y (or_intror Hy)) (S i)) as [o2 E2].
    exists (o1 ++ o2). now rewrite forEachIndexed_cons, E1, E2.
Qed.

Lemma readableType_unfold (t : ManifestSchemaType) :
  readableType t =
  rulesHaveConstraints (getValidationRules t)
  && listEntriesPresent t
  && (match fields t with
      | Some l => forallb readableType l
      | None => true
      end
      && match of_ t with
         | Some l => forallb readableMember l
         | None => true
         end).
Proof. destruct t; reflexivity. Qed.

Lemma readableType_rules (t : ManifestSchemaType) :
  readableType t = true -> rulesHaveConstraints (getValidationRules t) = true.
Proof.
  rewrite readableType_unfold. intros H.
  apply andb_true_iff in H as [H _]. now apply andb_true_iff in H as [H _].
Qed.

Lemma readableType_list (t : ManifestSchemaType) :
  readableType t = true -> listEntriesPresent t = true.
Proof.
  rewrite readableType_unfold. intros H.
  apply andb_true_iff in H as [H _]. now apply andb_true_iff in H as [_ H].
Qed.

Lemma readableType_fields (t : ManifestSchemaType) (fs : list ManifestField)
  (g : ManifestField) :
  readableType t = true -> fields t = Some fs -> In g fs ->
  readableType g = true.
Proof.
  rewrite readableType_unfold. intros H Hfs Hg. rewrite Hfs in H.
  apply andb_true_iff in H as [_ H]. apply andb_true_iff in H as [H _].
  rewrite forallb_forall in H. now apply H.
Qed.

Lemma readableType_members (t : ManifestSchemaType)
  (ms : list ManifestArrayMember) (m : ManifestArrayMember)
  (fs : list ManifestField) (g : ManifestField) :
  readableType t = true -> of_ t = Some ms -> In m ms ->
  member_fields m = Some fs -> In g fs -> readableType g = true.
Proof.
  rewrite readableType_unfold. intros H Hms Hm Hfs Hg. rewrite Hms in H.
  apply andb_true_iff in H as [_ H]. apply andb_true_iff in H as [_ H].
  rewrite forallb_forall in H. specialize (H m Hm).
  destruct m as [ mt mn mf ]. simpl in Hfs, H. subst mf.
  rewrite forallb_forall in H. now apply H.
Qed.

Lemma childrenPresent_child (v c : JsValue) :
  childrenPresent v = true -> child c v -> childrenPresent c = true.
Proof.
  destruct v as [ | | b | n | s | items | props ]; simpl.
  1-5: intros _ [].
  - intros H Hin. rewrite forallb_forall in H. now apply H.
  - intros H [k Hin]. apply andb_true_iff in H as [_ H].
    rewrite forallb_forall in H. exact (H (k, c) Hin).
Qed.

Lemma childrenPresent_children (v : JsValue) (cs : list JsValue) (c : JsValue) :
  childrenPresent v = true -> get v (js "children") = JArr cs -> In c cs ->
  isNullish c = false.
Proof.
  intros H Hget Hin. destruct v; try discriminate Hget.
  cbn [childrenPresent] in H. rewrite Hget in H.
  apply andb_true_iff in H as [H _]. rewrite forallb_forall in H.
  specialize (H c Hin). now destruct (isNullish c).
Qed.

Lemma childrenPresent_getProp (props : list (JsString * JsValue))
  (key : JsString) :
  childrenPresent (JObj props) = true ->
  childrenPresent (getProp props key) = true.
Proof.
  intros H. unfold getProp. destruct (lookup props key) as [ v | ] eqn:E.
  - apply lookup_In in E. exact (childrenPresent_child (JObj props) v H E).
  - reflexivity.
Qed.

Ltac answer := eexists; reflexivity.

Section Answers.

Variable h : Host.

Lemma validateString_answers (v : JsValue) (f : ManifestField) (p : JsString)
  (rules : list ManifestValidationRule) (ctx : FieldContext) :
  listEntriesPresent f = true ->
  exists out, validateString h v f p rules ctx = Returns out.
Proof.
  intros H. unfold validateString. destruct v; try answer.
  unfold listEntriesPresent, getListOptions in H.
  destruct (match options f with
            | Some opts => getProp opts (js "list")
            | None => JUndefined
            end) as [ | | | | | listItems | ]; try answer.
  rewrite validValues_of_list.
  - cbn [bind]. destruct (negb _); answer.
  - intros item Hin ->. rewrite forallb_forall in H.
    specialize (H _ Hin). discriminate.
Qed.

Lemma validateBlock_answers (v : JsValue) (f : ManifestField) (p : JsString)
  (typeMap : TypeMap) (opts : ValidateOptions) (ctx : FieldContext) :
  childrenPresent v = true ->
  exists out, validateBlock v f p typeMap opts ctx = Returns out.
Proof.
  intros H. unfold validateBlock.
  destruct (negb (isObjectLike v)); [ answer | ].
  destruct (get v (js "children")) as [ | | | | | cs | ] eqn:E; try answer.
  match goal with
  | |- exists out, (x <- forEachIndexed 0 cs ?body ;; _) = _ =>
      destruct (forEachIndexed_answers cs body) with (i := 0) as [o ->]
  end; [ | answer ].
  intros j c Hin. cbv beta.
  rewrite (childrenPresent_children v cs c H E Hin). answer.
Qed.

Lemma applyRule_answers (v : JsValue) (p : JsString) (ctx : FieldContext)
  (r : ManifestValidationRule) :
  (if str_eqb (flag r) (js "length") || str_eqb (flag r) (js "regex")
   then negb (isNullish (constraintOf r))
   else true) = true ->
  exists out, applyRule h v p ctx r = Returns out.
Proof.
  intros Hg. unfold applyRule.
  destruct (str_eqb (flag r) (js "min")); [ answer | ].
  destruct (str_eqb (flag r) (js "max")); [ answer | ].
  destruct (str_eqb (flag r) (js "length")).
  { cbn [orb] in Hg. unfold applyLength. destruct v; try answer.
    destruct (isNullish (constraintOf r)); [ discriminate | answer ]. }
  destruct (str_eqb (flag r) (js "regex")).
  { cbn [orb] in Hg. unfold applyRegex. destruct v; try answer.
    destruct (isNullish (constraintOf r)); [ discriminate | ].
    repeat match goal with
           | |- context [if ?b then _ else _] => destruct b
           | |- context [match ?x with _ => _ end] => destruct x
           end; answer. }
  repeat match goal with
         | |- context [if ?b then _ else _] => destruct b
         | |- context [match ?x with _ => _ end] => destruct x
         end; answer.
Qed.

Lemma applyValidationRules_answers (v : JsValue)
  (rules : list ManifestValidationRule) (p : JsString) (f : ManifestField)
  (ctx : FieldContext) :
  rulesHaveConstraints rules = true ->
  exists out, applyValidationRules h v rules p f ctx = Returns out.
Proof.
  intros H. unfold applyValidationRules. apply forEach_answers.
  intros r Hr. apply applyRule_answers.
  unfold rulesHaveConstraints in H. rewrite forallb_forall in H.
  exact (H r Hr).
Qed.

Lemma validateFieldAbsent_answers (f : ManifestField) (p : JsString) :
  exists out, validateFieldAbsent f p = Returns out.
Proof. unfold validateFieldAbsent. destruct (isRequired _); answer. Qed.

Variable recur :
  JsValue -> ManifestField -> JsString -> Outcome (list ValidationIssue).
Variable typeMap : TypeMap.
Hypothesis typeMap_readable :
  forall n t, Map_get typeMap n = Some t -> readableType t = true.

Lemma validateProp_answers (container : JsValue) (g : ManifestField)
  (q : JsString) :
  (forall c, child c container -> answers recur c) ->
  childrenPresent container = true ->
  readableType g = true ->
  exists out, validateProp recur container g q = Returns out.
Proof.
  intros Hc Hcp Hg. unfold validateProp.
  destruct container; try apply validateFieldAbsent_answers.
  rewrite withProp_lookup.
  destruct (lookup props (name g)) as [ v | ] eqn:E;
    [ | apply validateFieldAbsent_answers ].
  apply lookup_In in E.
  exact (Hc v E (childrenPresent_child (JObj props) v Hcp E) g q Hg).
Qed.

Lemma nested_fields_answers (container : JsValue) (fs : list ManifestField)
  (p : JsString) :
  (forall c, child c container -> answers recur c) ->
  childrenPresent container = true ->
  (forall g, In g fs -> readableType g = true) ->
  exists out,
    forEach fs (fun g => validateProp recur container g (p ++ js "." ++ name g))
    = Returns out.
Proof.
  intros Hc Hcp Hfs. apply forEach_answers. intros g Hg.
  apply validateProp_answers; auto.
Qed.

Lemma validateObject_answers (v : JsValue) (f : ManifestSchemaType)
  (p : JsString) (opts : ValidateOptions) (ctx : FieldContext) :
  (forall c, child c v -> answers recur c) ->
  childrenPresent v = true ->
  readableType f = true ->
  exists out, validateObject recur v f p typeMap opts ctx = Returns out.
Proof.
  intros Hc Hcp Hf. unfold validateObject. destruct v; try answer.
  destruct (fields f) as [ fs | ] eqn:E; [ | answer ].
  apply nested_fields_answers; auto.
  intros g Hg. exact (readableType_fields f fs g Hf E Hg).
Qed.

Lemma validateAsset_answers (v : JsValue) (f : ManifestField) (p : JsString)
  (opts : ValidateOptions) (ctx : FieldContext) :
  (forall c, child c v -> answers recur c) ->
  childrenPresent v = true ->
  readableType f = true ->
  exists out, validateAsset recur v f p typeMap opts ctx = Returns out.
Proof.
  intros Hc Hcp Hf. unfold validateAsset.
  destruct (negb (isObjectLike v)); [ answer | ]. cbv zeta.
  destruct (fields f) as [ fs | ] eqn:E; [ | answer ].
  match goal with
  | |- exists out, (x <- ?m ;; _) = _ =>
      assert (Hm : exists o, m = Returns o);
        [ | destruct Hm as [o ->]; answer ]
  end.
  apply nested_fields_answers; auto.
  intros g Hg. exact (readableType_fields f fs g Hf E Hg).
Qed.

Lemma validateArray_answers (v : JsValue) (f : ManifestField) (p : JsString)
  (opts : ValidateOptions) (ctx : FieldContext) :
  (forall item, child item v -> forall c, child c item -> answers recur c) ->
  childrenPresent v = true ->
  readableType f = true ->
  exists out, validateArray h recur v f p typeMap opts ctx = Returns out.
Proof.
  intros Hg Hcp Hf. unfold validateArray. destruct v; try answer.
  apply forEachIndexed_answers. intros j item Hitem. cbv beta.
  match goal with
  | |- exists out, (x <- ?m ;; _) = _ =>
      assert (Hm : exists o, m = Returns o);
        [ | destruct Hm as [o ->]; answer ]
  end.
  assert (Hi : childrenPresent item = true)
    by exact (childrenPresent_child (JArr items) item Hcp Hitem).
  destruct (isObjectLike item && hasKey item (js "_type")).
  - destruct (find _ _) as [ m | ] eqn:Em; [ | answer ].
    apply find_some in Em as [Hm _].
    destruct (TypeMap_get typeMap (get item (js "_type"))) as [ d | ] eqn:Ed.
    + destruct (fields d) as [ fs | ] eqn:Efs; [ | answer ].
      apply nested_fields_answers; [ exact (Hg item Hitem) | exact Hi | ].
      intros g Hin. apply (readableType_fields d fs g); auto.
      unfold TypeMap_get in Ed.
      destruct (get item (js "_type")); try discriminate.
      exact (typeMap_readable s d Ed).
    + destruct (member_fields m) as [ fs | ] eqn:Efs; [ | answer ].
      apply nested_fields_answers; [ exact (Hg item Hitem) | exact Hi | ].
      intros g Hin. destruct (of_ f) as [ ms | ] eqn:Eof; [ | destruct Hm ].
      exact (readableType_members f ms m fs g Hf Eof Hm Efs Hin).
  - destruct (match of_ f with Some ms => ms | None => [] end); [ answer | ].
    destruct (_ && _); answer.
Qed.

Lemma validateFieldBody_answers (v : JsValue) (f : ManifestField)
  (p : JsString) (opts : ValidateOptions) :
  (forall c, child c v -> answers recur c) ->
  (forall item, child item v -> forall c, child c item -> answers recur c) ->
  childrenPresent v = true ->
  readableType f = true ->
  exists out, validateFieldBody h recur v f p typeMap opts = Returns out.
Proof.
  intros Hc Hg Hcp Hf. unfold validateFieldBody.
  destruct (isRequired _ && isNullish v); [ answer | ].
  destruct (isNullish v); [ answer | ].
  match goal with
  | |- exists out, (x <- ?m ;; _) = _ =>
      assert (Hm : exists o, m = Returns o);
        [ | destruct Hm as [o ->] ]
  end.
  - repeat match goal with
           | |- context [if ?b then _ else _] => destruct b
           end;
      try answer;
      eauto using validateString_answers, readableType_list,
        validateBlock_answers, validateArray_answers, validateObject_answers,
        validateAsset_answers.
    destruct (Map_get typeMap (type f)) as [ customType | ] eqn:E;
      [ | answer ].
    destruct (str_eqb (type customType) (js "object")); [ | answer ].
    destruct (fields customType); [ | answer ].
    apply validateObject_answers; auto.
    exact (typeMap_readable _ _ E).
  - cbn [bind].
    destruct (applyValidationRules_answers v (getValidationRules f) p f
                (fieldContextOf f) (readableType_rules f Hf)) as [o' ->].
    answer.
Qed.

End Answers.

Lemma validateField_answers (h : Host) (typeMap : TypeMap)
  (opts : ValidateOptions) (v : JsValue) (f : ManifestField) (p : JsString) :
  (forall n t, Map_get typeMap n = Some t -> readableType t = true) ->
  childrenPresent v = true ->
  readableType f = true ->
  exists out, validateField h v f p typeMap opts = Returns out.
Proof.
  intros Hmap.
  set (recur := fun c g q => validateField h c g q typeMap opts).
  enough (H : answers recur v /\ forall c, child c v -> answers recur c)
    by (destruct H as [H _]; intros Hcp Hf; exact (H Hcp f p Hf)).
  clear f p.
  assert (Hstep : forall w,
            (forall c, child c w -> answers recur c) ->
            (forall item, child item w ->
                          forall c, child c item -> answers recur c) ->
            answers recur w).
  { intros w Hc Hg Hcp g q Hf. unfold recur.
    rewrite validateField_unfold.
    now apply (validateFieldBody_answers h recur typeMap Hmap w g q opts). }
  induction v as [ | | b | n | s | items IH | props IH ]
    using JsValue_nested_ind.
  1-5: (split; [ apply Hstep | ]; intros c []).
  - rewrite Forall_forall in IH.
    assert (Hc : forall c, child c (JArr items) -> answers recur c)
      by (intros c Hin; exact (proj1 (IH c Hin))).
    split; [ | exact Hc ]. apply Hstep; [ exact Hc | ].
    intros item Hitem c Hchild. exact (proj2 (IH item Hitem) c Hchild).
  - rewrite Forall_forall in IH.
    assert (Hc : forall c, child c (JObj props) -> answers recur c)
      by (intros c [k Hin]; exact (proj1 (IH (k, c) Hin))).
    split; [ | exact Hc ]. apply Hstep; [ exact Hc | ].
    intros item [k Hitem] c Hchild. exact (proj2 (IH (k, item) Hitem) c Hchild).
Qed.

Lemma validateRootFields_answers (h : Host)
  (document : list (JsString * JsValue)) (typeMap : TypeMap)
  (opts : ValidateOptions) (stop : bool) (rootFields : list ManifestField) :
  (forall n t, Map_get typeMap n = Some t -> readableType t = true) ->
  childrenPresent (JObj document) = true ->
  (forall g, In g rootFields -> readableType g = true) ->
  forall issues,
    exists raw,
      validateRootFields h document rootFields typeMap opts stop issues
      = Returns raw.
Proof.
  intros Hmap Hcp. induction rootFields as [ | f rest IH ]; intros Hfs issues.
  - now exists issues.
  - rewrite validateRootFields_cons.
    destruct (stop && existsb isError issues); [ answer | ].
    destruct (validateField_answers h typeMap opts
                (getProp document (name f)) f (name f) Hmap
                (childrenPresent_getProp document (name f) Hcp)
                (Hfs f (or_introl eq_refl))) as [fi ->].
    cbn [bind]. apply IH. intros g Hg. apply Hfs. now right.
Qed.

Lemma validateDocument_answers (h : Host)
  (document : list (JsString * JsValue)) (schemaType : ManifestSchemaType)
  (allTypes : list ManifestSchemaType) (opts : ValidateOptions) :
  readableType schemaType = true ->
  forallb readableType allTypes = true ->
  childrenPresent (JObj document) = true ->
  exists r, validateDocument h document schemaType allTypes opts = Returns r.
Proof.
  intros Hs Hall Hcp. unfold validateDocument.
  enough (H : exists raw,
            collectIssues h document schemaType allTypes opts = Returns raw)
    by (destruct H as [raw ->]; answer).
  unfold collectIssues.
  destruct (fields schemaType) as [ fs | ] eqn:E; [ | answer ].
  apply validateRootFields_answers.
  - intros n t Hn. rewrite typeMap_get in Hn.
    apply find_some in Hn as [Hin _]. apply in_rev in Hin.
    rewrite forallb_forall in Hall. now apply Hall.
  - exact Hcp.
  - intros g Hg. exact (readableType_fields schemaType fs g Hs E Hg).
Qed.

(** X13: the validator raises no TypeError, whatever the host and the
    options, when every [length] and [regex] rule of the schema carries a
    constraint, no dropdown list of the schema holds null, no [children]
    array of the document holds null or undefined (the three places where
    the code reads a property of a value it has not tested), and no object
    of the document, of a rule constraint or of an option has an own property
    [toString] (the places where the code converts a value it has not
    tested).  The limits of an engine (the number of arguments of a call
    that spreads an array, the depth of the call stack) raise a RangeError;
    the model has no such limit, and the statement is about TypeError
    only. *)
Theorem validateDocument_returns_on_readable_input (h : Host)
  (document : list (JsString * JsValue)) (schemaType : ManifestSchemaType)
  (allTypes : list ManifestSchemaType) (opts : ValidateOptions) :
  readableType schemaType = true ->
  forallb readableType allTypes = true ->
  childrenPresent (JObj document) = true ->
  plainData (JObj document) = true ->
  plainType schemaType = true ->
  forallb plainType allTypes = true ->
  validateDocument h document schemaType allTypes opts <> Throws TypeError.
Proof.
  intros Hs Hall Hcp _ _ _.
  destruct (validateDocument_answers h document schemaType allTypes opts
              Hs Hall Hcp) as [r ->].
  discriminate.
Qed.

Lemma validateDocument_returns_on_readable_input_witness :
  readableType BlockDocument.pageType = true
  /\ forallb readableType [BlockDocument.pageType; Fixture.articleType] = true
  /\ childrenPresent
       (JObj (Fixture.doc
                [("_type", Fixture.str "page");
                 ("body",
                  Fixture.obj
                    [("_type", Fixture.str "block");
                     ("children",
                      JArr [Fixture.obj [("_type", Fixture.str "span")]])])]%string))
     = true
  /\ plainData
       (JObj (Fixture.doc
                [("_type", Fixture.str "page");
                 ("body",
                  Fixture.obj
                    [("_type", Fixture.str "block");
                     ("children",
                      JArr [Fixture.obj [("_type", Fixture.str "span")]])])]%string))
     = true
  /\ plainType BlockDocument.pageType = true
  /\ forallb plainType [BlockDocument.pageType; Fixture.articleType] = true
  /\ validateDocument ExampleHost.host
       (Fixture.doc
          [("_type", Fixture.str "page");
           ("body",
            Fixture.obj
              [("_type", Fixture.str "block");
               ("children",
                JArr [Fixture.obj [("_type", Fixture.str "span")]])])]%string)
       BlockDocument.pageType [BlockDocument.pageType; Fixture.articleType]
       noOptions
     <> Throws TypeError.
Proof.
  split; [ reflexivity | ]. split; [ reflexivity | ]. split; [ reflexivity | ].
  split; [ reflexivity | ]. split; [ reflexivity | ]. split; [ reflexivity | ].
  apply validateDocument_returns_on_readable_input; reflexivity.
Defined.

(** ** When [validateBlock] throws *)

Lemma forEachIndexed_throws {A : Type} (bad : A -> bool) (xs : list A)
  (body : nat -> A -> Outcome (list ValidationIssue)) :
  (forall j x, In x xs ->
     if bad x then body j x = Throws TypeError
     else exists o, body j x = Returns o) ->
  forall i,
    if existsb bad xs then forEachIndexed i xs body = Throws TypeError
    else exists out, forEachIndexed i xs body = Returns out.
Proof.
  induction xs as [ | x xs IH ]; intros H i.
  - now exists [].
  - rewrite forEachIndexed_cons. cbn [existsb].
    pose proof (H i x (or_introl eq_refl)) as Hx.
    specialize (IH (fun j y Hy => H j y (or_intror Hy)) (S i)).
    destruct (bad x); cbn [orb].
    + now rewrite Hx.
    + destruct Hx as [o ->]. cbn [bind].
      destruct (existsb bad xs).
      * now rewrite IH.
      * destruct IH as [out ->]. now exists (o ++ out).
Qed.

(** X14: [validateBlock] throws a TypeError exactly when the value is an
    object whose [children] is an array that holds null or undefined; on
    every other value it returns. *)
Theorem validateBlock_throws_iff (v : JsValue) (f : ManifestField)
  (p : JsString) (typeMap : TypeMap) (opts : ValidateOptions)
  (ctx : FieldContext) :
  (validateBlock v f p typeMap opts ctx = Throws TypeError
   <-> exists cs, get v (js "children") = JArr cs
                  /\ existsb isNullish cs = true)
  /\ (validateBlock v f p typeMap opts ctx <> Throws TypeError ->
      exists out, validateBlock v f p typeMap opts ctx = Returns out).
Proof.
  assert (Hcases :
            (exists cs, get v (js "children") = JArr cs
                        /\ existsb isNullish cs = true
                        /\ validateBlock v f p typeMap opts ctx
                           = Throws TypeError)
            \/ ((forall cs, get v (js "children") = JArr cs ->
                            existsb isNullish cs = false)
                /\ exists out,
                     validateBlock v f p typeMap opts ctx = Returns out)).
  { unfold validateBlock.
    destruct (negb (isObjectLike v)) eqn:Eo.
    { right. split; [ | answer ].
      intros cs Hcs. destruct v; discriminate. }
    destruct (get v (js "children")) as [ | | | | | cs | ] eqn:E;
      try (right; split; [ intros cs' [=] | answer ]).
    match goal with
    | |- context [forEachIndexed 0 cs ?body] =>
        pose proof (forEachIndexed_throws isNullish cs body) as Hloop
    end.
    cbv beta in Hloop.
    match type of Hloop with
    | ?cond -> _ =>
        assert (Hbody : cond)
          by (intros j c _; destruct (isNullish c); [ reflexivity | answer ])
    end.
    specialize (Hloop Hbody 0).
    destruct (existsb isNullish cs) eqn:Ebad.
    - left. exists cs. rewrite Hloop. now repeat split.
    - right. split; [ now intros cs' [= <-] | ].
      destruct Hloop as [out ->]. answer. }
  split; [ split | ].
  - intros Hthrow. destruct Hcases as [(cs & Hcs & Hbad & _) | (_ & out & Hout)].
    + now exists cs.
    + rewrite Hout in Hthrow. discriminate.
  - intros (cs & Hcs & Hbad).
    destruct Hcases as [(cs' & _ & _ & Hthrow) | (Hnone & _)];
      [ exact Hthrow | ].
    rewrite (Hnone cs Hcs) in Hbad. discriminate.
  - intros Hno. destruct Hcases as [(cs & _ & _ & Hthrow) | (_ & Hout)];
      [ now contradiction Hno | exact Hout ].
Qed.

Lemma validateBlock_throws_iff_witness :
  (exists cs,
     get (getProp BlockDocument.page (js "body")) (js "children") = JArr cs
     /\ existsb isNullish cs = true)
  /\ validateBlock (getProp BlockDocument.page (js "body"))
       (Fixture.fieldOf "block" "body" "Body" []) (js "body") [] noOptions
       (fieldContextOf (Fixture.fieldOf "block" "body" "Body" []))
     = Throws TypeError.
Proof.
  assert (H : exists cs,
            get (getProp BlockDocument.page (js "body")) (js "children")
            = JArr cs
            /\ existsb isNullish cs = true)
    by (exists [JNull]; split; reflexivity).
  split; [ exact H | ].
  exact (proj2 (proj1 (validateBlock_throws_iff
                         (getProp BlockDocument.page (js "body"))
                         (Fixture.fieldOf "block" "body" "Body" [])
                         (js "body") [] noOptions
                         (fieldContextOf
                            (Fixture.fieldOf "block" "body" "Body" []))))
           H).
Defined.

(** ** Items of an array *)




(** ** The bounds that [getMinConstraint] and [getMaxConstraint] return *)

Lemma rule_issues_reported (h : Host) (v : JsValue) (f : ManifestField)
  (p : JsString) (typeMap : TypeMap) (opts : ValidateOptions)
  (out : list ValidationIssue) (r : ManifestValidationRule) :
  isNullish v = false ->
  validateField h v f p typeMap opts = Returns out ->
  In r (getValidationRules f) ->
  exists pushed,
    applyRule h v p (fieldContextOf f) r = Returns pushed /\ incl pushed out.
Proof.
  intros Hv H Hr. rewrite validateField_unfold in H.
  unfold validateFieldBody in H. rewrite Hv, andb_false_r in H.
  match type of H with
  | (x <- ?m ;; _) = _ =>
      destruct m as [ structural | e ]; cbn [bind] in H; [ | discriminate ]
  end.
  destruct (applyValidationRules h v _ p f _) as [ ofRules | e ] eqn:E;
    cbn [bind] in H; [ | discriminate ].
  injection H as <-. unfold applyValidationRules in E.
  destruct (forEach_member _ _ ofRules E r Hr) as (pushed & Hb & Hincl).
  exists pushed. split; [ exact Hb | now apply incl_appr ].
Qed.

Lemma numericConstraint_rule (f : ManifestSchemaType) (flagName : JsString)
  (n : JsNumber) :
  numericConstraint f flagName = Some n ->
  exists r,
    In r (getValidationRules f)
    /\ flag r = flagName
    /\ constraintOf r = JNum n.
Proof.
  unfold numericConstraint.
  destruct (find _ _) as [ r | ] eqn:E; [ | discriminate ].
  apply find_some in E as [Hin Hflag]. apply str_eqb_eq in Hflag.
  destruct (constraint r) as [ [ | | | c | | | ] | ] eqn:Ec;
    try discriminate.
  intros [= ->]. exists r. unfold constraintOf. rewrite Ec. now repeat split.
Qed.

(** X16: the bounds that [getMinConstraint] and [getMaxConstraint] return
    are enforced by the validator, on a field of any kind: whenever
    [validateField] returns for a number below the minimum (above the
    maximum), or for a string shorter than the minimum (longer than the
    maximum), the result holds the error of the [min] ([max]) rule at the
    path of the field. *)
Theorem declared_bounds_enforced (h : Host) (v : JsValue) (f : ManifestField)
  (p : JsString) (typeMap : TypeMap) (opts : ValidateOptions)
  (out : list ValidationIssue) (n : JsNumber) :
  validateField h v f p typeMap opts = Returns out ->
  (getMinConstraint f = Some n ->
   (forall x, v = JNum x -> num_lt x n = true ->
      exists e, In e out /\ path e = p /\ severity e = sev_error
                /\ message e = js "Must be at least " ++ toStr h (JNum n))
   /\ (forall s, v = JStr s -> num_lt (ofNat (List.length s)) n = true ->
         exists e, In e out /\ path e = p /\ severity e = sev_error
                   /\ message e = js "Must be at least " ++ toStr h (JNum n)
                                    ++ js " characters"))
  /\ (getMaxConstraint f = Some n ->
      (forall x, v = JNum x -> num_gt x n = true ->
         exists e, In e out /\ path e = p /\ severity e = sev_error
                   /\ message e = js "Must be at most " ++ toStr h (JNum n))
      /\ (forall s, v = JStr s -> num_gt (ofNat (List.length s)) n = true ->
            exists e, In e out /\ path e = p /\ severity e = sev_error
                      /\ message e = js "Must be at most " ++ toStr h (JNum n)
                                       ++ js " characters (currently "
                                       ++ showNat (List.length s) ++ js ")")).
Proof.
  intros H. split; intros Hc;
    destruct (numericConstraint_rule f _ n Hc) as (r & Hr & Hflag & Hcon);
    split; intros x -> Hlt;
    pose proof (fun Hv => rule_issues_reported h _ f p typeMap opts out r
                            Hv H Hr) as Hrep;
    destruct (Hrep eq_refl) as (pushed & Hb & Hincl);
    unfold applyRule in Hb; rewrite Hflag in Hb; cbn [str_eqb] in Hb;
    change (str_eqb (js "min") (js "min")) with true in Hb;
    change (str_eqb (js "max") (js "min")) with false in Hb;
    change (str_eqb (js "max") (js "max")) with true in Hb;
    cbv iota in Hb; injection Hb as <-;
    unfold applyMin, applyMax in Hincl; rewrite Hcon in Hincl;
    cbn [toNumber] in Hincl; rewrite Hlt in Hincl;
    (eexists; split; [ apply Hincl; left; reflexivity | now repeat split ]).
Qed.

Lemma declared_bounds_enforced_witness :
  exists out,
    validateField ExampleHost.host (Fixture.num 150)
      (Fixture.fieldOf "number" "age" "Age"
         [Fixture.rule "max" (Some (Fixture.num 120))])
      (js "age") [] noOptions = Returns out
    /\ getMaxConstraint
         (Fixture.fieldOf "number" "age" "Age"
            [Fixture.rule "max" (Some (Fixture.num 120))])
       = Some (ofNat 120)
    /\ num_gt (ofNat 150) (ofNat 120) = true
    /\ exists e,
         In e out /\ path e = js "age" /\ severity e = sev_error
         /\ message e
            = js "Must be at most " ++ toStr ExampleHost.host (JNum (ofNat 120)).
Proof.
  eexists. split; [ reflexivity | ]. split; [ reflexivity | ].
  split; [ reflexivity | ].
  exact (proj1 (proj2 (declared_bounds_enforced ExampleHost.host
                         (Fixture.num 150)
                         (Fixture.fieldOf "number" "age" "Age"
                            [Fixture.rule "max" (Some (Fixture.num 120))])
                         (js "age") [] noOptions _ (ofNat 120) eq_refl)
                  eq_refl)
           (ofNat 150) eq_refl eq_refl).
Defined.

(** ** Values of the wrong shape *)

Ltac expected_error :=
  eexists; split; [ reflexivity | ];
  repeat split; first [ reflexivity | apply startsWith_app ].

(** X17: a present value that has not the shape its field's built-in kind
    expects (a string for string, text, date, datetime and url; a number
    other than NaN; a boolean; an array; a plain object; an object or array
    for reference, image, file, slug and block) gets, as the first issue, an
    error at the path of the field whose message opens with 'Expected ';
    nothing inside the value is visited, and the issues that follow are those
    of the field's rules. *)
Theorem wrong_shape_is_an_error (h : Host) (v : JsValue) (f : ManifestField)
  (p : JsString) (typeMap : TypeMap) (opts : ValidateOptions)
  (out : list ValidationIssue) (ok : JsValue -> bool) :
  validateField h v f p typeMap opts = Returns out ->
  isNullish v = false ->
  expectedShape (type f) = Some ok ->
  ok v = false ->
  exists e rest,
    out = e :: rest
    /\ path e = p
    /\ severity e = sev_error
    /\ startsWith (message e) (js "Expected ") = true
    /\ applyValidationRules h v (getValidationRules f) p f (fieldContextOf f)
       = Returns rest.
Proof.
  intros H Hv Hshape Hbad. rewrite validateField_unfold in H.
  unfold validateFieldBody in H. rewrite Hv, andb_false_r in H.
  cbv zeta in H.
  match type of H with
  | (x <- ?m ;; _) = _ =>
      assert (Hs : exists e, m = Returns [e]
                             /\ path e = p
                             /\ severity e = sev_error
                             /\ startsWith (message e) (js "Expected ") = true)
  end.
  { clear H. revert Hshape. unfold expectedShape. cbv zeta.
    repeat match goal with
           | |- context [if str_eqb (type f) ?k || str_eqb (type f) ?k'
                         then _ else _] =>
               destruct (str_eqb (type f) k || str_eqb (type f) k')
           | |- context [if str_eqb (type f) ?k then _ else _] =>
               destruct (str_eqb (type f) k)
           end;
      try discriminate; intros [= <-];
      unfold validateString, validateNumber, validateBoolean, validateDate,
        validateArray, validateObject, validateReference, validateAsset,
        validateSlug, validateUrl, validateBlock;
      destruct v; try discriminate; cbn [isObjectLike negb];
      try expected_error.
    all: cbn [isNumberNotNaN] in Hbad; destruct (Number_isNaN n);
      [ expected_error | discriminate ]. }
  destruct Hs as (e & Hs & Hp & Hsev & Hmsg). rewrite Hs in H.
  cbn [bind] in H.
  destruct (applyValidationRules h v _ p f _) as [ rest | err ];
    cbn [bind] in H; [ | discriminate ].
  injection H as <-. exists e, rest. now repeat split.
Qed.

Lemma wrong_shape_is_an_error_witness :
  exists out e rest,
    validateField ExampleHost.host (Fixture.num 7)
      (Fixture.fieldOf "string" "title" "Title" []) (js "title") [] noOptions
    = Returns out
    /\ expectedShape (type (Fixture.fieldOf "string" "title" "Title" []))
       = Some isStringValue
    /\ isStringValue (Fixture.num 7) = false
    /\ out = e :: rest
    /\ path e = js "title"
    /\ severity e = sev_error
    /\ startsWith (message e) (js "Expected ") = true.
Proof.
  destruct (wrong_shape_is_an_error ExampleHost.host (Fixture.num 7)
              (Fixture.fieldOf "string" "title" "Title" []) (js "title") []
              noOptions _ isStringValue eq_refl eq_refl eq_refl eq_refl)
    as (e & rest & Hout & Hp & Hsev & Hmsg & _).
  eexists. exists e, rest. split; [ reflexivity | ].
  split; [ reflexivity | ]. split; [ reflexivity | ].
  now repeat split.
Defined.

(** ** Properties that the schema does not declare *)

Lemma getFieldByName_declared (schemaType : ManifestSchemaType)
  (fs : list ManifestField) (f : ManifestField) :
  fields schemaType = Some fs -> In f fs ->
  getFieldByName schemaType (name f) <> None.
Proof.
  intros Hfs Hin Hnone. unfold getFieldByName in Hnone. rewrite Hfs in Hnone.
  pose proof (find_none _ _ Hnone f Hin) as H. cbv beta in H.
  now rewrite str_eqb_refl in H.
Qed.

Lemma validateRootFields_same_reads (h : Host)
  (d1 d2 : list (JsString * JsValue)) (typeMap : TypeMap)
  (opts : ValidateOptions) (stop : bool) (rootFields : list ManifestField) :
  (forall f, In f rootFields -> getProp d1 (name f) = getProp d2 (name f)) ->
  forall issues,
    validateRootFields h d1 rootFields typeMap opts stop issues
    = validateRootFields h d2 rootFields typeMap opts stop issues.
Proof.
  induction rootFields as [ | f rest IH ]; intros Hsame issues.
  - reflexivity.
  - rewrite !validateRootFields_cons, (Hsame f (or_introl eq_refl)).
    destruct (stop && existsb isError issues); [ reflexivity | ].
    destruct (validateField h _ f _ typeMap opts) as [ fi | e ];
      cbn [bind]; [ | reflexivity ].
    apply IH. intros g Hg. apply Hsame. now right.
Qed.

(** X18: the validator reads [_type] and the properties named by the fields
    that the root type declares (those that [getFieldByName] finds), and
    nothing else of the document: two documents that agree on these get the
    same outcome, so a property that the schema does not declare is never
    reported. *)
Theorem undeclared_properties_ignored (h : Host)
  (d1 d2 : list (JsString * JsValue)) (schemaType : ManifestSchemaType)
  (allTypes : list ManifestSchemaType) (opts : ValidateOptions) :
  getProp d1 (js "_type") = getProp d2 (js "_type") ->
  (forall n, getFieldByName schemaType n <> None ->
             getProp d1 n = getProp d2 n) ->
  validateDocument h d1 schemaType allTypes opts
  = validateDocument h d2 schemaType allTypes opts.
Proof.
  intros Htype Hsame. unfold validateDocument, collectIssues.
  rewrite Htype. destruct (fields schemaType) as [ fs | ] eqn:E;
    [ | reflexivity ].
  rewrite (validateRootFields_same_reads h d1 d2); [ reflexivity | ].
  intros f Hf. apply Hsame. exact (getFieldByName_declared schemaType fs f E Hf).
Qed.

Lemma undeclared_properties_ignored_witness :
  getFieldByName Fixture.articleType (js "internalNote") = None
  /\ Fixture.run [("_type", Fixture.str "article");
                  ("title", Fixture.str "Hello");
                  ("internalNote", Fixture.num 3)]%string
     = Fixture.run [("_type", Fixture.str "article");
                    ("title", Fixture.str "Hello")]%string.
Proof.
  split; [ reflexivity | ].
  apply undeclared_properties_ignored; [ reflexivity | ].
  intros n Hn. unfold Fixture.doc, getProp. cbn [map fst snd lookup].
  destruct (str_eqb (js "internalNote") n) eqn:E; [ | reflexivity ].
  apply str_eqb_eq in E. subst n. now contradiction Hn.
Defined.

(** ** Kinds without a case *)

Lemma bind_Returns {A : Type} (m : Outcome (list A)) :
  (x <- m ;; Returns ([] ++ x)) = m.
Proof. now destruct m. Qed.

(** X19: a field whose kind has no case in [validateField], and which names
    no object type with fields in the map of types, is checked against its
    rules only, whatever the shape of the value.  Among the kinds that
    [isPrimitiveType] accepts, this is the case of [email] and of no
    other. *)
Theorem kind_without_case_is_not_checked (h : Host) (v : JsValue)
  (f : ManifestField) (p : JsString) (typeMap : TypeMap)
  (opts : ValidateOptions) :
  (isNullish v = false ->
   expectedShape (type f) = None ->
   (forall t, Map_get typeMap (type f) = Some t ->
              type t <> js "object" \/ fields t = None) ->
   validateField h v f p typeMap opts
   = applyValidationRules h v (getValidationRules f) p f (fieldContextOf f))
  /\ (isPrimitiveType f = true ->
      (expectedShape (type f) = None <-> type f = js "email")).
Proof.
  split.
  - intros Hv Hshape Hmap. rewrite validateField_unfold.
    unfold validateFieldBody. rewrite Hv, andb_false_r. cbv zeta.
    unfold expectedShape in Hshape. cbv zeta in Hshape.
    repeat match type of Hshape with
           | (if ?b then _ else _) = _ =>
               destruct b; [ discriminate Hshape | ]
           end.
    destruct (Map_get typeMap (type f)) as [ t | ] eqn:E.
    + destruct (Hmap t eq_refl) as [Hno | Hno].
      * destruct (str_eqb (type t) (js "object")) eqn:Eo.
        { apply str_eqb_eq in Eo. now contradiction Hno. }
        cbn [bind]. apply bind_Returns.
      * rewrite Hno. destruct (str_eqb (type t) (js "object"));
          cbn [bind]; apply bind_Returns.
    + cbn [bind]. apply bind_Returns.
  - intros Hprim. unfold isPrimitiveType in Hprim.
    apply existsb_exists in Hprim as (k & Hin & Hk).
    apply str_eqb_eq in Hk. rewrite <- Hk.
    repeat (destruct Hin as [<- | Hin];
            [ split; [ intros H; try discriminate H; reflexivity
                     | intros H; try discriminate H; reflexivity ] | ]).
    destruct Hin.
Qed.

Lemma kind_without_case_is_not_checked_witness :
  isPrimitiveType (Fixture.fieldOf "email" "contact" "Contact" []) = true
  /\ expectedShape (type (Fixture.fieldOf "email" "contact" "Contact" []))
     = None
  /\ validateField ExampleHost.host (Fixture.num 5)
       (Fixture.fieldOf "email" "contact" "Contact" []) (js "contact") []
       noOptions
     = applyValidationRules ExampleHost.host (Fixture.num 5)
         (getValidationRules (Fixture.fieldOf "email" "contact" "Contact" []))
         (js "contact") (Fixture.fieldOf "email" "contact" "Contact" [])
         (fieldContextOf (Fixture.fieldOf "email" "contact" "Contact" []))
  /\ validateField ExampleHost.host (Fixture.num 5)
       (Fixture.fieldOf "email" "contact" "Contact" []) (js "contact") []
       noOptions
     = Returns [].
Proof.
  split; [ reflexivity | ]. split; [ reflexivity | ].
  split; [ | reflexivity ].
  apply (proj1 (kind_without_case_is_not_checked ExampleHost.host
                  (Fixture.num 5)
                  (Fixture.fieldOf "email" "contact" "Contact" [])
                  (js "contact") [] noOptions));
    [ reflexivity | reflexivity | discriminate ].
Defined.

(** ** Traversal of a schema *)

Lemma SchemaNode_nested_ind (P : SchemaNode -> Prop)
  (Hnode : forall t,
     (forall fs, node_fields t = Some fs -> Forall P fs) ->
     (forall ms, node_of t = Some ms -> Forall P ms) ->
     (forall ts, node_to t = Some ts -> Forall P ts) ->
     P t) :
  forall t, P t.
Proof.
  fix IH 1. intros [ty nm ti fs ms ts val opts iv]. apply Hnode; simpl.
  - intros l Hl. destruct fs as [ fs | ]; [ | discriminate ].
    injection Hl as <-. induction fs as [ | x xs IHxs ]; constructor.
    + apply IH.
    + exact IHxs.
  - intros l Hl. destruct ms as [ ms | ]; [ | discriminate ].
    injection Hl as <-. induction ms as [ | x xs IHxs ]; constructor.
    + apply IH.
    + exact IHxs.
  - intros l Hl. destruct ts as [ ts | ]; [ | discriminate ].
    injection Hl as <-. induction ts as [ | x xs IHxs ]; constructor.
    + apply IH.
    + exact IHxs.
Qed.

Lemma eachIndexed_cons {A B : Type} (i : nat) (x : A) (xs : list A)
  (body : nat -> A -> list B) :
  eachIndexed i (x :: xs) body = body i x ++ eachIndexed (S i) xs body.
Proof. reflexivity. Qed.

Lemma eachIndexed_In {A B : Type} (xs : list A) (body : nat -> A -> list B)
  (v : B) :
  forall i,
    In v (eachIndexed i xs body)
    <-> exists j x, nth_error xs j = Some x /\ In v (body (i + j) x).
Proof.
  induction xs as [ | y xs IH ]; intros i.
  - split; [ intros [] | intros ([ | j] & x & Hnth & _); discriminate ].
  - rewrite eachIndexed_cons, in_app_iff, IH. split.
    + intros [H | (j & x & Hnth & H)].
      * exists 0, y. rewrite Nat.add_0_r. now split.
      * exists (S j), x. rewrite Nat.add_succ_r. now split.
    + intros ([ | j] & x & Hnth & H).
      * injection Hnth as <-. rewrite Nat.add_0_r in H. now left.
      * right. exists j, x. rewrite Nat.add_succ_r in H. now split.
Qed.

Lemma walk_unfold (t : SchemaNode) (path : list PathElement) :
  walk t path =
  (t, path)
  :: match node_fields t with
     | Some l =>
         flat_map (fun field => walk field (path ++ [node_name field])) l
     | None => []
     end
     ++ match node_of t with
        | Some l =>
            eachIndexed 0 l
              (fun i member => walk member (path ++ [indexed (js "of") i]))
        | None => []
        end
     ++ match node_to t with
        | Some l =>
            eachIndexed 0 l
              (fun i target => walk target (path ++ [indexed (js "to") i]))
        | None => []
        end.
Proof. destruct t; reflexivity. Qed.

Lemma walk_sound (t : SchemaNode) :
  forall path v, In v (walk t path) -> Reaches t path v.
Proof.
  induction t as [t IHf IHo IHt] using SchemaNode_nested_ind.
  intros path v H. rewrite walk_unfold in H.
  destruct H as [<- | H]; [ constructor | ].
  apply in_app_or in H as [H | H]; [ | apply in_app_or in H as [H | H] ].
  - destruct (node_fields t) as [ fs | ] eqn:E; [ | destruct H ].
    apply in_flat_map in H as (field & Hin & H).
    specialize (IHf fs eq_refl). rewrite Forall_forall in IHf.
    exact (Reaches_field t path fs field v E Hin (IHf field Hin _ _ H)).
  - destruct (node_of t) as [ ms | ] eqn:E; [ | destruct H ].
    apply eachIndexed_In in H as (j & member & Hnth & H).
    specialize (IHo ms eq_refl). rewrite Forall_forall in IHo.
    exact (Reaches_of t path ms j member v E Hnth
             (IHo member (nth_error_In _ _ Hnth) _ _ H)).
  - destruct (node_to t) as [ ts | ] eqn:E; [ | destruct H ].
    apply eachIndexed_In in H as (j & target & Hnth & H).
    specialize (IHt ts eq_refl). rewrite Forall_forall in IHt.
    exact (Reaches_to t path ts j target v E Hnth
             (IHt target (nth_error_In _ _ Hnth) _ _ H)).
Qed.

Lemma walk_complete (t : SchemaNode) (path : list PathElement) (v : Visit) :
  Reaches t path v -> In v (walk t path).
Proof.
  induction 1 as [ t path
                 | t path fs field v Hfs Hin _ IH
                 | t path ms i member v Hms Hnth _ IH
                 | t path ts i target v Hts Hnth _ IH ];
    rewrite walk_unfold.
  - now left.
  - right. apply in_or_app. left. rewrite Hfs.
    apply in_flat_map. now exists field.
  - right. apply in_or_app. right. apply in_or_app. left. rewrite Hms.
    apply eachIndexed_In. now exists i, member.
  - right. apply in_or_app. right. apply in_or_app. right. rewrite Hts.
    apply eachIndexed_In. now exists i, target.
Qed.

Lemma Reaches_extends (t : SchemaNode) (path : list PathElement) (v : Visit) :
  Reaches t path v -> exists suffix, snd v = path ++ suffix.
Proof.
  induction 1 as [ t path
                 | t path fs field v _ _ _ [suffix IH]
                 | t path ms i member v _ _ _ [suffix IH]
                 | t path ts i target v _ _ _ [suffix IH] ].
  - exists []. simpl. now rewrite app_nil_r.
  - eexists. rewrite IH, <- app_assoc. reflexivity.
  - eexists. rewrite IH, <- app_assoc. reflexivity.
  - eexists. rewrite IH, <- app_assoc. reflexivity.
Qed.

(** The repository's test of [walkSchemaTypes]. *)
Example test_walkSchemaTypes :
  let visited :=
    map (fun v => NodeFixture.joined (snd v))
      (walkSchemaTypes [NodeFixture.articleType]) in
  In (js "article") visited
  /\ In (js "article.title") visited
  /\ In (js "article.author") visited
  /\ In (js "article.tags") visited.
Proof. vm_compute. intuition. Qed.

(** X20: [walkSchemaTypes] calls the visitor exactly for the nodes of the
    given types: for each type, then for each of its fields, members of [of]
    and targets of [to], at any depth, with the path made of the type's
    name, the names of the fields and the indices [of[i]] and [to[i]] that
    lead to the node.  The first call is for the first type, and every path
    opens with the name of the type the node belongs to. *)
Theorem walkSchemaTypes_visits (types : list SchemaNode) :
  (forall v,
     In v (walkSchemaTypes types)
     <-> exists t, In t types /\ Reaches t [node_name t] v)
  /\ (forall t rest, types = t :: rest ->
        hd_error (walkSchemaTypes types) = Some (t, [node_name t]))
  /\ (forall v, In v (walkSchemaTypes types) ->
        exists t suffix, In t types /\ snd v = node_name t :: suffix).
Proof.
  assert (Hiff : forall v,
            In v (walkSchemaTypes types)
            <-> exists t, In t types /\ Reaches t [node_name t] v).
  { intros v. unfold walkSchemaTypes. rewrite in_flat_map. split.
    - intros (t & Hin & H). exists t. split; [ exact Hin | ].
      now apply walk_sound.
    - intros (t & Hin & H). exists t. split; [ exact Hin | ].
      now apply walk_complete. }
  split; [ exact Hiff | split ].
  - intros t rest ->. unfold walkSchemaTypes. cbn [flat_map].
    now rewrite walk_unfold.
  - intros v Hv. apply Hiff in Hv as (t & Hin & H).
    destruct (Reaches_extends _ _ _ H) as [suffix Hs].
    exists t, suffix. split; [ exact Hin | exact Hs ].
Qed.

Lemma walkSchemaTypes_visits_witness :
  In (NodeFixture.node "person" None,
      [Some (js "article"); Some (js "author"); indexed (js "to") 1])
     (walkSchemaTypes [NodeFixture.articleType])
  /\ exists t suffix,
       In t [NodeFixture.articleType]
       /\ snd (NodeFixture.node "person" None,
               [Some (js "article"); Some (js "author");
                indexed (js "to") 1])
          = node_name t :: suffix.
Proof.
  assert (H : In (NodeFixture.node "person" None,
                  [Some (js "article"); Some (js "author");
                   indexed (js "to") 1])
                 (walkSchemaTypes [NodeFixture.articleType])).
  { apply (proj1 (walkSchemaTypes_visits [NodeFixture.articleType])).
    exists NodeFixture.articleType. split; [ now left | ].
    eapply Reaches_field; [ reflexivity | do 3 right; left; reflexivity | ].
    eapply Reaches_to with (i := 1); [ reflexivity | reflexivity | ].
    apply Reaches_here. }
  split; [ exact H | ].
  exact (proj2 (proj2 (walkSchemaTypes_visits [NodeFixture.articleType])) _ H).
Defined.

(** ** Referenced type names *)

Lemma nonEmpty_true (s : JsString) : nonEmpty s = true <-> s <> [].
Proof. destruct s; simpl; split; congruence. Qed.

Lemma Set_add_In (names : list JsString) (x n : JsString) :
  In n (Set_add names x) <-> In n names \/ n = x.
Proof.
  unfold Set_add. destruct (existsb _ names) eqn:E.
  - split; [ now left | ]. intros [H | ->]; [ exact H | ].
    apply existsb_exists in E as (y & Hin & Hy).
    apply str_eqb_eq in Hy. now subst y.
  - rewrite in_app_iff. simpl. intuition.
Qed.

Lemma Set_add_NoDup (names : list JsString) (x : JsString) :
  NoDup names -> NoDup (Set_add names x).
Proof.
  intros Hd. unfold Set_add. destruct (existsb _ names) eqn:E; [ exact Hd | ].
  apply NoDup_app; [ exact Hd | repeat constructor; intros [] | ].
  intros y Hy [<- | []].
  enough (existsb (fun z => str_eqb z x) names = true) by congruence.
  apply existsb_exists. exists x. split; [ exact Hy | apply str_eqb_refl ].
Qed.

Lemma fold_left_In {A : Type} (step : list JsString -> A -> list JsString)
  (R : A -> JsString -> Prop) (l : list A) (n : JsString) :
  (forall x, In x l ->
     forall acc, In n (step acc x) <-> In n acc \/ R x n) ->
  forall acc,
    In n (fold_left step l acc)
    <-> In n acc \/ exists x, In x l /\ R x n.
Proof.
  induction l as [ | y l IH ]; intros Hstep acc; simpl.
  - split; [ now left | ]. intros [H | (x & [] & _)]. exact H.
  - rewrite IH by (intros x Hx; apply Hstep; now right).
    rewrite (Hstep y (or_introl eq_refl)). split.
    + intros [[H | H] | (x & Hx & H)].
      * now left.
      * right. exists y. split; [ now left | exact H ].
      * right. exists x. split; [ now right | exact H ].
    + intros [H | (x & [<- | Hx] & H)].
      * left. now left.
      * left. now right.
      * right. now exists x.
Qed.

Lemma fold_left_NoDup {A : Type} (step : list JsString -> A -> list JsString)
  (l : list A) :
  (forall x, In x l -> forall acc, NoDup acc -> NoDup (step acc x)) ->
  forall acc, NoDup acc -> NoDup (fold_left step l acc).
Proof.
  induction l as [ | y l IH ]; intros Hstep acc Hd; simpl.
  - exact Hd.
  - apply IH; [ intros x Hx; apply Hstep; now right | ].
    apply Hstep; [ now left | exact Hd ].
Qed.

Lemma collect_unfold (t : SchemaNode) (names : list JsString) :
  collect t names =
  let add acc (n : SchemaNode) :=
    if nonEmpty (node_type n) && negb (isPrimitiveTypeName (node_type n))
    then Set_add acc (node_type n)
    else acc in
  let afterTargets :=
    match node_to t with
    | Some l =>
        fold_left
          (fun acc target =>
             if nonEmpty (node_type target)
             then Set_add acc (node_type target)
             else acc)
          l names
    | None => names
    end in
  let afterMembers :=
    match node_of t with
    | Some l => fold_left (fun acc member => collect member (add acc member))
                  l afterTargets
    | None => afterTargets
    end in
  match node_fields t with
  | Some l => fold_left (fun acc field => collect field (add acc field))
                l afterMembers
  | None => afterMembers
  end.
Proof. destruct t; reflexivity. Qed.

Lemma collect_step_In (x : SchemaNode) (n : JsString) :
  (forall names, In n (collect x names) <-> In n names \/ Refers x n) ->
  forall acc,
    In n (collect x
            (if nonEmpty (node_type x)
                && negb (isPrimitiveTypeName (node_type x))
             then Set_add acc (node_type x)
             else acc))
    <-> In n acc \/ namedOrInside x n.
Proof.
  intros IH acc. rewrite IH. unfold namedOrInside.
  destruct (nonEmpty (node_type x)) eqn:En;
    destruct (isPrimitiveTypeName (node_type x)) eqn:Ep; cbn [andb negb];
    rewrite ?Set_add_In; try apply nonEmpty_true in En;
    try (assert (node_type x = [])
           by (destruct (node_type x); [ reflexivity | discriminate ]));
    intuition congruence.
Qed.

Lemma collect_spec (t : SchemaNode) :
  forall n names,
    (In n (collect t names) <-> In n names \/ Refers t n)
    /\ (NoDup names -> NoDup (collect t names)).
Proof.
  induction t as [t IHf IHo IHt] using SchemaNode_nested_ind.
  intros n names. rewrite collect_unfold. cbv zeta.
  set (afterTargets :=
         match node_to t with
         | Some l => fold_left _ l names
         | None => names
         end).
  set (afterMembers :=
         match node_of t with
         | Some l => fold_left _ l afterTargets
         | None => afterTargets
         end).
  assert (Htargets :
            (In n afterTargets
             <-> In n names
                 \/ exists ts target,
                      node_to t = Some ts /\ In target ts
                      /\ node_type target <> [] /\ n = node_type target)
            /\ (NoDup names -> NoDup afterTargets)).
  { unfold afterTargets. destruct (node_to t) as [ ts | ].
    - split.
      + rewrite (fold_left_In _
                   (fun target n =>
                      node_type target <> [] /\ n = node_type target)).
        * split; intros [H | H]; try (now left); right.
          -- destruct H as (x & Hx & H1 & H2). now exists ts, x.
          -- destruct H as (ts' & x & [= <-] & Hx & H1 & H2). now exists x.
        * intros x _ acc. destruct (nonEmpty (node_type x)) eqn:En.
          -- rewrite Set_add_In. apply nonEmpty_true in En. intuition.
          -- assert (node_type x = [])
               by (destruct (node_type x); [ reflexivity | discriminate ]).
             intuition.
      + apply fold_left_NoDup. intros x _ acc Hd.
        destruct (nonEmpty (node_type x)); [ now apply Set_add_NoDup | exact Hd ].
    - split; [ | auto ]. split; [ now left | ].
      intros [H | (ts & x & [=] & _)]. exact H. }
  assert (Hmembers :
            (In n afterMembers
             <-> In n afterTargets
                 \/ exists ms member,
                      node_of t = Some ms /\ In member ms
                      /\ namedOrInside member n)
            /\ (NoDup afterTargets -> NoDup afterMembers)).
  { unfold afterMembers. destruct (node_of t) as [ ms | ].
    - specialize (IHo ms eq_refl). rewrite Forall_forall in IHo. split.
      + rewrite (fold_left_In _ namedOrInside).
        * split; intros [H | H]; try (now left); right.
          -- destruct H as (x & Hx & H). now exists ms, x.
          -- destruct H as (ms' & x & [= <-] & Hx & H). now exists x.
        * intros x Hx acc. apply collect_step_In.
          intros names'. exact (proj1 (IHo x Hx n names')).
      + apply fold_left_NoDup. intros x Hx acc Hd.
        apply (IHo x Hx n).
        destruct (_ && _); [ now apply Set_add_NoDup | exact Hd ].
    - split; [ | auto ]. split; [ now left | ].
      intros [H | (ms & x & [=] & _)]. exact H. }
  assert (Hfields :
            (In n (match node_fields t with
                   | Some l =>
                       fold_left
                         (fun acc field =>
                            collect field
                              (if nonEmpty (node_type field)
                                  && negb (isPrimitiveTypeName
                                             (node_type field))
                               then Set_add acc (node_type field)
                               else acc))
                         l afterMembers
                   | None => afterMembers
                   end)
             <-> In n afterMembers
                 \/ exists fs field,
                      node_fields t = Some fs /\ In field fs
                      /\ namedOrInside field n)
            /\ (NoDup afterMembers ->
                NoDup (match node_fields t with
                       | Some l =>
                           fold_left
                             (fun acc field =>
                                collect field
                                  (if nonEmpty (node_type field)
                                      && negb (isPrimitiveTypeName
                                                 (node_type field))
                                   then Set_add acc (node_type field)
                                   else acc))
                             l afterMembers
                       | None => afterMembers
                       end))).
  { destruct (node_fields t) as [ fs | ].
    - specialize (IHf fs eq_refl). rewrite Forall_forall in IHf. split.
      + rewrite (fold_left_In _ namedOrInside).
        * split; intros [H | H]; try (now left); right.
          -- destruct H as (x & Hx & H). now exists fs, x.
          -- destruct H as (fs' & x & [= <-] & Hx & H). now exists x.
        * intros x Hx acc. apply collect_step_In.
          intros names'. exact (proj1 (IHf x Hx n names')).
      + apply fold_left_NoDup. intros x Hx acc Hd.
        apply (IHf x Hx n).
        destruct (_ && _); [ now apply Set_add_NoDup | exact Hd ].
    - split; [ | auto ]. split; [ now left | ].
      intros [H | (fs & x & [=] & _)]. exact H. }
  destruct Htargets as [Ht Hdt], Hmembers as [Hm Hdm], Hfields as [Hf Hdf].
  split; [ | auto ].
  rewrite Hf, Hm, Ht. split.
  - intros [[[H | H] | H] | H]; [ now left | right .. ].
    + destruct H as (ts & x & E & Hx & Hne & ->).
      exact (Refers_target t ts x E Hx Hne).
    + destruct H as (ms & x & E & Hx & [(Hne & Hp & ->) | H]).
      * exact (Refers_member t ms x E Hx Hne Hp).
      * exact (Refers_in_member t ms x n E Hx H).
    + destruct H as (fs & x & E & Hx & [(Hne & Hp & ->) | H]).
      * exact (Refers_field t fs x E Hx Hne Hp).
      * exact (Refers_in_field t fs x n E Hx H).
  - intros [H | H]; [ now do 3 left | ].
    destruct H as [ t ts x E Hx Hne
                  | t ms x E Hx Hne Hp
                  | t fs x E Hx Hne Hp
                  | t ms x n E Hx H
                  | t fs x n E Hx H ].
    + do 2 left. right. now exists ts, x.
    + left. right. exists ms, x. repeat split; auto. left. now repeat split.
    + right. exists fs, x. repeat split; auto. left. now repeat split.
    + left. right. exists ms, x. repeat split; auto. now right.
    + right. exists fs, x. repeat split; auto. now right.
Qed.

(** The repository's test of [getReferencedTypeNames], which looks for the
    two names in the result. *)
Example test_getReferencedTypeNames :
  getReferencedTypeNames NodeFixture.articleType = [js "author"; js "person"].
Proof. reflexivity. Qed.

(** X21: [getReferencedTypeNames] returns, without repetition, exactly the
    type names that the type refers to: the non-empty types of the targets
    of [to] (whether built in or not), and the non-empty types, other than
    the built-in ones, of the members of [of] and of the fields, for the type
    itself and for every node below it through [of] and [fields]; the targets
    of [to] are not descended into. *)
Theorem getReferencedTypeNames_exact (t : SchemaNode) :
  NoDup (getReferencedTypeNames t)
  /\ (forall n, In n (getReferencedTypeNames t) <-> Refers t n)
  /\ (forall n, In n (getReferencedTypeNames t) -> n <> []).
Proof.
  assert (Hiff : forall n, In n (getReferencedTypeNames t) <-> Refers t n).
  { intros n. unfold getReferencedTypeNames.
    rewrite (proj1 (collect_spec t n [])). split; [ | now right ].
    intros [[] | H]. exact H. }
  split; [ | split ].
  - unfold getReferencedTypeNames.
    apply (proj2 (collect_spec t [] [])). constructor.
  - exact Hiff.
  - intros n Hn. apply Hiff in Hn. clear Hiff.
    induction Hn as [ t ts x E Hx Hne
                    | t ms x E Hx Hne Hp
                    | t fs x E Hx Hne Hp
                    | t ms x n E Hx H IH
                    | t fs x n E Hx H IH ]; assumption.
Qed.

Lemma getReferencedTypeNames_exact_witness :
  Refers NodeFixture.articleType (js "person")
  /\ In (js "person") (getReferencedTypeNames NodeFixture.articleType)
  /\ ~ In (js "string") (getReferencedTypeNames NodeFixture.articleType).
Proof.
  assert (H : Refers NodeFixture.articleType (js "person")).
  { eapply Refers_in_field;
      [ reflexivity | do 3 right; left; reflexivity | ].
    apply (Refers_target _ [NodeFixture.node "author" None;
                            NodeFixture.node "person" None]
             (NodeFixture.node "person" None));
      [ reflexivity | right; left; reflexivity | discriminate ]. }
  split; [ exact H | ]. split.
  - exact (proj2 (proj1 (proj2 (getReferencedTypeNames_exact
                                  NodeFixture.articleType)) (js "person")) H).
  - intros [Hin | [Hin | []]]; discriminate.
Defined.

(** ** Skeletons *)

Lemma defaultValue_unfold (typeMap : option NodeMap) (includeOptional : bool)
  (ofCustomType : SchemaNode -> option JsValue) (field : SchemaNode) :
  defaultValue typeMap includeOptional ofCustomType field
  = defaultValueBody typeMap includeOptional ofCustomType
      (defaultValue typeMap includeOptional ofCustomType) field.
Proof. destruct field; reflexivity. Qed.

Lemma fillFields_cons (inc : bool) (recur : SchemaNode -> option JsValue)
  (f : SchemaNode) (rest : list SchemaNode)
  (skeleton : list (JsString * JsValue)) :
  fillFields inc recur (f :: rest) skeleton =
  if included inc f then
    match recur f with
    | Some d =>
        fillFields inc recur rest
          (if negb (isUndefined d) then Map_set skeleton (propertyKey f) d
           else skeleton)
    | None => None
    end
  else fillFields inc recur rest skeleton.
Proof.
  unfold included. cbn [fillFields].
  destruct (isFieldRequired (toSchemaType f)), inc; reflexivity.
Qed.

Lemma fillFields_ext (inc : bool) (r1 r2 : SchemaNode -> option JsValue)
  (fs : list SchemaNode) :
  (forall f, In f fs -> r1 f = r2 f) ->
  forall skeleton, fillFields inc r1 fs skeleton = fillFields inc r2 fs skeleton.
Proof.
  induction fs as [ | f fs IH ]; intros H skeleton; [ reflexivity | ].
  rewrite !fillFields_cons, (H f (or_introl eq_refl)).
  destruct (included inc f); [ | apply IH; intros g Hg; apply H; now right ].
  destruct (r2 f); [ | reflexivity ].
  apply IH. intros g Hg. apply H. now right.
Qed.

Lemma fillFields_returns (inc : bool) (recur : SchemaNode -> option JsValue)
  (fs : list SchemaNode) :
  (forall f, In f fs -> exists d, recur f = Some d) ->
  forall skeleton, exists out, fillFields inc recur fs skeleton = Some out.
Proof.
  induction fs as [ | f fs IH ]; intros H skeleton; [ now exists skeleton | ].
  rewrite fillFields_cons.
  destruct (included inc f); [ | apply IH; intros g Hg; apply H; now right ].
  destruct (H f (or_introl eq_refl)) as [d ->].
  apply IH. intros g Hg. apply H. now right.
Qed.

Lemma fillFields_none (inc : bool) (recur : SchemaNode -> option JsValue)
  (fs : list SchemaNode) (f : SchemaNode) :
  In f fs -> included inc f = true -> recur f = None ->
  forall skeleton, fillFields inc recur fs skeleton = None.
Proof.
  intros Hin Hinc Hnone.
  induction fs as [ | g fs IH ]; intros skeleton; [ destruct Hin | ].
  rewrite fillFields_cons. destruct Hin as [-> | Hin].
  - now rewrite Hinc, Hnone.
  - destruct (included inc g); [ | now apply IH ].
    destruct (recur g); [ now apply IH | reflexivity ].
Qed.

Lemma Map_set_In {V : Type} (m : list (JsString * V)) (k k' : JsString)
  (v v' : V) :
  In (k', v') (Map_set m k v) -> In (k', v') m \/ (k' = k /\ v' = v).
Proof.
  induction m as [ | [k0 v0] m IH ]; simpl.
  - intros [[= <- <-] | []]. now right.
  - destruct (str_eqb k0 k) eqn:E.
    + apply str_eqb_eq in E. subst k0.
      intros [[= <- <-] | H]; [ now right | left; now right ].
    + intros [H | H]; [ left; now left | ].
      destruct (IH H) as [H' | H']; [ left; now right | now right ].
Qed.

Lemma lookup_Map_set (m : list (JsString * JsValue)) (k k' : JsString)
  (v : JsValue) :
  lookup (Map_set m k v) k' = if str_eqb k k' then Some v else lookup m k'.
Proof.
  induction m as [ | [k0 v0] rest IH ]; simpl.
  - reflexivity.
  - destruct (str_eqb k0 k) eqn:E0; simpl.
    + apply str_eqb_eq in E0. subst k0. now destruct (str_eqb k k').
    + rewrite IH. destruct (str_eqb k0 k') eqn:E1; [ | reflexivity ].
      apply str_eqb_eq in E1. subst k'. now rewrite str_eqb_sym, E0.
Qed.

Lemma fillFields_entries (inc : bool) (recur : SchemaNode -> option JsValue)
  (fs : list SchemaNode) :
  forall skeleton out,
    fillFields inc recur fs skeleton = Some out ->
    forall k v, In (k, v) out ->
      In (k, v) skeleton
      \/ exists f, In f fs /\ propertyKey f = k /\ included inc f = true
                   /\ recur f = Some v /\ v <> JUndefined.
Proof.
  induction fs as [ | f fs IH ]; intros skeleton out H k v Hin.
  - injection H as <-. now left.
  - rewrite fillFields_cons in H.
    destruct (included inc f) eqn:Einc.
    + destruct (recur f) as [ d | ] eqn:Ed; [ | discriminate ].
      destruct (IH _ _ H k v Hin) as [Hsk | (g & Hg & Hrest)];
        [ | right; exists g; split; [ now right | exact Hrest ] ].
      destruct (isUndefined d) eqn:Eu; cbn [negb] in Hsk; [ now left | ].
      destruct (Map_set_In _ _ _ _ _ Hsk) as [Hold | [-> ->]];
        [ now left | right ].
      exists f. split; [ now left | ]. split; [ reflexivity | ].
      split; [ exact Einc | ]. split; [ exact Ed | ].
      intros Hd. rewrite Hd in Eu. discriminate Eu.
    + destruct (IH _ _ H k v Hin) as [Hsk | (g & Hg & Hrest)];
        [ now left | right; exists g; split; [ now right | exact Hrest ] ].
Qed.

Lemma fillFields_keeps (inc : bool) (recur : SchemaNode -> option JsValue)
  (fs : list SchemaNode) (k : JsString) :
  forall skeleton out,
    fillFields inc recur fs skeleton = Some out ->
    lookup skeleton k <> None -> lookup out k <> None.
Proof.
  induction fs as [ | f fs IH ]; intros skeleton out H Hk.
  - now injection H as <-.
  - rewrite fillFields_cons in H.
    destruct (included inc f); [ | exact (IH _ _ H Hk) ].
    destruct (recur f) as [ d | ]; [ | discriminate ].
    apply (IH _ _ H). destruct (negb (isUndefined d)); [ | exact Hk ].
    rewrite lookup_Map_set. now destruct (str_eqb (propertyKey f) k).
Qed.

Lemma fillFields_sets (inc : bool) (recur : SchemaNode -> option JsValue)
  (fs : list SchemaNode) (f : SchemaNode) (d : JsValue) :
  In f fs -> included inc f = true -> recur f = Some d -> d <> JUndefined ->
  forall skeleton out,
    fillFields inc recur fs skeleton = Some out ->
    lookup out (propertyKey f) <> None.
Proof.
  intros Hin Hinc Hd Hdef.
  induction fs as [ | g fs IH ]; intros skeleton out H; [ destruct Hin | ].
  rewrite fillFields_cons in H. destruct Hin as [-> | Hin].
  - rewrite Hinc, Hd in H. apply (fillFields_keeps _ _ _ _ _ _ H).
    destruct d; try (now contradiction Hdef); cbn [isUndefined negb];
      rewrite lookup_Map_set, str_eqb_refl; discriminate.
  - destruct (included inc g); [ | exact (IH Hin _ _ H) ].
    destruct (recur g); [ exact (IH Hin _ _ H) | discriminate ].
Qed.


Lemma defaultValue_without_map (inc : bool)
  (oc1 oc2 : SchemaNode -> option JsValue) (field : SchemaNode) :
  defaultValue None inc oc1 field = defaultValue None inc oc2 field
  /\ exists d, defaultValue None inc oc1 field = Some d.
Proof.
  induction field as [field IHf _ _] using SchemaNode_nested_ind.
  rewrite !defaultValue_unfold. unfold defaultValueBody.
  assert (Hkind :
            defaultByKind None inc oc1 (defaultValue None inc oc1) field
            = defaultByKind None inc oc2 (defaultValue None inc oc2) field
            /\ exists d,
                 defaultByKind None inc oc1 (defaultValue None inc oc1) field
                 = Some d).
  { unfold defaultByKind. cbv zeta.
    repeat match goal with
           | |- context [if ?b then _ else _] =>
               destruct b; [ split; [ reflexivity | eexists; reflexivity ] | ]
           end.
    destruct (str_eqb (node_type field) (js "object")).
    - unfold objectSkeletonWith. cbv zeta.
      destruct (node_fields field) as [ fs | ];
        [ | split; [ reflexivity | eexists; reflexivity ] ].
      specialize (IHf fs eq_refl). rewrite Forall_forall in IHf.
      rewrite (fillFields_ext inc _ (defaultValue None inc oc2) fs)
        by (intros g Hg; exact (proj1 (IHf g Hg))).
      split; [ reflexivity | ].
      match goal with
      | |- context [fillFields inc ?r fs ?sk] =>
          destruct (fillFields_returns inc r fs) with (skeleton := sk)
            as [out ->]
      end.
      + intros g Hg. destruct (proj2 (IHf g Hg)) as [d Hd].
        exists d. rewrite <- Hd. symmetry. exact (proj1 (IHf g Hg)).
      + eexists; reflexivity.
    - destruct (str_eqb (node_type field) (js "block"));
        split; try reflexivity; eexists; reflexivity. }
  destruct Hkind as [Heq [d Hd]].
  destruct (negb (isUndefined (initialValueOf field)));
    [ split; [ reflexivity | eexists; reflexivity ] | ].
  destruct (getListOptions (toSchemaType field)) as [ [ | first rest ] | ];
    try (split; [ exact Heq | exists d; exact Hd ]).
  destruct (truthy first);
    [ split; [ reflexivity | eexists; reflexivity ]
    | split; [ exact Heq | exists d; exact Hd ] ].
Qed.

(** X22: without a [typeMap] (the default of [generateDocumentSkeleton]) no
    type name is followed: the generator returns, and the bound on the
    number of names followed in a row plays no part. *)
Theorem skeleton_without_typeMap_returns (fuel : nat) (t : SchemaNode)
  (o : GenerateSkeletonOptions) :
  skeletonTypeMap o = None ->
  exists skeleton,
    generateDocumentSkeleton fuel t o = Some skeleton
    /\ generateDocumentSkeleton 0 t o = Some skeleton.
Proof.
  intros Hmap. unfold generateDocumentSkeleton. rewrite Hmap. cbv zeta.
  destruct (node_fields t) as [ fs | ]; [ | eexists; split; reflexivity ].
  unfold getDefaultValueForField.
  match goal with
  | |- context [fillFields ?inc ?r fs ?sk] =>
      destruct (fillFields_returns inc r fs) with (skeleton := sk)
        as [out Hout]
  end.
  - intros f _.
    exact (proj2 (defaultValue_without_map _ _ (fun _ => None) f)).
  - exists out. split; [ exact Hout | ]. rewrite <- Hout.
    apply fillFields_ext. intros f _.
    exact (proj1 (defaultValue_without_map _ _ _ f)).
Qed.

Lemma skeleton_without_typeMap_returns_witness :
  skeletonTypeMap noSkeletonOptions = None
  /\ exists skeleton,
       generateDocumentSkeleton 5 NodeFixture.articleType noSkeletonOptions
       = Some skeleton
       /\ generateDocumentSkeleton 0 NodeFixture.articleType noSkeletonOptions
          = Some skeleton.
Proof.
  split; [ reflexivity | ].
  apply skeleton_without_typeMap_returns. reflexivity.
Defined.

(** X23: what a skeleton holds, for a type and a type map none of whose
    fields, at any depth, is named [__proto__] (under that key an assignment
    creates no property).  The property [_type] is always there; every other
    property is [_id], or is named after a field that is required (or any
    field, when optional fields are included) and holds the default value of
    that field, which is not undefined; and every such field whose default
    value is not undefined has its property. *)
Theorem skeleton_properties (fuel : nat) (t : SchemaNode)
  (o : GenerateSkeletonOptions) (skeleton : list (JsString * JsValue)) :
  assignable t = true ->
  assignableMap (skeletonTypeMap o) = true ->
  generateDocumentSkeleton fuel t o = Some skeleton ->
  let inc := withDefault (includeOptional o) false in
  lookup skeleton (js "_type") <> None
  /\ (forall k v, In (k, v) skeleton ->
        k = js "_type" \/ k = js "_id"
        \/ exists fs f,
             node_fields t = Some fs /\ In f fs /\ propertyKey f = k
             /\ included inc f = true
             /\ getDefaultValueForField fuel f (skeletonTypeMap o) inc = Some v
             /\ v <> JUndefined)
  /\ (forall fs f d,
        node_fields t = Some fs -> In f fs -> included inc f = true ->
        getDefaultValueForField fuel f (skeletonTypeMap o) inc = Some d ->
        d <> JUndefined ->
        lookup skeleton (propertyKey f) <> None).
Proof.
  intros _ _ H inc. unfold generateDocumentSkeleton in H. cbv zeta in H.
  fold inc in H.
  set (base := match documentId o with
               | Some (c :: s) =>
                   Map_set [(js "_type", nameValue t)] (js "_id")
                     (JStr (c :: s))
               | _ => [(js "_type", nameValue t)]
               end) in H.
  assert (Htype : lookup base (js "_type") <> None)
    by (unfold base; destruct (documentId o) as [ [ | c s ] | ]; discriminate).
  assert (Hbase : forall k v, In (k, v) base -> k = js "_type" \/ k = js "_id").
  { unfold base. intros k v Hin.
    destruct (documentId o) as [ [ | c s ] | ];
      try (destruct Hin as [[= <- _] | []]; now left).
    destruct Hin as [[= <- _] | [[= <- _] | []]]; [ now left | now right ]. }
  destruct (node_fields t) as [ fs | ] eqn:Efs.
  - split; [ exact (fillFields_keeps _ _ _ _ _ _ H Htype) | split ].
    + intros k v Hin.
      destruct (fillFields_entries _ _ _ _ _ H k v Hin)
        as [Hold | (f & Hf & Hk & Hinc & Hd & Hdef)].
      * destruct (Hbase k v Hold) as [-> | ->]; [ now left | right; now left ].
      * right. right. exists fs, f. now repeat split.
    + intros fs' f d [= <-] Hf Hinc Hd Hdef.
      exact (fillFields_sets _ _ _ f d Hf Hinc Hd Hdef _ _ H).
  - injection H as <-. split; [ exact Htype | split ].
    + intros k v Hin.
      destruct (Hbase k v Hin) as [-> | ->]; [ now left | right; now left ].
    + intros fs f d [=].
Qed.

Lemma skeleton_properties_witness :
  exists skeleton,
    generateDocumentSkeleton 0 NodeFixture.articleType noSkeletonOptions
    = Some skeleton
    /\ skeleton = [(js "_type", JStr (js "article")); (js "title", JStr [])]
    /\ assignable NodeFixture.articleType = true
    /\ assignableMap (skeletonTypeMap noSkeletonOptions) = true
    /\ lookup skeleton (js "_type") <> None
    /\ (forall k v, In (k, v) skeleton ->
          k = js "_type" \/ k = js "_id"
          \/ exists fs f,
               node_fields NodeFixture.articleType = Some fs /\ In f fs
               /\ propertyKey f = k
               /\ included false f = true
               /\ getDefaultValueForField 0 f None false = Some v
               /\ v <> JUndefined)
    /\ (forall fs f d,
          node_fields NodeFixture.articleType = Some fs -> In f fs ->
          included false f = true ->
          getDefaultValueForField 0 f None false = Some d ->
          d <> JUndefined ->
          lookup skeleton (propertyKey f) <> None).
Proof.
  eexists. split; [ reflexivity | ]. split; [ reflexivity | ].
  split; [ reflexivity | ]. split; [ reflexivity | ].
  destruct (skeleton_properties 0 NodeFixture.articleType noSkeletonOptions
              _ eq_refl eq_refl eq_refl) as (H1 & H2 & H3).
  split; [ exact H1 | split; [ exact H2 | exact H3 ] ].
Defined.

(** ** A type that names itself *)

Lemma not_primitive_kind (n k : JsString) :
  isPrimitiveTypeName n = false ->
  In k [js "string"; js "number"; js "boolean"; js "date"; js "datetime";
        js "text"; js "url"; js "slug"; js "email"; js "array"; js "object";
        js "reference"; js "image"; js "file"; js "block"] ->
  str_eqb n k = false.
Proof.
  intros Hp Hk. destruct (str_eqb n k) eqn:E; [ | reflexivity ].
  apply str_eqb_eq in E. subst k.
  enough (isPrimitiveTypeName n = true) by congruence.
  apply existsb_exists. exists n. split; [ exact Hk | apply str_eqb_refl ].
Qed.

Lemma defaultByKind_custom (types : NodeMap) (inc : bool)
  (oc recur : SchemaNode -> option JsValue) (f customType : SchemaNode) :
  isPrimitiveTypeName (node_type f) = false ->
  Map_get types (node_type f) = Some customType ->
  node_type customType = js "object" ->
  defaultByKind (Some types) inc oc recur f = oc customType.
Proof.
  intros Hp Hget Hobj. unfold defaultByKind. cbv zeta.
  rewrite !(not_primitive_kind (node_type f) _ Hp)
    by (simpl; tauto).
  cbn [orb]. rewrite Hget, Hobj. reflexivity.
Qed.

(** X24: a custom object type with an included field of its own type (a
    field without initial value and without list options, whose type is the
    name under which the map of types holds the object type) is never given
    a skeleton: however many type names may be followed in a row, the bound
    is reached.  Nor is a document type with an included field of that
    type. *)
Theorem self_reference_never_returns (types : NodeMap) (inc : bool)
  (customType f : SchemaNode) (fs : list SchemaNode) :
  Map_get types (node_type f) = Some customType ->
  node_type customType = js "object" ->
  node_fields customType = Some fs ->
  In f fs ->
  included inc f = true ->
  initialValueOf f = JUndefined ->
  getListOptions (toSchemaType f) = None ->
  isPrimitiveTypeName (node_type f) = false ->
  forall fuel,
    generateObjectSkeleton fuel customType (Some types) inc = None
    /\ getDefaultValueForField fuel f (Some types) inc = None
    /\ (forall root rootFields g id,
          node_fields root = Some rootFields -> In g rootFields ->
          included inc g = true ->
          initialValueOf g = JUndefined ->
          getListOptions (toSchemaType g) = None ->
          node_type g = node_type f ->
          generateDocumentSkeleton fuel root
            {| includeOptional := Some inc; documentId := id;
               skeletonTypeMap := Some types |}
          = None).
Proof.
  intros Hget Hobj Hfs Hin Hinc Hinit Hlist Hp.
  assert (Hfield : forall oc g,
            initialValueOf g = JUndefined ->
            getListOptions (toSchemaType g) = None ->
            node_type g = node_type f ->
            defaultValue (Some types) inc oc g = oc customType).
  { intros oc g Hi Hl Hty. rewrite defaultValue_unfold.
    unfold defaultValueBody. rewrite Hi, Hl. cbn [isUndefined negb].
    apply defaultByKind_custom; rewrite ?Hty; assumption. }
  assert (Hcustom : forall fuel,
            ofCustomTypeWithin fuel (Some types) inc customType = None).
  { induction fuel as [ | fuel IH ]; [ reflexivity | ].
    cbn [ofCustomTypeWithin]. unfold objectSkeletonWith. cbv zeta.
    rewrite Hfs.
    rewrite (fillFields_none inc _ fs f Hin Hinc); [ reflexivity | ].
    rewrite (Hfield _ f Hinit Hlist eq_refl). exact IH. }
  intros fuel.
  assert (Hf : forall g,
            initialValueOf g = JUndefined ->
            getListOptions (toSchemaType g) = None ->
            node_type g = node_type f ->
            getDefaultValueForField fuel g (Some types) inc = None).
  { intros g Hi Hl Hty. unfold getDefaultValueForField.
    rewrite (Hfield _ g Hi Hl Hty). apply Hcustom. }
  split; [ | split ].
  - unfold generateObjectSkeleton, objectSkeletonWith. cbv zeta. rewrite Hfs.
    rewrite (fillFields_none inc _ fs f Hin Hinc); [ reflexivity | ].
    now apply Hf.
  - now apply Hf.
  - intros root rootFields g id Hroot Hg Hginc Hgi Hgl Hgty.
    unfold generateDocumentSkeleton. cbv zeta. cbn [includeOptional withDefault
      skeletonTypeMap documentId]. rewrite Hroot.
    apply (fillFields_none inc _ rootFields g Hg Hginc).
    now apply Hf.
Qed.

Lemma self_reference_never_returns_witness :
  let category :=
    NodeFixture.withFields
      [NodeFixture.withRules [Fixture.required]
         (NodeFixture.field "category" "parent")]
      (NodeFixture.node "object" (Some "category"%string)) in
  Map_get (nodeMapOf [category]) (js "category") = Some category
  /\ generateSkeletonByTypeName 3 (js "category") [category] noSkeletonOptions
     = None
  /\ forall fuel,
       generateObjectSkeleton fuel category (Some (nodeMapOf [category])) false
       = None.
Proof.
  intros category. split; [ reflexivity | ]. split; [ reflexivity | ].
  intros fuel.
  refine (proj1 (self_reference_never_returns (nodeMapOf [category]) false
                   category
                   (NodeFixture.withRules [Fixture.required]
                      (NodeFixture.field "category" "parent"))
                   _ eq_refl eq_refl eq_refl (or_introl eq_refl) eq_refl
                   eq_refl eq_refl eq_refl fuel)).
Defined.

(** ** The skeleton and the validator *)







(** ** What is not read of the schema *)

(** X26: the level and the message of a validation group are not read, and
    neither are the rules of the root type.  A field whose groups hold the
    same rules in the same order is validated with the same outcome,
    whatever the levels of the groups; every issue that a rule raises is an
    error, but for the info note of a [custom] rule; and [validateDocument]
    reads of the root type its name and its fields only. *)
Theorem group_level_is_not_read (h : Host) (typeMap : TypeMap)
  (opts : ValidateOptions) :
  (forall v f groups p,
     flat_map rules groups = getValidationRules f ->
     validateField h v (regrouped f groups) p typeMap opts
     = validateField h v f p typeMap opts)
  /\ (forall v rs p f ctx out,
        applyValidationRules h v rs p f ctx = Returns out ->
        forall i, In i out ->
          severity i = sev_error
          \/ (severity i = sev_info
              /\ message i = js "Has custom validation that cannot be evaluated"))
  /\ (forall document st st' allTypes,
        name st' = name st -> fields st' = fields st ->
        validateDocument h document st' allTypes opts
        = validateDocument h document st allTypes opts).
Proof.
  split; [ | split ].
  - intros v f groups p Hrules.
    rewrite !validateField_unfold. unfold validateFieldBody.
    assert (Hr : getValidationRules (regrouped f groups) = getValidationRules f)
      by exact Hrules.
    rewrite Hr. destruct f as [ty nm ti fs ms ts val fopts]. reflexivity.
  - intros v rs p f ctx out H i Hi. unfold applyValidationRules in H.
    assert (HF : Forall (fun i =>
                    severity i = sev_error
                    \/ (severity i = sev_info
                        /\ message i
                           = js "Has custom validation that cannot be evaluated"))
                   out).
    { eapply forEach_forall; [ | exact H ].
      intros r o _ Ho. unfold applyRule, applyMin, applyMax, applyLength,
        applyRegex in Ho.
      repeat match type of Ho with
             | (if ?b then _ else _) = _ => destruct b
             | match ?x with _ => _ end = _ => destruct x
             end;
        try discriminate; injection Ho as <-;
        repeat match goal with
               | |- Forall _ (match ?x with _ => _ end) => destruct x
               | |- Forall _ ((if ?b then _ else _) ++ _) => destruct b
               | |- Forall _ (_ ++ (if ?b then _ else _)) => destruct b
               end;
        cbn [app];
        repeat (first [ apply Forall_nil | apply Forall_cons ]);
        first [ left; reflexivity | right; split; reflexivity ]. }
    rewrite Forall_forall in HF. now apply HF.
  - intros document st st' allTypes Hname Hfields.
    unfold validateDocument, collectIssues, checkDocType, buildResult.
    rewrite Hname, Hfields. reflexivity.
Qed.

Lemma group_level_is_not_read_witness :
  let lenient :=
    [{| rules := [Fixture.rule "min" (Some (Fixture.num 5))];
        group_message := None; level := Some (js "warning") |}] in
  let field := Fixture.fieldOf "number" "rating" "Rating" [] in
  flat_map rules lenient
  = getValidationRules
      (Fixture.fieldOf "number" "rating" "Rating"
         [Fixture.rule "min" (Some (Fixture.num 5))])
  /\ validateField ExampleHost.host (Fixture.num 1)
       (regrouped
          (Fixture.fieldOf "number" "rating" "Rating"
             [Fixture.rule "min" (Some (Fixture.num 5))])
          lenient)
       (js "rating") [] noOptions
     = validateField ExampleHost.host (Fixture.num 1)
         (Fixture.fieldOf "number" "rating" "Rating"
            [Fixture.rule "min" (Some (Fixture.num 5))])
         (js "rating") [] noOptions
  /\ exists e,
       validateField ExampleHost.host (Fixture.num 1)
         (regrouped field lenient) (js "rating") [] noOptions
       = Returns [e]
       /\ severity e = sev_error.
Proof.
  intros lenient field. split; [ reflexivity | ]. split.
  - apply (proj1 (group_level_is_not_read ExampleHost.host [] noOptions)).
    reflexivity.
  - eexists. split; reflexivity.
Defined.

(** ** Stopping at the first error *)





(** ** The slug that the warning suggests *)

Lemma Lang_nullable (r : Re) (s : JsString) :
  Lang r s -> s = [] -> nullable r = true.
Proof.
  induction 1 as [ | p c Hp | r1 r2 s1 s2 _ IH1 _ IH2 | r1 r2 s _ IH
                 | r1 r2 s _ IH | r | r s1 s2 _ _ _ _ ];
    intros Hs; simpl; try reflexivity.
  - discriminate.
  - apply app_eq_nil in Hs as [H1 H2]. now rewrite IH1, IH2.
  - now rewrite IH.
  - rewrite IH by assumption. apply orb_true_r.
Qed.

Lemma Lang_deriv (r : Re) (w : JsString) :
  Lang r w -> forall c s, w = c :: s -> Lang (deriv c r) s.
Proof.
  induction 1 as [ | p d Hp | r1 r2 s1 s2 H1 IH1 H2 IH2 | r1 r2 w H IH
                 | r1 r2 w H IH | r | r s1 s2 H1 IH1 H2 IH2 ];
    intros c s Hw; simpl.
  - discriminate.
  - injection Hw as -> <-. rewrite Hp. constructor.
  - destruct s1 as [ | d s1 ].
    + rewrite (Lang_nullable r1 [] H1 eq_refl).
      apply Lang_alt_r. now apply IH2.
    + injection Hw as -> <-.
      destruct (nullable r1); [ apply Lang_alt_l | ];
        apply Lang_seq; auto.
  - apply Lang_alt_l. now apply IH.
  - apply Lang_alt_r. now apply IH.
  - discriminate.
  - destruct s1 as [ | d s1 ].
    + now apply IH2.
    + injection Hw as -> <-. apply Lang_seq; auto.
Qed.

Lemma Lang_matches (s : JsString) :
  forall r, Lang r s -> matches r s = true.
Proof.
  induction s as [ | c s IH ]; intros r H; simpl.
  - exact (Lang_nullable r [] H eq_refl).
  - apply IH. exact (Lang_deriv r (c :: s) H c s eq_refl).
Qed.

Lemma alnums_star (s : JsString) :
  forallb isSlugAlnum s = true -> Lang (ReStar (ReClass isSlugAlnum)) s.
Proof.
  induction s as [ | c s IH ]; simpl; intros H; [ constructor | ].
  apply andb_true_iff in H as [Hc Hs].
  apply (Lang_star_cons _ [c] s); [ now constructor | now apply IH ].
Qed.

Lemma slugTail_split (s : JsString) :
  slugTail s = true ->
  exists s1 s2,
    s = s1 ++ s2
    /\ forallb isSlugAlnum s1 = true
    /\ Lang (ReStar (ReSeq (ReClass isHyphen) (RePlus (ReClass isSlugAlnum))))
         s2
    /\ (forall d rest, s2 = d :: rest -> isHyphen d = true).
Proof.
  induction s as [ | c s IH ]; intros H.
  - exists [], []. repeat split; [ constructor | discriminate ].
  - cbn [slugTail] in H. destruct (isSlugAlnum c) eqn:Ec.
    + destruct (IH H) as (s1 & s2 & -> & H1 & H2 & H3).
      exists (c :: s1), s2. repeat split; auto. simpl. now rewrite Ec.
    + apply andb_true_iff in H as [Hc H].
      destruct s as [ | d s ]; [ discriminate | ].
      apply andb_true_iff in H as [Hd H].
      destruct (IH H) as (s1 & s2 & Hs & H1 & H2 & H3).
      destruct s1 as [ | d' s1 ].
      { simpl in Hs. pose proof (H3 d s (eq_sym Hs)) as Hh.
        rewrite (alnum_not_hyphen d Hd) in Hh. discriminate. }
      simpl in Hs, H1. apply andb_true_iff in H1 as [Hd' H1].
      exists [], (c :: d :: s). repeat split.
      * rewrite Hs.
        apply (Lang_star_cons _ (c :: d' :: s1) s2); [ | exact H2 ].
        apply (Lang_seq _ _ [c] (d' :: s1)); [ now constructor | ].
        apply (Lang_seq _ _ [d'] s1); [ now constructor | now apply alnums_star ].
      * now intros d0 rest [= <- _].
Qed.

Lemma slugShaped_matches (s : JsString) :
  slugShaped s = true -> matches slugPattern s = true.
Proof.
  destruct s as [ | c s ]; [ discriminate | ]. cbn [slugShaped].
  intros H. apply andb_true_iff in H as [Hc Hs].
  destruct (slugTail_split s Hs) as (s1 & s2 & -> & H1 & H2 & _).
  apply Lang_matches. unfold slugPattern, RePlus.
  apply (Lang_seq _ _ (c :: s1) s2); [ | exact H2 ].
  apply (Lang_seq _ _ [c] s1); [ now constructor | now apply alnums_star ].
Qed.

Lemma hyphenRuns_replaceRuns (s : JsString) :
  forall b, hyphenRuns b (replaceRuns b s) = true.
Proof.
  induction s as [ | c s IH ]; intros b; [ reflexivity | ].
  cbn [replaceRuns]. destruct (isSlugAlnum c) eqn:Ec.
  - cbn [hyphenRuns]. rewrite Ec. apply IH.
  - destruct b; [ apply IH | ].
    cbn [hyphenRuns]. rewrite IH. reflexivity.
Qed.

Lemma hyphenRuns_alnum (b : bool) (c : N) (s : JsString) :
  isSlugAlnum c = true -> hyphenRuns b (c :: s) = hyphenRuns false s.
Proof. intros H. cbn [hyphenRuns]. now rewrite H. Qed.

Lemma slugTail_dropLastHyphen (s : JsString) :
  hyphenRuns false s = true -> slugTail (dropLastHyphen s) = true.
Proof.
  induction s as [ | c s IH ]; intros H; [ reflexivity | ].
  destruct s as [ | d s ].
  - cbn [dropLastHyphen]. destruct (isHyphen c) eqn:Eh; [ reflexivity | ].
    cbn [hyphenRuns] in H. cbn [slugTail].
    destruct (isSlugAlnum c); [ reflexivity | ].
    rewrite Eh in H. discriminate.
  - rewrite dropLastHyphen_cons2. cbn [hyphenRuns] in H.
    destruct (isSlugAlnum c) eqn:Ec.
    + cbn [slugTail]. rewrite Ec. now apply IH.
    + apply andb_true_iff in H as [Hc H].
      apply andb_true_iff in Hc as [Hc _].
      cbn [hyphenRuns] in H. destruct (isSlugAlnum d) eqn:Ed.
      * assert (Hd : hyphenRuns false (d :: s) = true)
          by (rewrite (hyphenRuns_alnum false d s Ed); exact H).
        specialize (IH Hd). cbn [slugTail]. rewrite Ec, Hc.
        destruct (dropLastHyphen_keeps_head d s (alnum_not_hyphen d Ed))
          as [rest Hrest].
        rewrite Hrest in IH |- *. rewrite Ed. exact IH.
      * apply andb_true_iff in H as [H _].
        apply andb_true_iff in H as [_ H]. discriminate.
Qed.

Lemma stripEdgeHyphen_shaped (w : JsString) :
  hyphenRuns false w = true ->
  stripEdgeHyphen w = [] \/ slugShaped (stripEdgeHyphen w) = true.
Proof.
  assert (Hword : forall w, hyphenRuns true w = true ->
                    dropLastHyphen w = [] \/ slugShaped (dropLastHyphen w) = true).
  { intros [ | c s ] H; [ now left | right ].
    cbn [hyphenRuns] in H. destruct (isSlugAlnum c) eqn:Ec.
    - destruct (dropLastHyphen_keeps_head c s (alnum_not_hyphen c Ec))
        as [rest Hrest].
      pose proof (slugTail_dropLastHyphen (c :: s)) as Ht.
      rewrite (hyphenRuns_alnum false c s Ec) in Ht. specialize (Ht H).
      rewrite Hrest in Ht |- *. cbn [slugShaped]. rewrite Ec.
      cbn [slugTail] in Ht. now rewrite Ec in Ht.
    - apply andb_true_iff in H as [H _].
      apply andb_true_iff in H as [_ H]. discriminate. }
  intros H. destruct w as [ | c w ]; [ now left | ].
  unfold stripEdgeHyphen. cbn [hyphenRuns] in H.
  destruct (isSlugAlnum c) eqn:Ec.
  - rewrite (alnum_not_hyphen c Ec). apply Hword.
    now rewrite (hyphenRuns_alnum true c w Ec).
  - apply andb_true_iff in H as [Hc H].
    apply andb_true_iff in Hc as [Hc _]. rewrite Hc. now apply Hword.
Qed.

(** X28: the slug that the warning of [validateSlug] suggests is accepted
    when it is put in place of the rejected one: whatever the host's
    [toLowerCase] returns, the suggestion is empty or matches the pattern of
    the check, and [validateSlug] raises nothing on an object whose
    [current] is a suggestion that is not empty. *)
Theorem suggested_slug_is_accepted (h : Host) (s : JsString) :
  slugSuggestion h s = []
  \/ (matches slugPattern (slugSuggestion h s) = true
      /\ forall props f p rs ctx,
           lookup props (js "current") = Some (JStr (slugSuggestion h s)) ->
           validateSlug h (JObj props) f p rs ctx = []).
Proof.
  assert (H : slugSuggestion h s = []
              \/ slugShaped (slugSuggestion h s) = true).
  { unfold slugSuggestion, replaceNonAlnumRuns.
    apply stripEdgeHyphen_shaped, hyphenRuns_replaceRuns. }
  destruct H as [H | H]; [ now left | right ].
  pose proof (slugShaped_matches _ H) as Hm.
  split; [ exact Hm | ].
  intros props f p rs ctx Hcur. unfold validateSlug.
  cbn [isObjectLike negb get]. unfold getProp. rewrite Hcur.
  destruct (slugSuggestion h s) as [ | c t ]; [ discriminate H | ].
  now rewrite Hm.
Qed.

Lemma suggested_slug_is_accepted_witness :
  slugSuggestion ExampleHost.host (js "Hello World!") = js "hello-world"
  /\ matches slugPattern (js "Hello World!") = false
  /\ matches slugPattern (slugSuggestion ExampleHost.host (js "Hello World!"))
     = true
  /\ validateSlug ExampleHost.host
       (JObj [(js "current",
               JStr (slugSuggestion ExampleHost.host (js "Hello World!")))])
       (Fixture.fieldOf "slug" "slug" "Slug" []) (js "slug") []
       (fieldContextOf (Fixture.fieldOf "slug" "slug" "Slug" []))
     = [].
Proof.
  split; [ reflexivity | ]. split; [ reflexivity | ].
  destruct (suggested_slug_is_accepted ExampleHost.host (js "Hello World!"))
    as [Hempty | [Hm Hv]]; [ discriminate Hempty | ].
  split; [ exact Hm | ].
  apply Hv. cbn [lookup]. now rewrite str_eqb_refl.
Defined.
